(** * Snake Evolution: the orchestration engine of [snake_evolution.py]

    A shallow embedding of the session state machine, the snake board, the
    scoring rules and the math question generator of [SnakeGame], with the
    properties of the design document checked against them.

    Conventions of the embedding:
    - a Python [int] is a [Z]; a grid cell is a pair of [Z];
    - an attribute that can be [None] is an [option];
    - a method that can raise returns a [Res]; a method that draws from
      [random] is a function of the tape of draws still to come;
    - [self] is a [Game] record, one field per attribute of the session; the
      private attributes of the ten sub-games live in a separate component. *)

From Stdlib Require Import ZArith String List Bool Lia Permutation.
From Stdlib Require DecimalString.
Import ListNotations.
Open Scope Z_scope.

(** ** Game constants *)

Definition WINDOW_WIDTH : Z := 800.
Definition WINDOW_HEIGHT : Z := 600.
Definition GRID_SIZE : Z := 20.
Definition GRID_WIDTH : Z := WINDOW_WIDTH / GRID_SIZE.
Definition GRID_HEIGHT : Z := WINDOW_HEIGHT / GRID_SIZE.

(** ** Enumerations and records *)

Inductive Direction := UP | DOWN | LEFT | RIGHT.

(** [Direction.value]: the unit delta of a heading. *)
Definition value (d : Direction) : Z * Z :=
  match d with
  | UP => (0, -1)
  | DOWN => (0, 1)
  | LEFT => (-1, 0)
  | RIGHT => (1, 0)
  end.

Definition Direction_eqb (a b : Direction) : bool :=
  match a, b with
  | UP, UP | DOWN, DOWN | LEFT, LEFT | RIGHT, RIGHT => true
  | _, _ => false
  end.

Definition opposite (d : Direction) : Direction :=
  match d with
  | UP => DOWN
  | DOWN => UP
  | LEFT => RIGHT
  | RIGHT => LEFT
  end.

Inductive GameState :=
  | MENU
  | PLAYING
  | CATEGORY_SELECT
  | EDUCATION_GAME_SELECT
  | EDUCATION_GAME_PLAYING
  | PYTHON_GAME_SELECT
  | PYTHON_GAME_PLAYING
  | GAME_OVER
  | PAUSED.

(** An answer or an option of a question: the math generator makes integers,
    the fixed tables hold strings. *)
Inductive Value :=
  | VInt (n : Z)
  | VStr (s : string).

(** Python's [==] on these values: an [int] never equals a [str]. *)
Definition Value_eqb (a b : Value) : bool :=
  match a, b with
  | VInt x, VInt y => x =? y
  | VStr s, VStr t => String.eqb s t
  | _, _ => false
  end.

Record Question := mkQuestion {
  question : string;
  answer : Value;
  options : list Value;
  difficulty : Z;
  subject : string
}.

Definition Cell : Type := Z * Z.

Definition Cell_eqb (a b : Cell) : bool :=
  (fst a =? fst b) && (snd a =? snd b).

(** [c in cells] on a Python list of tuples. *)
Fixpoint cell_in (c : Cell) (cells : list Cell) : bool :=
  match cells with
  | [] => false
  | c' :: rest => Cell_eqb c c' || cell_in c rest
  end.

(** The attributes of [SnakeGame] that make up the session. *)
Record Game := mkGame {
  state : GameState;
  language : string;
  selected_category : option string;
  current_education_game : option string;
  current_python_game : option string;
  snake : list Cell;
  direction : Direction;
  next_direction : Direction;
  food_pos : option Cell;
  current_question : option Question;
  question_answered : bool;
  score : Z;
  level : Z;
  questions_correct : Z;
  questions_total : Z;
  streak : Z;
  best_streak : Z;
  last_move_time : Z;
  move_delay : Z
}.

(** Attribute assignment, one setter per attribute. *)
Definition set_state (v : GameState) (g : Game) : Game :=
  mkGame v (language g) (selected_category g) (current_education_game g)
    (current_python_game g) (snake g) (direction g) (next_direction g)
    (food_pos g) (current_question g) (question_answered g) (score g)
    (level g) (questions_correct g) (questions_total g) (streak g)
    (best_streak g) (last_move_time g) (move_delay g).

Definition set_language (v : string) (g : Game) : Game :=
  mkGame (state g) v (selected_category g) (current_education_game g)
    (current_python_game g) (snake g) (direction g) (next_direction g)
    (food_pos g) (current_question g) (question_answered g) (score g)
    (level g) (questions_correct g) (questions_total g) (streak g)
    (best_streak g) (last_move_time g) (move_delay g).

Definition set_selected_category (v : option string) (g : Game) : Game :=
  mkGame (state g) (language g) v (current_education_game g)
    (current_python_game g) (snake g) (direction g) (next_direction g)
    (food_pos g) (current_question g) (question_answered g) (score g)
    (level g) (questions_correct g) (questions_total g) (streak g)
    (best_streak g) (last_move_time g) (move_delay g).

Definition set_current_education_game (v : option string) (g : Game) : Game :=
  mkGame (state g) (language g) (selected_category g) v
    (current_python_game g) (snake g) (direction g) (next_direction g)
    (food_pos g) (current_question g) (question_answered g) (score g)
    (level g) (questions_correct g) (questions_total g) (streak g)
    (best_streak g) (last_move_time g) (move_delay g).

Definition set_current_python_game (v : option string) (g : Game) : Game :=
  mkGame (state g) (language g) (selected_category g)
    (current_education_game g) v (snake g) (direction g) (next_direction g)
    (food_pos g) (current_question g) (question_answered g) (score g)
    (level g) (questions_correct g) (questions_total g) (streak g)
    (best_streak g) (last_move_time g) (move_delay g).

Definition set_snake (v : list Cell) (g : Game) : Game :=
  mkGame (state g) (language g) (selected_category g)
    (current_education_game g) (current_python_game g) v (direction g)
    (next_direction g) (food_pos g) (current_question g)
    (question_answered g) (score g) (level g) (questions_correct g)
    (questions_total g) (streak g) (best_streak g) (last_move_time g)
    (move_delay g).

Definition set_direction (v : Direction) (g : Game) : Game :=
  mkGame (state g) (language g) (selected_category g)
    (current_education_game g) (current_python_game g) (snake g) v
    (next_direction g) (food_pos g) (current_question g)
    (question_answered g) (score g) (level g) (questions_correct g)
    (questions_total g) (streak g) (best_streak g) (last_move_time g)
    (move_delay g).

Definition set_next_direction (v : Direction) (g : Game) : Game :=
  mkGame (state g) (language g) (selected_category g)
    (current_education_game g) (current_python_game g) (snake g)
    (direction g) v (food_pos g) (current_question g) (question_answered g)
    (score g) (level g) (questions_correct g) (questions_total g) (streak g)
    (best_streak g) (last_move_time g) (move_delay g).

Definition set_food_pos (v : option Cell) (g : Game) : Game :=
  mkGame (state g) (language g) (selected_category g)
    (current_education_game g) (current_python_game g) (snake g)
    (direction g) (next_direction g) v (current_question g)
    (question_answered g) (score g) (level g) (questions_correct g)
    (questions_total g) (streak g) (best_streak g) (last_move_time g)
    (move_delay g).

Definition set_current_question (v : option Question) (g : Game) : Game :=
  mkGame (state g) (language g) (selected_category g)
    (current_education_game g) (current_python_game g) (snake g)
    (direction g) (next_direction g) (food_pos g) v (question_answered g)
    (score g) (level g) (questions_correct g) (questions_total g) (streak g)
    (best_streak g) (last_move_time g) (move_delay g).

Definition set_question_answered (v : bool) (g : Game) : Game :=
  mkGame (state g) (language g) (selected_category g)
    (current_education_game g) (current_python_game g) (snake g)
    (direction g) (next_direction g) (food_pos g) (current_question g) v
    (score g) (level g) (questions_correct g) (questions_total g) (streak g)
    (best_streak g) (last_move_time g) (move_delay g).

Definition set_score (v : Z) (g : Game) : Game :=
  mkGame (state g) (language g) (selected_category g)
    (current_education_game g) (current_python_game g) (snake g)
    (direction g) (next_direction g) (food_pos g) (current_question g)
    (question_answered g) v (level g) (questions_correct g)
    (questions_total g) (streak g) (best_streak g) (last_move_time g)
    (move_delay g).

Definition set_level (v : Z) (g : Game) : Game :=
  mkGame (state g) (language g) (selected_category g)
    (current_education_game g) (current_python_game g) (snake g)
    (direction g) (next_direction g) (food_pos g) (current_question g)
    (question_answered g) (score g) v (questions_correct g)
    (questions_total g) (streak g) (best_streak g) (last_move_time g)
    (move_delay g).

Definition set_questions_correct (v : Z) (g : Game) : Game :=
  mkGame (state g) (language g) (selected_category g)
    (current_education_game g) (current_python_game g) (snake g)
    (direction g) (next_direction g) (food_pos g) (current_question g)
    (question_answered g) (score g) (level g) v (questions_total g)
    (streak g) (best_streak g) (last_move_time g) (move_delay g).

Definition set_questions_total (v : Z) (g : Game) : Game :=
  mkGame (state g) (language g) (selected_category g)
    (current_education_game g) (current_python_game g) (snake g)
    (direction g) (next_direction g) (food_pos g) (current_question g)
    (question_answered g) (score g) (level g) (questions_correct g) v
    (streak g) (best_streak g) (last_move_time g) (move_delay g).

Definition set_streak (v : Z) (g : Game) : Game :=
  mkGame (state g) (language g) (selected_category g)
    (current_education_game g) (current_python_game g) (snake g)
    (direction g) (next_direction g) (food_pos g) (current_question g)
    (question_answered g) (score g) (level g) (questions_correct g)
    (questions_total g) v (best_streak g) (last_move_time g) (move_delay g).

Definition set_best_streak (v : Z) (g : Game) : Game :=
  mkGame (state g) (language g) (selected_category g)
    (current_education_game g) (current_python_game g) (snake g)
    (direction g) (next_direction g) (food_pos g) (current_question g)
    (question_answered g) (score g) (level g) (questions_correct g)
    (questions_total g) (streak g) v (last_move_time g) (move_delay g).

Definition set_last_move_time (v : Z) (g : Game) : Game :=
  mkGame (state g) (language g) (selected_category g)
    (current_education_game g) (current_python_game g) (snake g)
    (direction g) (next_direction g) (food_pos g) (current_question g)
    (question_answered g) (score g) (level g) (questions_correct g)
    (questions_total g) (streak g) (best_streak g) v (move_delay g).

Definition set_move_delay (v : Z) (g : Game) : Game :=
  mkGame (state g) (language g) (selected_category g)
    (current_education_game g) (current_python_game g) (snake g)
    (direction g) (next_direction g) (food_pos g) (current_question g)
    (question_answered g) (score g) (level g) (questions_correct g)
    (questions_total g) (streak g) (best_streak g) (last_move_time g) v.

(** ** Results, exceptions and the random tape *)

Inductive Exn : Set := IndexError.

(** The outcome of a call: a value, an exception, or [Starved] when the call
    was still drawing random numbers at the end of the tape it was given (a
    loop that has not left yet). *)
Inductive Res (A : Type) :=
  | Ok (a : A)
  | Raise (e : Exn)
  | Starved.

Arguments Ok {A} a.
Arguments Raise {A} e.
Arguments Starved {A}.

(** The draws [random] will make, oldest first. *)
Definition Tape : Type := list Z.

(** A computation that reads the tape. *)
Definition M (A : Type) : Type := Tape -> Res (A * Tape).

Definition ret {A} (a : A) : M A := fun t => Ok (a, t).

Definition bind {A B} (m : M A) (k : A -> M B) : M B :=
  fun t =>
    match m t with
    | Ok (a, t') => k a t'
    | Raise e => Raise e
    | Starved => Starved
    end.

Definition lift {A} (r : Res A) : M A :=
  fun t =>
    match r with
    | Ok a => Ok (a, t)
    | Raise e => Raise e
    | Starved => Starved
    end.

Notation "x <- m ;; k" := (bind m (fun x => k))
  (at level 61, m at next level, right associativity).

(** How a raw draw lands in [a..b]: every value of the range is the image of
    some draw, and nothing else is. *)
Definition into_range (a b raw : Z) : Z := a + raw mod (b - a + 1).

(** [random.randint(a, b)] *)
Definition randint (a b : Z) : M Z :=
  fun t =>
    match t with
    | [] => Starved
    | raw :: t' => Ok (into_range a b raw, t')
    end.

(** [random._randbelow(n)] *)
Definition randbelow (n : Z) : M Z := randint 0 (n - 1).

(** [seq[i]] for a Python list and any integer index: a negative index counts
    from the end, an index outside [-len .. len-1] raises. *)
Definition py_index {A} (seq : list A) (i : Z) : Res A :=
  let n := Z.of_nat (length seq) in
  let j := if i <? 0 then i + n else i in
  if (j <? 0) || (n <=? j) then Raise IndexError
  else
    match nth_error seq (Z.to_nat j) with
    | Some a => Ok a
    | None => Raise IndexError
    end.

(** [random.choice(seq)] *)
Definition choice {A} (seq : list A) : M A :=
  i <- randbelow (Z.of_nat (length seq)) ;;
  lift (py_index seq i).

(** ** The board *)

(** One pass of the body of [generate_food]'s [while True]: two draws, then
    either the cell is free and the loop is left, or the loop goes on. *)
Fixpoint generate_food_loop (cells : list Cell) (t : Tape) {struct t}
  : Res (Cell * Tape) :=
  match t with
  | [] => Starved
  | rx :: t1 =>
      let x := into_range 0 (GRID_WIDTH - 1) rx in
      match t1 with
      | [] => Starved
      | ry :: t2 =>
          let y := into_range 0 (GRID_HEIGHT - 1) ry in
          if negb (cell_in (x, y) cells) then Ok ((x, y), t2)
          else generate_food_loop cells t2
      end
  end.

Definition generate_food (g : Game) : M Game :=
  c <- generate_food_loop (snake g) ;;
  ret (set_food_pos (Some c) g).

(** [start_game], in the order of its assignments. *)
Definition start_game (g : Game) : M Game :=
  let g := set_state PLAYING g in
  let g := set_snake [(GRID_WIDTH / 2, GRID_HEIGHT / 2)] g in
  let g := set_direction RIGHT g in
  let g := set_next_direction RIGHT g in
  let g := set_score 0 g in
  let g := set_level 1 g in
  let g := set_questions_correct 0 g in
  let g := set_questions_total 0 g in
  let g := set_streak 0 g in
  let g := set_selected_category None g in
  let g := set_current_education_game None g in
  let g := set_current_python_game None g in
  generate_food g.

Definition restart_game (g : Game) : M Game := start_game g.

(** The attributes [__init__] assigns before it calls [generate_food]. *)
Definition defaults : Game :=
  {| state := MENU;
     language := "english";
     selected_category := None;
     current_education_game := None;
     current_python_game := None;
     snake := [(GRID_WIDTH / 2, GRID_HEIGHT / 2)];
     direction := RIGHT;
     next_direction := RIGHT;
     food_pos := None;
     current_question := None;
     question_answered := false;
     score := 0;
     level := 1;
     questions_correct := 0;
     questions_total := 0;
     streak := 0;
     best_streak := 0;
     last_move_time := 0;
     move_delay := 200 |}.

(** [SnakeGame.__init__] *)
Definition init : M Game := generate_food defaults.

(** [grow_snake]: [self.snake[-1]] raises on an empty list. *)
Definition grow_snake (g : Game) : Res Game :=
  match py_index (snake g) (-1) with
  | Ok tail => Ok (set_snake (snake g ++ [tail]) g)
  | Raise e => Raise e
  | Starved => Starved
  end.

Definition game_over (g : Game) : Game := set_state GAME_OVER g.

Definition out_of_bounds (c : Cell) : bool :=
  (fst c <? 0) || (GRID_WIDTH <=? fst c) || (snd c <? 0) || (GRID_HEIGHT <=? snd c).

(** [update_snake]; [current_time] is what [pygame.time.get_ticks()] returns. *)
Definition update_snake (current_time : Z) (g : Game) : Res Game :=
  if current_time - last_move_time g <? move_delay g then Ok g
  else
    let g := set_last_move_time current_time g in
    let g := set_direction (next_direction g) g in
    match py_index (snake g) 0 with
    | Ok (head_x, head_y) =>
        let '(dx, dy) := value (direction g) in
        let new_head := (head_x + dx, head_y + dy) in
        if out_of_bounds new_head then Ok (game_over g)
        else if cell_in new_head (snake g) then Ok (game_over g)
        else
          let g := set_snake (new_head :: snake g) g in
          match food_pos g with
          | Some f =>
              if Cell_eqb new_head f then Ok (set_state CATEGORY_SELECT g)
              else Ok (set_snake (removelast (snake g)) g)
          | None => Ok (set_snake (removelast (snake g)) g)
          end
    | Raise e => Raise e
    | Starved => Starved
    end.

(** ** Scoring: [answer_question] *)

Definition answer_question (option_index : Z) (g : Game) : M Game :=
  match current_question g with
  | None => ret g
  | Some q =>
      if Z.of_nat (length (options q)) <=? option_index then ret g
      else
        selected_answer <- lift (py_index (options q) option_index) ;;
        let g := set_questions_total (questions_total g + 1) g in
        (* both arms of the [isinstance] test compare with [==] *)
        let is_correct := Value_eqb selected_answer (answer q) in
        g <- (if is_correct then
                let g := set_questions_correct (questions_correct g + 1) g in
                let g := set_streak (streak g + 1) g in
                let g := set_best_streak (Z.max (best_streak g) (streak g)) g in
                let bonus := Z.min (streak g * 2) 20 in
                let g := set_score (score g + (10 + bonus)) g in
                g <- lift (grow_snake g) ;;
                g <- generate_food g ;;
                let g := set_question_answered true g in
                let g := set_state PLAYING g in
                if questions_correct g mod 5 =? 0 then
                  let g := set_level (level g + 1) g in
                  ret (set_move_delay (Z.max 100 (move_delay g - 10)) g)
                else ret g
              else ret (set_streak 0 g)) ;;
        ret (set_current_question None g)
  end.

(** ** The question bank: [generate_math_question] *)

(** [str(n)] for an integer, as an f-string prints it. *)
Definition str (n : Z) : string :=
  DecimalString.NilZero.string_of_int (Z.to_int n).

(** [wrong in options] *)
Definition int_in (n : Z) (l : list Z) : bool := existsb (Z.eqb n) l.

(** The [while len(options) < 4] loop: one draw per pass. *)
Fixpoint wrong_options (answer : Z) (options : list Z) (t : Tape) {struct t}
  : Res (list Z * Tape) :=
  if Z.of_nat (length options) <? 4 then
    match t with
    | [] => Starved
    | raw :: t' =>
        let wrong := answer + into_range (-10) 10 raw in
        if negb (wrong =? answer) && negb (int_in wrong options) && (0 <=? wrong)
        then wrong_options answer (options ++ [wrong]) t'
        else wrong_options answer options t'
    end
  else Ok (options, t).

(** [x[i] = v] on a list, for [i] in range. *)
Fixpoint list_set {A} (x : list A) (i : nat) (v : A) : list A :=
  match x, i with
  | [], _ => []
  | _ :: rest, O => v :: rest
  | a :: rest, S i' => a :: list_set rest i' v
  end.

(** [x[i], x[j] = x[j], x[i]]: both reads come first. *)
Definition swap {A} (x : list A) (i j : nat) : Res (list A) :=
  match nth_error x j, nth_error x i with
  | Some xj, Some xi => Ok (list_set (list_set x i xj) j xi)
  | _, _ => Raise IndexError
  end.

(** The body of [random.shuffle] for [i] running down from its start to 1. *)
Fixpoint shuffle_from {A} (i : nat) (x : list A) : M (list A) :=
  match i with
  | O => ret x
  | S i' =>
      j <- randbelow (Z.of_nat i + 1) ;;
      x <- lift (swap x i (Z.to_nat j)) ;;
      shuffle_from i' x
  end.

(** [random.shuffle(x)]: [for i in reversed(range(1, len(x)))]. *)
Definition shuffle {A} (x : list A) : M (list A) :=
  shuffle_from (length x - 1)%nat x.

Definition perfect_squares : list Z := [4; 9; 16; 25; 36; 49; 64; 81; 100].

(** The two lambdas of the advanced tier. Each draws twice: once for the text
    and once more for the answer. On a perfect square [int(n ** 0.5)] is the
    integer root. *)
Definition square_operation : M (string * Z) :=
  shown <- randint 1 20 ;;
  n <- randint 1 20 ;;
  ret ((str shown ++ "² = ?")%string, n ^ 2).

Definition root_operation : M (string * Z) :=
  shown <- choice perfect_squares ;;
  n <- choice perfect_squares ;;
  ret (("√" ++ str shown ++ " = ?")%string, Z.sqrt n).

(** The text and the answer [generate_math_question] settles on for a tier. *)
Definition math_problem (difficulty : Z) : M (string * Z) :=
  if difficulty <=? 3 then
    a <- randint 1 20 ;;
    b <- randint 1 20 ;;
    operation <- choice ["+"; "-"]%string ;;
    if String.eqb operation "+" then
      ret ((str a ++ " + " ++ str b ++ " = ?")%string, a + b)
    else
      let '(a, b) := if a <? b then (b, a) else (a, b) in
      ret ((str a ++ " - " ++ str b ++ " = ?")%string, a - b)
  else if difficulty <=? 6 then
    a <- randint 2 12 ;;
    b <- randint 2 12 ;;
    operation <- choice ["×"; "÷"]%string ;;
    if String.eqb operation "×" then
      ret ((str a ++ " × " ++ str b ++ " = ?")%string, a * b)
    else
      ret ((str (a * b) ++ " ÷ " ++ str b ++ " = ?")%string, a)
  else
    operation <- choice [square_operation; root_operation] ;;
    operation.

Definition generate_math_question (difficulty : Z) : M Question :=
  problem <- math_problem difficulty ;;
  let '(text, answer) := problem in
  options <- wrong_options answer [answer] ;;
  options <- shuffle options ;;
  ret (mkQuestion text (VInt answer) (map VInt options) difficulty "math").

(** ** The shell: events, [handle_input] and the body of [run] *)

(** The keys [handle_input] names, and any other key by its pygame code. *)
Inductive Key :=
  | K_SPACE | K_l | K_UP | K_DOWN | K_LEFT | K_RIGHT | K_p
  | K_1 | K_2 | K_3 | K_4 | K_5 | K_b | K_r | K_q | K_ESCAPE
  | K_OTHER (code : Z).

Inductive Event :=
  | QUIT
  | KEYDOWN (key : Key) (unicode : string)
  | OTHER_EVENT.

(** What one pass of the loop of [run] reads from pygame: the queued events,
    [pygame.time.get_ticks()] and [pygame.key.get_pressed()]. *)
Record Frame := mkFrame {
  events : list Event;
  ticks : Z;
  pressed : Key -> bool
}.

(** The ten sub-games behind the two selection screens. Their [init_*],
    [handle_*_input] and [update_*] methods read and write attributes of
    their own only ([ttt_board], [bullets], [math_score], [current_problem],
    ...), and draw from [random]; [Mini] stands for those attributes, and
    each operation is given the name of the sub-game it is dispatched on. *)
Class SubGames (Mini : Type) := {
  init_education_game : string -> Mini -> M Mini;
  init_python_game : string -> Mini -> M Mini;
  education_game_input : string -> Key -> string -> Mini -> M Mini;
  python_game_input : string -> Key -> string -> Mini -> M Mini;
  update_python_game : string -> (Key -> bool) -> Mini -> M Mini
}.

Definition education_games : list string :=
  ["math_wizard"; "science_lab"; "geography_quest"; "history_hunter";
   "word_master"]%string.

Definition python_games : list string :=
  ["tic_tac_toe"; "space_shooter"; "car_racing"; "zombie_dash";
   "ball_run"]%string.

(** The sub-games [update_python_games] has a branch for. *)
Definition updated_python_games : list string :=
  ["space_shooter"; "car_racing"; "zombie_dash"; "ball_run"]%string.

Definition name_in (name : option string) (names : list string) : option string :=
  match name with
  | Some n => if existsb (String.eqb n) names then Some n else None
  | None => None
  end.

Section Shell.

Context {Mini : Type} `{SubGames Mini}.

(** [self]: the session and the sub-games' attributes. *)
Definition Self : Type := Game * Mini.

Definition start_education_game (s : Self) : M Self :=
  let '(g, m) := s in
  let g := set_state EDUCATION_GAME_PLAYING g in
  match name_in (current_education_game g) education_games with
  | Some name => m <- init_education_game name m ;; ret (g, m)
  | None => ret (g, m)
  end.

Definition start_python_game (s : Self) : M Self :=
  let '(g, m) := s in
  let g := set_state PYTHON_GAME_PLAYING g in
  match name_in (current_python_game g) python_games with
  | Some name => m <- init_python_game name m ;; ret (g, m)
  | None => ret (g, m)
  end.

Definition handle_education_game_input (key : Key) (unicode : string) (s : Self)
  : M Self :=
  let '(g, m) := s in
  m <- match name_in (current_education_game g) education_games with
       | Some name => education_game_input name key unicode m
       | None => ret m
       end ;;
  match key with
  | K_ESCAPE => ret (set_state EDUCATION_GAME_SELECT g, m)
  | _ => ret (g, m)
  end.

Definition handle_python_game_input (key : Key) (unicode : string) (s : Self)
  : M Self :=
  let '(g, m) := s in
  m <- match name_in (current_python_game g) python_games with
       | Some name => python_game_input name key unicode m
       | None => ret m
       end ;;
  match key with
  | K_ESCAPE => ret (set_state PYTHON_GAME_SELECT g, m)
  | _ => ret (g, m)
  end.

(** The body of [handle_input]'s loop for a [KEYDOWN] event. The flag is
    [false] when [handle_input] returns [False] at once. *)
Definition handle_keydown (key : Key) (unicode : string) (s : Self)
  : M (bool * Self) :=
  let '(g, m) := s in
  match state g with
  | MENU =>
      match key with
      | K_SPACE => g <- start_game g ;; ret (true, (g, m))
      | K_l =>
          let g := set_language
                     (if String.eqb (language g) "english" then "tamil"
                      else "english") g in
          ret (true, (g, m))
      | _ => ret (true, (g, m))
      end
  | PLAYING =>
      match key with
      | K_UP =>
          if negb (Direction_eqb (direction g) DOWN)
          then ret (true, (set_next_direction UP g, m))
          else ret (true, (g, m))
      | K_DOWN =>
          if negb (Direction_eqb (direction g) UP)
          then ret (true, (set_next_direction DOWN g, m))
          else ret (true, (g, m))
      | K_LEFT =>
          if negb (Direction_eqb (direction g) RIGHT)
          then ret (true, (set_next_direction LEFT g, m))
          else ret (true, (g, m))
      | K_RIGHT =>
          if negb (Direction_eqb (direction g) LEFT)
          then ret (true, (set_next_direction RIGHT g, m))
          else ret (true, (g, m))
      | K_p => ret (true, (set_state PAUSED g, m))
      | _ => ret (true, (g, m))
      end
  | CATEGORY_SELECT =>
      match key with
      | K_1 =>
          let g := set_selected_category (Some "education"%string) g in
          ret (true, (set_state EDUCATION_GAME_SELECT g, m))
      | K_2 =>
          let g := set_selected_category (Some "python"%string) g in
          ret (true, (set_state PYTHON_GAME_SELECT g, m))
      | _ => ret (true, (g, m))
      end
  | EDUCATION_GAME_SELECT =>
      let start name :=
        s <- start_education_game
               (set_current_education_game (Some name) g, m) ;;
        ret (true, s) in
      match key with
      | K_1 => start "math_wizard"%string
      | K_2 => start "science_lab"%string
      | K_3 => start "geography_quest"%string
      | K_4 => start "history_hunter"%string
      | K_5 => start "word_master"%string
      | K_b => ret (true, (set_state CATEGORY_SELECT g, m))
      | _ => ret (true, (g, m))
      end
  | PYTHON_GAME_SELECT =>
      let start name :=
        s <- start_python_game (set_current_python_game (Some name) g, m) ;;
        ret (true, s) in
      match key with
      | K_1 => start "tic_tac_toe"%string
      | K_2 => start "space_shooter"%string
      | K_3 => start "car_racing"%string
      | K_4 => start "zombie_dash"%string
      | K_5 => start "ball_run"%string
      | K_b => ret (true, (set_state CATEGORY_SELECT g, m))
      | _ => ret (true, (g, m))
      end
  | EDUCATION_GAME_PLAYING =>
      s <- handle_education_game_input key unicode (g, m) ;; ret (true, s)
  | PYTHON_GAME_PLAYING =>
      s <- handle_python_game_input key unicode (g, m) ;; ret (true, s)
  | PAUSED =>
      match key with
      | K_p => ret (true, (set_state PLAYING g, m))
      | _ => ret (true, (g, m))
      end
  | GAME_OVER =>
      match key with
      | K_r => g <- restart_game g ;; ret (true, (g, m))
      | K_q => ret (false, (g, m))
      | _ => ret (true, (g, m))
      end
  end.

(** [handle_input] over the events of one frame, in order. *)
Fixpoint handle_input (evs : list Event) (s : Self) : M (bool * Self) :=
  match evs with
  | [] => ret (true, s)
  | QUIT :: _ => ret (false, s)
  | KEYDOWN key unicode :: rest =>
      r <- handle_keydown key unicode s ;;
      let '(go_on, s) := r in
      if go_on then handle_input rest s else ret (false, s)
  | OTHER_EVENT :: rest => handle_input rest s
  end.

(** One pass of the [while running] loop of [run]: the events, then the
    update of the active mode (the draw methods assign no attribute). *)
Definition run_frame (f : Frame) (s : Self) : M (bool * Self) :=
  r <- handle_input (events f) s ;;
  let '(running, (g, m)) := r in
  match state g with
  | PLAYING =>
      g <- lift (update_snake (ticks f) g) ;; ret (running, (g, m))
  | PYTHON_GAME_PLAYING =>
      match name_in (current_python_game g) updated_python_games with
      | Some name =>
          m <- update_python_game name (pressed f) m ;; ret (running, (g, m))
      | None => ret (running, (g, m))
      end
  | _ => ret (running, (g, m))
  end.

(** [run]: frames until [running] is false. *)
Fixpoint run (frames : list Frame) (s : Self) : M Self :=
  match frames with
  | [] => ret s
  | f :: rest =>
      r <- run_frame f s ;;
      let '(running, s) := r in
      if running then run rest s else ret s
  end.

End Shell.

(** A shell without sub-games, to run the machine on concrete inputs. *)
#[export] Instance no_sub_games : SubGames unit := {
  init_education_game := fun _ m => ret m;
  init_python_game := fun _ m => ret m;
  education_game_input := fun _ _ _ m => ret m;
  python_game_input := fun _ _ _ m => ret m;
  update_python_game := fun _ _ m => ret m
}.

(** ** The question bank: the fixed tables *)

(** An entry of a table: the text, the answer and the four options. *)
Definition Entry : Type := string * string * list string.

(** What the five table-driven generators share: one entry is chosen and
    returned as a [Question] with its own options, in the order of the
    table. *)
Definition question_from (questions : list Entry) (difficulty : Z)
    (subject : string) : M Question :=
  question_data <- choice questions ;;
  let '(question_text, correct_answer, options) := question_data in
  ret (mkQuestion question_text (VStr correct_answer) (map VStr options)
         difficulty subject).

Definition science_questions : list Entry :=
  [("What is H2O?", "Water", ["Water"; "Hydrogen"; "Oxygen"; "Salt"]);
   ("How many planets are in our solar system?", "8", ["8"; "9"; "7"; "10"]);
   ("What gas do plants absorb from the atmosphere?", "Carbon dioxide",
    ["Carbon dioxide"; "Oxygen"; "Nitrogen"; "Hydrogen"])]%string.

Definition generate_science_question (difficulty : Z) : M Question :=
  question_from science_questions difficulty "science".

Definition geography_questions : list Entry :=
  [("What is the capital of France?", "Paris",
    ["Paris"; "London"; "Berlin"; "Madrid"]);
   ("Which is the largest continent?", "Asia",
    ["Asia"; "Africa"; "Europe"; "America"]);
   ("What is the longest river in the world?", "Nile",
    ["Nile"; "Amazon"; "Ganges"; "Mississippi"])]%string.

Definition generate_geography_question (difficulty : Z) : M Question :=
  question_from geography_questions difficulty "geography".

Definition history_questions : list Entry :=
  [("Who was the first President of the United States?", "George Washington",
    ["George Washington"; "Thomas Jefferson"; "Abraham Lincoln"; "John Adams"]);
   ("In which year did World War II end?", "1945",
    ["1945"; "1944"; "1946"; "1943"]);
   ("Which ancient wonder was located in Egypt?", "Great Pyramid",
    ["Great Pyramid"; "Hanging Gardens"; "Colossus"; "Lighthouse"])]%string.

Definition generate_history_question (difficulty : Z) : M Question :=
  question_from history_questions difficulty "history".

Definition language_questions : list Entry :=
  [("What is the opposite of 'hot'?", "Cold", ["Cold"; "Warm"; "Cool"; "Mild"]);
   ("Which word is a noun?", "Book", ["Book"; "Run"; "Quick"; "Slowly"]);
   ("What is the plural of 'child'?", "Children",
    ["Children"; "Childs"; "Childes"; "Child"])]%string.

Definition generate_language_question (difficulty : Z) : M Question :=
  question_from language_questions difficulty "language".



Definition subjects : list string :=
  ["math"; "science"; "geography"; "history"; "language"]%string.

Definition generate_education_question (difficulty : Z) : M Question :=
  subject <- choice subjects ;;
  if String.eqb subject "math" then generate_math_question difficulty
  else if String.eqb subject "science" then generate_science_question difficulty
  else if String.eqb subject "geography" then
    generate_geography_question difficulty
  else if String.eqb subject "history" then generate_history_question difficulty
  else generate_language_question difficulty.

(** ** The Math Wizard sub-game: [generate_math_problem] *)



(** ** The Tic-Tac-Toe sub-game *)

(** The key codes of pygame that Tic-Tac-Toe compares: the codes of the
    digit keys and of R are their ASCII codes. *)
Module pygame.
Definition K_1 : Z := 49.
Definition K_9 : Z := 57.
Definition K_r : Z := 114.
End pygame.

(** The attributes [ttt_board], [ttt_current_player], [ttt_game_over] and
    [ttt_winner]. *)
Record TicTacToe := mkTicTacToe {
  ttt_board : list string;
  ttt_current_player : string;
  ttt_game_over : bool;
  ttt_winner : option string
}.

Definition set_ttt_board (v : list string) (s : TicTacToe) : TicTacToe :=
  mkTicTacToe v (ttt_current_player s) (ttt_game_over s) (ttt_winner s).
Definition set_ttt_current_player (v : string) (s : TicTacToe) : TicTacToe :=
  mkTicTacToe (ttt_board s) v (ttt_game_over s) (ttt_winner s).
Definition set_ttt_game_over (v : bool) (s : TicTacToe) : TicTacToe :=
  mkTicTacToe (ttt_board s) (ttt_current_player s) v (ttt_winner s).
Definition set_ttt_winner (v : option string) (s : TicTacToe) : TicTacToe :=
  mkTicTacToe (ttt_board s) (ttt_current_player s) (ttt_game_over s) v.

(** Sequencing of calls that can raise. *)
Definition and_then {A B} (r : Res A) (k : A -> Res B) : Res B :=
  match r with
  | Ok a => k a
  | Raise e => Raise e
  | Starved => Starved
  end.

Fixpoint set_nth {A} (n : nat) (a : A) (l : list A) : list A :=
  match l, n with
  | [], _ => []
  | _ :: rest, O => a :: rest
  | b :: rest, S n => b :: set_nth n a rest
  end.

(** [seq[i] = a] for a Python list: a negative index counts from the end, an
    index outside [-len .. len-1] raises. *)
Definition py_setitem {A} (seq : list A) (i : Z) (a : A) : Res (list A) :=
  let n := Z.of_nat (length seq) in
  let j := if i <? 0 then i + n else i in
  if (j <? 0) || (n <=? j) then Raise IndexError
  else Ok (set_nth (Z.to_nat j) a seq).

(** [x in seq] for a list of strings. *)
Definition str_in (x : string) (seq : list string) : bool :=
  existsb (String.eqb x) seq.

(** [init_tic_tac_toe]: what its four assignments leave. *)
Definition init_tic_tac_toe : TicTacToe :=
  {| ttt_board := repeat " "%string 9;
     ttt_current_player := "X";
     ttt_game_over := false;
     ttt_winner := None |}.

(** The rows, columns and diagonals of [check_ttt_winner]. *)
Definition lines : list (Z * Z * Z) :=
  [(0, 1, 2); (3, 4, 5); (6, 7, 8);
   (0, 3, 6); (1, 4, 7); (2, 5, 8);
   (0, 4, 8); (2, 4, 6)].

(** The loop of [check_ttt_winner]. The chained comparison
    [b[i] == b[j] == b[k] != ' '] reads [b[k]] only when the first two cells
    are equal. *)
Fixpoint check_lines (board : list string) (ls : list (Z * Z * Z))
  : Res bool :=
  match ls with
  | [] => Ok false
  | (i, j, k) :: rest =>
      and_then (py_index board i) (fun a =>
      and_then (py_index board j) (fun b =>
      if String.eqb a b then
        and_then (py_index board k) (fun c =>
        if String.eqb b c && negb (String.eqb c " ") then Ok true
        else check_lines board rest)
      else check_lines board rest))
  end.

Definition check_ttt_winner (s : TicTacToe) : Res bool :=
  check_lines (ttt_board s) lines.

(** [handle_ttt_input] on the key code of the event. *)
Definition handle_ttt_input (key : Z) (s : TicTacToe) : Res TicTacToe :=
  if (pygame.K_1 <=? key) && (key <=? pygame.K_9) then
    let pos := key - pygame.K_1 in
    and_then (py_index (ttt_board s) pos) (fun cell =>
    if String.eqb cell " " && negb (ttt_game_over s) then
      and_then (py_setitem (ttt_board s) pos (ttt_current_player s))
        (fun board =>
      let s := set_ttt_board board s in
      and_then (check_ttt_winner s) (fun won =>
      if won then
        Ok (set_ttt_winner (Some (ttt_current_player s))
              (set_ttt_game_over true s))
      else if negb (str_in " " (ttt_board s)) then
        Ok (set_ttt_winner (Some "Tie"%string) (set_ttt_game_over true s))
      else
        Ok (set_ttt_current_player
              (if String.eqb (ttt_current_player s) "X" then "O" else "X")%string
              s)))
    else Ok s)
  else if (key =? pygame.K_r) && ttt_game_over s then Ok init_tic_tac_toe
  else Ok s.

(** A run of key presses in the sub-game, oldest first. *)
Fixpoint ttt_play (keys : list Z) (s : TicTacToe) : Res TicTacToe :=
  match keys with
  | [] => Ok s
  | key :: rest => and_then (handle_ttt_input key s) (ttt_play rest)
  end.

(** ** Translations: [load_translations] and [get_text] *)

(** The two tables of [self.translations], in the order of the source. *)
Definition english : list (string * string) :=
  [("title", "🐍 Snake Evolution");
   ("subtitle", "Learn while you play!");
   ("start", "Press SPACE to Start");
   ("score", "Score");
   ("level", "Level");
   ("streak", "Streak");
   ("question", "Question");
   ("correct", "Correct! +10 points");
   ("wrong", "Wrong! Try again");
   ("game_over", "Game Over!");
   ("final_score", "Final Score");
   ("accuracy", "Accuracy");
   ("play_again", "Press R to Play Again");
   ("quit", "Press Q to Quit");
   ("paused", "PAUSED - Press P to Resume");
   ("category_select", "Choose Game Category");
   ("education_games", "🎓 Educational Games");
   ("python_games", "🐍 Python Games");
   ("education_desc", "Math, Science, Geography, History, Language");
   ("python_desc", "Tic-Tac-Toe, Space Shooter, Car Game, 2D/3D Games");
   ("select_instruction", "Press 1 for Education or 2 for Python Games");
   ("education_game_select", "Choose Educational Game to Play");
   ("python_game_select", "Choose Python Game to Play");
   ("back", "Press B to go back");
   ("math_wizard", "Math Wizard");
   ("science_lab", "Science Lab");
   ("geography_quest", "Geography Quest");
   ("history_hunter", "History Hunter");
   ("word_master", "Word Master");
   ("tic_tac_toe", "Tic-Tac-Toe");
   ("space_shooter", "Space Shooter");
   ("car_racing", "Car Racing");
   ("zombie_dash", "Zombie Dash");
   ("ball_run", "Ball Run")]%string.

Definition tamil : list (string * string) :=
  [("title", "🐍 பாம்பு பரிணாமம்");
   ("subtitle", "விளையாடும்போது கற்றுக்கொள்ளுங்கள்!");
   ("start", "தொடங்க SPACE அழுத்தவும்");
   ("score", "மதிப்பெண்");
   ("level", "நிலை");
   ("streak", "தொடர்ச்சி");
   ("question", "கேள்வி");
   ("correct", "சரி! +10 புள்ளிகள்");
   ("wrong", "தவறு! மீண்டும் முயற்சிக்கவும்");
   ("game_over", "விளையாட்டு முடிந்தது!");
   ("final_score", "இறுதி மதிப்பெண்");
   ("accuracy", "துல்லியம்");
   ("play_again", "மீண்டும் விளையாட R அழுத்தவும்");
   ("quit", "வெளியேற Q அழுத்தவும்");
   ("paused", "இடைநிறுத்தம் - தொடர P அழுத்தவும்");
   ("category_select", "விளையாட்டு வகையை தேர்ந்தெடுக்கவும்");
   ("education_games", "🎓 கல்வி விளையாட்டுகள்");
   ("python_games", "🐍 பைதான் விளையாட்டுகள்");
   ("education_desc", "கணிதம், அறிவியல், புவியியல், வரலாறு, மொழி");
   ("python_desc", "டிக்-டாக்-டோ, ஸ்பேஸ் ஷூட்டர், கார் கேம், 2D/3D கேம்ஸ்");
   ("select_instruction", "கல்விக்கு 1 அல்லது பைதான் கேம்ஸுக்கு 2 அழுத்தவும்");
   ("education_game_select", "விளையாட கல்வி கேமை தேர்ந்தெடுக்கவும்");
   ("python_game_select", "விளையாட பைதான் கேமை தேர்ந்தெடுக்கவும்");
   ("back", "திரும்ப செல்ல B அழுத்தவும்");
   ("math_wizard", "கணித மந்திரவாதி");
   ("science_lab", "அறிவியல் ஆய்வகம்");
   ("geography_quest", "புவியியல் தேடல்");
   ("history_hunter", "வரலாறு வேட்டைக்காரன்");
   ("word_master", "சொல் மாஸ்டர்");
   ("tic_tac_toe", "டிக்-டாக்-டோ");
   ("space_shooter", "ஸ்பேஸ் ஷூட்டர்");
   ("car_racing", "கார் ரேசிங்");
   ("zombie_dash", "ஜாம்பி டாஷ்");
   ("ball_run", "பால் ரன்")]%string.

Definition translations : list (string * list (string * string)) :=
  [("english", english); ("tamil", tamil)]%string.

(** [d.get(key)] for a dictionary with string keys, given as the list of its
    items. *)
Fixpoint dict_get {A} (d : list (string * A)) (key : string) : option A :=
  match d with
  | [] => None
  | (k, v) :: rest => if String.eqb k key then Some v else dict_get rest key
  end.

(** [get_text]: [self.translations[self.language].get(key, key)]. [None]
    stands for the KeyError of a language that has no table. *)
Definition get_text (key : string) (g : Game) : option string :=
  match dict_get translations (language g) with
  | Some table =>
      Some (match dict_get table key with
            | Some text => text
            | None => key
            end)
  | None => None
  end.

(** ** Vocabulary of the properties *)

(** A cell of the grid: [0 <= column < GRID_WIDTH], [0 <= row < GRID_HEIGHT]. *)
Definition in_bounds (c : Cell) : Prop :=
  0 <= fst c < GRID_WIDTH /\ 0 <= snd c < GRID_HEIGHT.

(** The head plus the delta of a heading. *)
Definition step (c : Cell) (d : Direction) : Cell :=
  (fst c + fst (value d), snd c + snd (value d)).

(** The key that carries a movement intent. *)
Definition arrow (d : Direction) : Key :=
  match d with
  | UP => K_UP
  | DOWN => K_DOWN
  | LEFT => K_LEFT
  | RIGHT => K_RIGHT
  end.

(** The screens that show a menu rather than a running game. *)
Definition menu_state (s : GameState) : bool :=
  match s with
  | MENU | CATEGORY_SELECT | EDUCATION_GAME_SELECT | PYTHON_GAME_SELECT
  | PAUSED | GAME_OVER => true
  | _ => false
  end.

(** The modes a session is in between a food hit and the end of the process:
    the category screen, the two selection screens and the sub-games. *)
Definition away_from_board (s : GameState) : bool :=
  match s with
  | CATEGORY_SELECT | EDUCATION_GAME_SELECT | EDUCATION_GAME_PLAYING
  | PYTHON_GAME_SELECT | PYTHON_GAME_PLAYING => true
  | _ => false
  end.

(** A frame whose events leave a paused game paused: no [P] key. *)
Definition no_resume (f : Frame) : bool :=
  forallb (fun e => match e with KEYDOWN K_p _ => false | _ => true end)
          (events f).

(** The center of the grid, where a new snake is put. *)
Definition center : Cell := (GRID_WIDTH / 2, GRID_HEIGHT / 2).

(** The session with [q] as its current question. *)
Definition asked (q : Question) (g : Game) : Game :=
  set_current_question (Some q) g.

(** What the board and the scoring own of a session: everything but the
    mode, the language and the three selections. *)
Definition same_board (g g' : Game) : Prop :=
  snake g' = snake g /\ food_pos g' = food_pos g /\
  direction g' = direction g /\ next_direction g' = next_direction g /\
  current_question g' = current_question g /\
  question_answered g' = question_answered g /\
  score g' = score g /\ level g' = level g /\
  questions_correct g' = questions_correct g /\
  questions_total g' = questions_total g /\
  streak g' = streak g /\ best_streak g' = best_streak g /\
  last_move_time g' = last_move_time g /\ move_delay g' = move_delay g.

(** A computation that reads the tape and can be relied on: it raises
    nothing; a value it returns satisfies [P]; what it returns on a tape it
    returns on every longer tape, leaving the extra draws; and whatever the
    draws so far, some further draws let it return. The last clause is what
    is left of termination for a loop that repeats until a draw suits it. *)
Record Returns {A} (P : A -> Prop) (m : M A) : Prop := mkReturns {
  never_raises : forall t e, m t <> Raise e;
  result_ok : forall t a r, m t = Ok (a, r) -> P a;
  longer_tape : forall t a r ext,
    m t = Ok (a, r) -> m (t ++ ext) = Ok (a, r ++ ext);
  can_return : forall t, exists ext a r, m (t ++ ext) = Ok (a, r)
}.

(** The question a math tier is expected to give: an integer answer that is
    not negative, and four pairwise distinct integer options, none negative,
    one of them the answer. *)
Definition math_question_ok (q : Question) : Prop :=
  exists (a : Z) (opts : list Z),
    answer q = VInt a /\ options q = map VInt opts /\
    0 <= a /\ length opts = 4%nat /\ NoDup opts /\
    Forall (fun o => 0 <= o) opts /\ In a opts.

(** [option_index] selects the right answer of [q]. *)
Definition picks_answer (q : Question) (option_index : Z) : bool :=
  (option_index <? Z.of_nat (length (options q))) &&
  match py_index (options q) option_index with
  | Ok selected => Value_eqb selected (answer q)
  | _ => false
  end.

(** [option_index] selects an option of [q] that is not its answer. *)
Definition picks_wrong (q : Question) (option_index : Z) : bool :=
  (option_index <? Z.of_nat (length (options q))) &&
  match py_index (options q) option_index with
  | Ok selected => negb (Value_eqb selected (answer q))
  | _ => false
  end.

(** A run of answers: each question is made current, then answered. *)
Fixpoint answer_all (asks : list (Question * Z)) (g : Game) : M Game :=
  match asks with
  | [] => ret g
  | (q, option_index) :: rest =>
      g <- answer_question option_index (asked q g) ;;
      answer_all rest g
  end.

(** What a correct answer does to a session. *)
Definition rewarded (g g' : Game) : Prop :=
  score g' = score g + 10 + Z.min ((streak g + 1) * 2) 20 /\
  streak g' = streak g + 1 /\
  best_streak g' = Z.max (best_streak g) (streak g + 1) /\
  questions_correct g' = questions_correct g + 1 /\
  questions_total g' = questions_total g + 1 /\
  level g' =
    (if (questions_correct g + 1) mod 5 =? 0 then level g + 1 else level g) /\
  move_delay g' =
    (if (questions_correct g + 1) mod 5 =? 0
     then Z.max 100 (move_delay g - 10) else move_delay g) /\
  state g' = PLAYING /\ current_question g' = None /\
  question_answered g' = true /\
  (exists tail, In tail (snake g) /\ snake g' = snake g ++ [tail]) /\
  (exists c, food_pos g' = Some c /\ in_bounds c /\ ~ In c (snake g')).

(** The fields [start_game] assigns, with the values it gives them. *)
Definition freshly_started (g' : Game) : Prop :=
  state g' = PLAYING /\ snake g' = [center] /\
  direction g' = RIGHT /\ next_direction g' = RIGHT /\
  score g' = 0 /\ level g' = 1 /\
  questions_correct g' = 0 /\ questions_total g' = 0 /\ streak g' = 0 /\
  selected_category g' = None /\ current_education_game g' = None /\
  current_python_game g' = None /\
  exists c, food_pos g' = Some c /\ in_bounds c /\ c <> center.

(** A sample question, and the session [__init__] builds when the first
    two draws are 3 and 4. *)
Definition sample_question : Question :=
  mkQuestion "7 + 5 = ?" (VInt 12) [VInt 12; VInt 15; VInt 10; VInt 7] 2 "math".

Definition sample_game : Game := set_food_pos (Some (3, 4)) defaults.

(** The sample session on a streak of three, with the sample question
    current. *)
Definition sample_asked : Game :=
  asked sample_question (set_streak 3 (set_score 42 sample_game)).

(** Five times the sample question with its first option, the right one. *)
Definition five_asks : list (Question * Z) := repeat (sample_question, 0) 5.

(** A session in play with the given snake, heading and food. *)
Definition playing (cells : list Cell) (d : Direction) (food : Cell) : Game :=
  set_state PLAYING
    (set_snake cells
       (set_direction d (set_next_direction d (set_food_pos (Some food) defaults)))).

(** Scenario A: a snake of one cell at (10,10) heading RIGHT, food away. *)
Definition scenario_A : Game := playing [(10, 10)] RIGHT (3, 4).

(** Scenario A with the food right in front of the head. *)
Definition scenario_A_food : Game := playing [(10, 10)] RIGHT (11, 10).

(** Scenario B: the snake at the left wall, heading LEFT. *)
Definition scenario_B : Game := playing [(0, 10); (1, 10)] LEFT (3, 4).

(** The session right after SPACE in MENU, with the food drawn on (7, 8). *)
Definition started : Game := playing [(20, 15)] RIGHT (7, 8).

(** [started] one cell further, moved by the tick at 250 ms. *)
Definition started_moved : Game :=
  set_last_move_time 250 (playing [(21, 15)] RIGHT (7, 8)).

(** No key is held down. *)
Definition no_key : Key -> bool := fun _ => false.

(** The sessions a process can be in: the one [__init__] builds, and what
    a pass of the loop of [run] or an answer to a question makes of one.
    Nothing in the class assigns a question to [current_question]; the
    caller of [answer_question] has to, and [asked] stands for that. *)
Inductive reachable : Game -> Prop :=
  | reach_init (t : Tape) (g : Game) (r : Tape) :
      init t = Ok (g, r) -> reachable g
  | reach_frame (Mini : Type) (games : SubGames Mini) (f : Frame)
      (g : Game) (m : Mini) (t : Tape)
      (running : bool) (g' : Game) (m' : Mini) (r : Tape) :
      reachable g ->
      run_frame f (g, m) t = Ok ((running, (g', m')), r) ->
      reachable g'
  | reach_answer (q : Question) (option_index : Z) (g : Game) (t : Tape)
      (g' : Game) (r : Tape) :
      reachable g ->
      answer_question option_index (asked q g) t = Ok (g', r) ->
      reachable g'.

(** What one key can do to a session, whatever the mode: leave the board
    and the scoring alone (a mode or selection change on the same side of
    the food hit), toggle the language in MENU, queue a turn in PLAYING that
    does not reverse the heading, or start a game from MENU or GAME_OVER. *)
Inductive key_effect : Game -> Game -> Prop :=
  | ke_shell (g g' : Game) :
      same_board g g' -> language g' = language g ->
      away_from_board (state g') = away_from_board (state g) ->
      (state g' = state g \/ state g <> MENU /\ state g <> GAME_OVER /\
                            state g' <> MENU /\ state g' <> GAME_OVER) ->
      key_effect g g'
  | ke_language (g : Game) :
      state g = MENU ->
      key_effect g
        (set_language
           (if String.eqb (language g) "english" then "tamil" else "english") g)
  | ke_turn (g : Game) (d : Direction) :
      state g = PLAYING -> direction g <> opposite d ->
      key_effect g (set_next_direction d g)
  | ke_start (g : Game) (t : Tape) (g' : Game) (r : Tape) :
      state g = MENU \/ state g = GAME_OVER ->
      start_game g t = Ok (g', r) ->
      key_effect g g'.

(** What a tick in PLAYING can do to a session with a head. *)
Inductive tick_effect (now : Z) (g : Game) : Game -> Prop :=
  | te_throttled :
      now - last_move_time g < move_delay g -> tick_effect now g g
  | te_collision (head : Cell) (body : list Cell) :
      move_delay g <= now - last_move_time g ->
      snake g = head :: body ->
      ~ in_bounds (step head (next_direction g)) \/
        In (step head (next_direction g)) (snake g) ->
      tick_effect now g
        (game_over (set_direction (next_direction g) (set_last_move_time now g)))
  | te_eat (head : Cell) (body : list Cell) :
      move_delay g <= now - last_move_time g ->
      snake g = head :: body ->
      in_bounds (step head (next_direction g)) ->
      ~ In (step head (next_direction g)) (snake g) ->
      food_pos g = Some (step head (next_direction g)) ->
      tick_effect now g
        (set_state CATEGORY_SELECT
           (set_snake (step head (next_direction g) :: snake g)
              (set_direction (next_direction g) (set_last_move_time now g))))
  | te_move (head : Cell) (body : list Cell) :
      move_delay g <= now - last_move_time g ->
      snake g = head :: body ->
      in_bounds (step head (next_direction g)) ->
      ~ In (step head (next_direction g)) (snake g) ->
      food_pos g <> Some (step head (next_direction g)) ->
      tick_effect now g
        (set_snake (step head (next_direction g) :: removelast (snake g))
           (set_direction (next_direction g) (set_last_move_time now g))).

(** The session a right answer leaves, given the copy of the tail that is
    appended and the cell the new food lands on. *)
Definition answered_right (g : Game) (tail c : Cell) : Game :=
  let g := set_questions_total (questions_total g + 1) g in
  let g := set_questions_correct (questions_correct g + 1) g in
  let g := set_streak (streak g + 1) g in
  let g := set_best_streak (Z.max (best_streak g) (streak g)) g in
  let g := set_score (score g + (10 + Z.min (streak g * 2) 20)) g in
  let g := set_snake (snake g ++ [tail]) g in
  let g := set_food_pos (Some c) g in
  let g := set_question_answered true g in
  let g := set_state PLAYING g in
  let g := if questions_correct g mod 5 =? 0
           then set_move_delay (Z.max 100 (move_delay g - 10))
                  (set_level (level g + 1) g)
           else g in
  set_current_question None g.

(** The session a wrong answer leaves. *)
Definition answered_wrong (g : Game) : Game :=
  set_current_question None
    (set_streak 0 (set_questions_total (questions_total g + 1) g)).


(** Grid neighbours, or the same cell twice (a tail that growth repeated). *)
Definition near (a b : Cell) : Prop :=
  Z.abs (fst a - fst b) + Z.abs (snd a - snd b) <= 1.

(** Every cell of the list is [near] the next one. *)
Fixpoint linked (cells : list Cell) : Prop :=
  match cells with
  | a :: (b :: _) as rest => near a b /\ linked rest
  | _ => True
  end.

(** The bookkeeping of the scoring, as its fields relate in a session. *)
Definition scoring_ok (g : Game) : Prop :=
  100 <= move_delay g <= 200 /\
  level g = 1 + questions_correct g / 5 /\
  0 <= questions_correct g <= questions_total g /\
  0 <= streak g <= best_streak g /\
  streak g <= questions_correct g /\
  12 * questions_correct g <= score g <= 30 * questions_correct g.



(** The food is on the grid: off the snake while the snake is on the board,
    under its head once it has been eaten. *)
Definition food_ok (g : Game) : Prop :=
  exists c, food_pos g = Some c /\ in_bounds c /\
            if away_from_board (state g)
            then exists rest, snake g = c :: rest
            else ~ In c (snake g).

(** A question as every generator of the bank makes it: tagged with the
    tier it was asked for, four options, pairwise distinct, one of them the
    answer. *)
Definition question_ok (tier : Z) (q : Question) : Prop :=
  difficulty q = tier /\ In (subject q) subjects /\
  length (options q) = 4%nat /\ NoDup (options q) /\
  In (answer q) (options q).

(** The first option is the answer and the other three are not. *)
Definition first_option_right (q : Question) : Prop :=
  length (options q) = 4%nat /\ NoDup (options q) /\
  picks_answer q 0 = true /\ picks_wrong q 1 = true /\
  picks_wrong q 2 = true /\ picks_wrong q 3 = true.

(** A cell of the board holds a blank, an X or an O. *)
Definition mark (c : string) : Prop :=
  c = " "%string \/ c = "X"%string \/ c = "O"%string.

(** How many cells of the board hold [c]. *)
Definition marks (c : string) (board : list string) : Z :=
  Z.of_nat (count_occ string_dec board c).

(** The three cells of [line] hold [c]. *)
Definition holds (board : list string) (c : string) (line : Z * Z * Z)
  : Prop :=
  let '(i, j, k) := line in
  py_index board i = Ok c /\ py_index board j = Ok c /\
  py_index board k = Ok c.

(** A row, column or diagonal whose three cells hold [c]. *)
Definition full_line (board : list string) (c : string) : Prop :=
  Exists (holds board c) lines.

(** Nobody has three in a line. *)
Definition no_winner (board : list string) : Prop :=
  forall c, full_line board c -> c = " "%string.

(** The board of a game of Tic-Tac-Toe: nine cells, and X, who starts, has
    as many marks as O or one more. *)
Definition board_ok (s : TicTacToe) : Prop :=
  length (ttt_board s) = 9%nat /\ Forall mark (ttt_board s) /\
  (ttt_current_player s = "X"%string \/ ttt_current_player s = "O"%string) /\
  marks "X" (ttt_board s) =
    marks "O" (ttt_board s) +
    (if Bool.eqb (String.eqb (ttt_current_player s) "X") (ttt_game_over s)
     then 1 else 0).

(** What [ttt_winner] and [ttt_game_over] say about the board. *)
Definition outcome_ok (s : TicTacToe) : Prop :=
  match ttt_winner s with
  | None =>
      ttt_game_over s = false /\ In " "%string (ttt_board s) /\
      no_winner (ttt_board s)
  | Some w =>
      ttt_game_over s = true /\
      ((w = ttt_current_player s /\ full_line (ttt_board s) w /\
        forall c, full_line (ttt_board s) c -> c = w \/ c = " "%string) \/
       (w = "Tie"%string /\ ~ In " "%string (ttt_board s) /\
        no_winner (ttt_board s) /\
        marks "X" (ttt_board s) = 5 /\ marks "O" (ttt_board s) = 4))
  end.

(** * Properties *)

(** Reading a field of a session after assignments. *)
Ltac fields :=
  cbn [state language selected_category current_education_game
       current_python_game snake direction next_direction food_pos
       current_question question_answered score level questions_correct
       questions_total streak best_streak last_move_time move_delay
       set_state set_language set_selected_category
       set_current_education_game set_current_python_game set_snake
       set_direction set_next_direction set_food_pos set_current_question
       set_question_answered set_score set_level set_questions_correct
       set_questions_total set_streak set_best_streak set_last_move_time
       set_move_delay game_over asked].

Ltac fields_in H :=
  cbn [state language selected_category current_education_game
       current_python_game snake direction next_direction food_pos
       current_question question_answered score level questions_correct
       questions_total streak best_streak last_move_time move_delay
       set_state set_language set_selected_category
       set_current_education_game set_current_python_game set_snake
       set_direction set_next_direction set_food_pos set_current_question
       set_question_answered set_score set_level set_questions_correct
       set_questions_total set_streak set_best_streak set_last_move_time
       set_move_delay game_over asked] in H.

(** ** Cells and lists *)

Lemma Cell_eqb_eq (a b : Cell) : Cell_eqb a b = true <-> a = b.
Proof.
  destruct a as [ax ay], b as [bx by']. unfold Cell_eqb. simpl.
  rewrite andb_true_iff, !Z.eqb_eq. split.
  - intros [-> ->]. reflexivity.
  - intros E. inversion E. auto.
Qed.

Lemma cell_in_In (c : Cell) (cells : list Cell) :
  cell_in c cells = true <-> In c cells.
Proof.
  induction cells as [|c' rest IH]; simpl.
  - split; [discriminate | tauto].
  - rewrite orb_true_iff, Cell_eqb_eq, IH. split; intros [E | E]; auto.
Qed.

Lemma cell_in_not_In (c : Cell) (cells : list Cell) :
  cell_in c cells = false <-> ~ In c cells.
Proof.
  rewrite <- cell_in_In. destruct (cell_in c cells); split; congruence.
Qed.

Lemma out_of_bounds_false (c : Cell) : out_of_bounds c = false <-> in_bounds c.
Proof.
  unfold out_of_bounds, in_bounds.
  rewrite !orb_false_iff, !Z.ltb_ge, !Z.leb_gt. tauto.
Qed.

Lemma out_of_bounds_true (c : Cell) : out_of_bounds c = true <-> ~ in_bounds c.
Proof.
  rewrite <- out_of_bounds_false. destruct (out_of_bounds c); split; congruence.
Qed.

Lemma In_removelast {A} (a : A) (l : list A) : In a (removelast l) -> In a l.
Proof.
  induction l as [|b l IH]; simpl; [tauto|].
  destruct l as [|c l]; [simpl; tauto|].
  intros [E | E]; [left; exact E | right; apply IH; exact E].
Qed.

Lemma NoDup_removelast {A} (l : list A) : NoDup l -> NoDup (removelast l).
Proof.
  induction 1 as [|a l Hin Hnd IH]; simpl; [constructor|].
  destruct l as [|c l]; [constructor|].
  constructor; [|exact IH].
  intros E. apply Hin. apply In_removelast. exact E.
Qed.

Lemma length_removelast_cons {A} (a : A) (l : list A) :
  length (removelast (a :: l)) = length l.
Proof.
  revert a. induction l as [|b l IH]; intros a; [reflexivity|].
  change (removelast (a :: b :: l)) with (a :: removelast (b :: l)).
  cbn [length]. rewrite IH. reflexivity.
Qed.

(** ** The tick, case by case *)

Lemma py_index_head {A} (a : A) (l : list A) : py_index (a :: l) 0 = Ok a.
Proof.
  unfold py_index. simpl Z.ltb. cbv iota.
  replace (Z.of_nat (length (a :: l)) <=? 0) with false; [reflexivity|].
  symmetry. apply Z.leb_gt. simpl length. lia.
Qed.

Lemma update_snake_throttled (now : Z) (g : Game) :
  now - last_move_time g < move_delay g -> update_snake now g = Ok g.
Proof.
  intros Hlt. unfold update_snake.
  apply Z.ltb_lt in Hlt. rewrite Hlt. reflexivity.
Qed.

(** What a moving tick computes from a snake with a head. *)
Lemma update_snake_moving (now : Z) (g : Game) (head : Cell) (body : list Cell) :
  move_delay g <= now - last_move_time g ->
  snake g = head :: body ->
  update_snake now g =
    let g1 := set_direction (next_direction g) (set_last_move_time now g) in
    let new_head := step head (next_direction g) in
    if out_of_bounds new_head || cell_in new_head (snake g)
    then Ok (game_over g1)
    else if match food_pos g with
            | Some f => Cell_eqb new_head f
            | None => false
            end
         then Ok (set_state CATEGORY_SELECT (set_snake (new_head :: snake g) g1))
         else Ok (set_snake (new_head :: removelast (snake g)) g1).
Proof.
  intros Hge Hs. unfold update_snake.
  apply Z.ltb_ge in Hge. rewrite Hge.
  cbn [snake set_direction set_last_move_time direction next_direction food_pos].
  rewrite Hs, py_index_head. destruct head as [hx hy].
  unfold step. cbn [fst snd].
  destruct (value (next_direction g)) as [dx dy] eqn:Ev. cbn [fst snd].
  match goal with |- context [out_of_bounds ?c] => destruct (out_of_bounds c) end;
    [reflexivity|].
  cbn [orb].
  match goal with |- context [cell_in ?c ?l] => destruct (cell_in c l) end;
    [reflexivity|].
  cbn [set_snake set_direction set_last_move_time snake food_pos].
  destruct (food_pos g) as [f|]; [|reflexivity].
  match goal with |- context [Cell_eqb ?a ?b] => destruct (Cell_eqb a b) end;
    reflexivity.
Qed.

(** ** The tape monad *)

Lemma bind_Ok {A B} (m : M A) (k : A -> M B) (t : Tape) (r : B * Tape) :
  bind m k t = Ok r -> exists a t', m t = Ok (a, t') /\ k a t' = Ok r.
Proof.
  unfold bind. destruct (m t) as [[a t']| |]; try discriminate.
  intros E. exists a, t'. split; [reflexivity | exact E].
Qed.

Lemma bind_Raise {A B} (m : M A) (k : A -> M B) (t : Tape) (e : Exn) :
  bind m k t = Raise e ->
  m t = Raise e \/ exists a t', m t = Ok (a, t') /\ k a t' = Raise e.
Proof.
  unfold bind. destruct (m t) as [[a t']| |]; try discriminate.
  - intros E. right. exists a, t'. split; [reflexivity | exact E].
  - intros E. left. injection E as ->. reflexivity.
Qed.

Lemma bind_eq {A B} (m : M A) (k : A -> M B) (t t' : Tape) (a : A) :
  m t = Ok (a, t') -> bind m k t = k a t'.
Proof. unfold bind. intros ->. reflexivity. Qed.

Ltac inv_run :=
  repeat match goal with
  | H : ret _ _ = Ok _ |- _ => unfold ret in H; inversion H; subst; clear H
  | H : bind _ _ _ = Ok _ |- _ =>
      apply bind_Ok in H; destruct H as (? & ? & ? & H)
  | H : Ok _ = Ok _ |- _ => inversion H; subst; clear H
  | H : (_, _) = (_, _) |- _ => inversion H; subst; clear H
  end.

(** ** The shell away from the board *)

Section ShellFacts.

Context {Mini : Type} `{SubGames Mini}.

Lemma same_board_refl (g : Game) : same_board g g.
Proof. unfold same_board. repeat split. Qed.

Lemma same_board_trans (g1 g2 g3 : Game) :
  same_board g1 g2 -> same_board g2 g3 -> same_board g1 g3.
Proof.
  unfold same_board. intros H12 H23.
  repeat match goal with H : _ /\ _ |- _ => destruct H end.
  repeat split; congruence.
Qed.

Lemma start_education_game_session (g : Game) (m : Mini) (t : Tape)
    (s' : Self) (t' : Tape) :
  start_education_game (g, m) t = Ok (s', t') ->
  fst s' = set_state EDUCATION_GAME_PLAYING g.
Proof.
  unfold start_education_game. intros Hrun.
  destruct (name_in _ education_games); inv_run; reflexivity.
Qed.

Lemma start_python_game_session (g : Game) (m : Mini) (t : Tape)
    (s' : Self) (t' : Tape) :
  start_python_game (g, m) t = Ok (s', t') ->
  fst s' = set_state PYTHON_GAME_PLAYING g.
Proof.
  unfold start_python_game. intros Hrun.
  destruct (name_in _ python_games); inv_run; reflexivity.
Qed.

Ltac inv_start :=
  match goal with
  | H : start_education_game _ _ = Ok _ |- _ =>
      apply start_education_game_session in H; cbn [fst] in H; subst
  | H : start_python_game _ _ = Ok _ |- _ =>
      apply start_python_game_session in H; cbn [fst] in H; subst
  end.

(** A key pressed on the category screen, on a selection screen or inside a
    sub-game leaves the session there and does not touch the board. *)
Lemma handle_keydown_away (key : Key) (unicode : string) (g : Game) (m : Mini)
    (t : Tape) (go_on : bool) (g' : Game) (m' : Mini) (t' : Tape) :
  away_from_board (state g) = true ->
  handle_keydown key unicode (g, m) t = Ok ((go_on, (g', m')), t') ->
  away_from_board (state g') = true /\ same_board g g' /\ go_on = true.
Proof.
  intros Haway Hrun. unfold handle_keydown in Hrun.
  destruct (state g) eqn:Es; try discriminate Haway; clear Haway.
  - destruct key; inv_run; cbn; rewrite ?Es; repeat split.
  - destruct key; inv_run; try inv_start; cbn; rewrite ?Es; repeat split.
  - unfold handle_education_game_input in Hrun. inv_run.
    destruct key; inv_run; cbn; rewrite ?Es; repeat split.
  - destruct key; inv_run; try inv_start; cbn; rewrite ?Es; repeat split.
  - unfold handle_python_game_input in Hrun. inv_run.
    destruct key; inv_run; cbn; rewrite ?Es; repeat split.
Qed.

Lemma handle_input_away (evs : list Event) (g : Game) (m : Mini) (t : Tape)
    (running : bool) (g' : Game) (m' : Mini) (t' : Tape) :
  away_from_board (state g) = true ->
  handle_input evs (g, m) t = Ok ((running, (g', m')), t') ->
  away_from_board (state g') = true /\ same_board g g'.
Proof.
  revert g m t. induction evs as [|ev rest IH]; intros g m t Haway Hrun.
  - cbn in Hrun. inv_run. split; [exact Haway | apply same_board_refl].
  - destruct ev as [|key unicode|]; cbn [handle_input] in Hrun.
    + inv_run. split; [exact Haway | apply same_board_refl].
    + apply bind_Ok in Hrun. destruct Hrun as ([go_on [g1 m1]] & t1 & Hkey & Hrest).
      apply handle_keydown_away in Hkey; [|exact Haway].
      destruct Hkey as (Haway1 & Hsame1 & ->).
      apply IH in Hrest; [|exact Haway1].
      destruct Hrest as (Haway2 & Hsame2).
      split; [exact Haway2 | eapply same_board_trans; eassumption].
    + eapply IH; eassumption.
Qed.

Lemma run_frame_away (f : Frame) (g : Game) (m : Mini) (t : Tape)
    (running : bool) (g' : Game) (m' : Mini) (t' : Tape) :
  away_from_board (state g) = true ->
  run_frame f (g, m) t = Ok ((running, (g', m')), t') ->
  away_from_board (state g') = true /\ same_board g g'.
Proof.
  intros Haway Hrun. unfold run_frame in Hrun.
  apply bind_Ok in Hrun. destruct Hrun as ([r [g1 m1]] & t1 & Hin & Hupd).
  apply handle_input_away in Hin; [|exact Haway].
  destruct Hin as (Haway1 & Hsame1).
  destruct (state g1) eqn:Es; try discriminate Haway1;
    try (inv_run; rewrite Es; split; [reflexivity | exact Hsame1]).
  destruct (name_in (current_python_game g1) updated_python_games);
    inv_run; rewrite Es; split; try reflexivity; exact Hsame1.
Qed.

(** Once the snake has eaten, no sequence of frames brings the session back
    to the board: snake, food and score stay as the food hit left them. *)
Lemma run_away (frames : list Frame) (g : Game) (m : Mini) (t : Tape)
    (g' : Game) (m' : Mini) (t' : Tape) :
  away_from_board (state g) = true ->
  run frames (g, m) t = Ok ((g', m'), t') ->
  away_from_board (state g') = true /\ same_board g g'.
Proof.
  revert g m t. induction frames as [|f rest IH]; intros g m t Haway Hrun.
  - cbn in Hrun. inv_run. split; [exact Haway | apply same_board_refl].
  - cbn [run] in Hrun.
    apply bind_Ok in Hrun. destruct Hrun as ([running [g1 m1]] & t1 & Hf & Hrest).
    apply run_frame_away in Hf; [|exact Haway]. destruct Hf as (Haway1 & Hsame1).
    destruct running.
    + apply IH in Hrest; [|exact Haway1]. destruct Hrest as (Haway2 & Hsame2).
      split; [exact Haway2 | eapply same_board_trans; eassumption].
    + inv_run. split; assumption.
Qed.

Lemma run_frame_tick (now : Z) (pr : Key -> bool) (g g' : Game) (m : Mini)
    (t : Tape) :
  state g = PLAYING ->
  update_snake now g = Ok g' ->
  run_frame (mkFrame [] now pr) (g, m) t = Ok ((true, (g', m)), t).
Proof.
  intros Es Hupd. unfold run_frame. cbn [events ticks handle_input].
  unfold bind, ret, lift. rewrite Es, Hupd. reflexivity.
Qed.

End ShellFacts.

(** ** The board: collisions, moves and the snake invariant *)

Section Board.

Context {Mini : Type} `{SubGames Mini}.

(** C4. A moving tick in state PLAYING whose new head (the head plus the
    delta of the heading the tick takes up) is out of bounds on either axis,
    or is a cell of the snake, ends the round: the mode becomes GAME_OVER and
    nothing else is touched after the collision is seen, so the snake, the
    food, the score, the level and the streak are as they were. Only the
    mode, the heading and the time of the last move differ from the state
    before the tick. *)
Theorem collision_ends_round (now : Z) (g : Game) (head : Cell)
    (body : list Cell) (m : Mini) (pr : Key -> bool) (t : Tape) :
  state g = PLAYING ->
  move_delay g <= now - last_move_time g ->
  snake g = head :: body ->
  ~ in_bounds (step head (next_direction g)) \/
    In (step head (next_direction g)) (snake g) ->
  exists g',
    update_snake now g = Ok g' /\
    run_frame (mkFrame [] now pr) (g, m) t = Ok ((true, (g', m)), t) /\
    state g' = GAME_OVER /\
    snake g' = snake g /\ food_pos g' = food_pos g /\
    score g' = score g /\ level g' = level g /\ streak g' = streak g /\
    g' = set_state GAME_OVER
           (set_direction (next_direction g) (set_last_move_time now g)).
Proof.
  intros Es Hmove Hs Hhit.
  assert (Hupd : update_snake now g =
                 Ok (game_over (set_direction (next_direction g)
                                  (set_last_move_time now g)))).
  { rewrite (update_snake_moving now g head body Hmove Hs). cbv zeta.
    destruct Hhit as [Hout | Hself].
    - apply out_of_bounds_true in Hout. rewrite Hout. reflexivity.
    - apply cell_in_In in Hself. rewrite Hself, orb_true_r. reflexivity. }
  eexists. split; [exact Hupd|].
  split; [apply run_frame_tick; assumption|].
  repeat split.
Qed.

(** C5. A moving tick in state PLAYING without collision puts the new head
    in front. If the new head is the food cell the tail stays (the snake is
    one cell longer), the mode becomes CATEGORY_SELECT, the food is not
    replaced, and no later frame changes snake or food. Otherwise the tail
    is removed, the length is unchanged and the mode stays PLAYING. *)
Theorem move_without_collision (now : Z) (g : Game) (head : Cell)
    (body : list Cell) (m : Mini) (pr : Key -> bool) (t : Tape) :
  state g = PLAYING ->
  move_delay g <= now - last_move_time g ->
  snake g = head :: body ->
  in_bounds (step head (next_direction g)) ->
  ~ In (step head (next_direction g)) (snake g) ->
  exists g',
    update_snake now g = Ok g' /\
    run_frame (mkFrame [] now pr) (g, m) t = Ok ((true, (g', m)), t) /\
    food_pos g' = food_pos g /\
    (food_pos g = Some (step head (next_direction g)) ->
       snake g' = step head (next_direction g) :: snake g /\
       length (snake g') = S (length (snake g)) /\
       state g' = CATEGORY_SELECT /\
       forall frames t1 g2 m2 t2,
         run frames (g', m) t1 = Ok ((g2, m2), t2) ->
         snake g2 = snake g' /\ food_pos g2 = food_pos g') /\
    (food_pos g <> Some (step head (next_direction g)) ->
       snake g' = step head (next_direction g) :: removelast (snake g) /\
       length (snake g') = length (snake g) /\
       state g' = PLAYING).
Proof.
  intros Es Hmove Hs Hin Hfree.
  pose proof (update_snake_moving now g head body Hmove Hs) as Hupd.
  cbv zeta in Hupd.
  apply out_of_bounds_false in Hin. apply cell_in_not_In in Hfree.
  rewrite Hin, Hfree in Hupd. cbn [orb] in Hupd.
  destruct (match food_pos g with
            | Some f => Cell_eqb (step head (next_direction g)) f
            | None => false
            end) eqn:Efood.
  - eexists. split; [exact Hupd|].
    split; [apply run_frame_tick; assumption|].
    split; [reflexivity|].
    assert (Heat : food_pos g = Some (step head (next_direction g))).
    { destruct (food_pos g) as [f|]; [|discriminate].
      apply Cell_eqb_eq in Efood. congruence. }
    split; [|intros Hne; contradiction].
    intros _. split; [reflexivity|]. split; [reflexivity|].
    split; [reflexivity|].
    intros frames t1 g2 m2 t2 Hrun.
    apply run_away in Hrun; [|reflexivity].
    destruct Hrun as (_ & Hsnake & Hfood & _). split; assumption.
  - eexists. split; [exact Hupd|].
    split; [apply run_frame_tick; assumption|].
    split; [reflexivity|].
    split.
    + intros Heat. rewrite Heat in Efood.
      assert (E : Cell_eqb (step head (next_direction g))
                    (step head (next_direction g)) = true)
        by (apply Cell_eqb_eq; reflexivity).
      congruence.
    + intros _. cbn [snake set_snake state set_direction set_last_move_time].
      split; [reflexivity|]. split; [|exact Es].
      rewrite Hs. cbn [length]. rewrite length_removelast_cons. reflexivity.
Qed.

(** A tick returns for a snake with a head; it keeps the cells of the snake
    within the grid, and pairwise distinct when they were; growth keeps them
    within the grid. *)
Lemma update_snake_invariants (now : Z) (g : Game) :
  snake g <> [] ->
  exists g',
    update_snake now g = Ok g' /\
    snake g' <> [] /\
    (Forall in_bounds (snake g) -> Forall in_bounds (snake g')) /\
    (NoDup (snake g) -> NoDup (snake g')) /\
    (forall g2, grow_snake g' = Ok g2 ->
       Forall in_bounds (snake g') -> Forall in_bounds (snake g2)).
Proof.
  intros Hne.
  assert (Hgrow : forall g1 g2, grow_snake g1 = Ok g2 ->
            Forall in_bounds (snake g1) -> Forall in_bounds (snake g2)).
  { intros g1 g2 Hg Hb. unfold grow_snake in Hg.
    destruct (py_index (snake g1) (-1)) as [tail| |] eqn:Etail;
      try discriminate.
    inversion Hg; subst; clear Hg. cbn [snake set_snake].
    apply Forall_app. split; [exact Hb|].
    constructor; [|constructor].
    unfold py_index in Etail.
    destruct (_ || _); [discriminate|].
    destruct (nth_error (snake g1) _) as [c|] eqn:En; [|discriminate].
    inversion Etail; subst.
    rewrite Forall_forall in Hb. apply Hb. eapply nth_error_In; exact En. }
  destruct (Z.lt_ge_cases (now - last_move_time g) (move_delay g)) as [Hlt | Hge].
  - exists g. rewrite update_snake_throttled by exact Hlt.
    split; [reflexivity|]. split; [exact Hne|].
    split; [tauto|]. split; [tauto|]. intros g2. apply Hgrow.
  - destruct (snake g) as [|head body] eqn:Hs; [congruence|].
    pose proof (update_snake_moving now g head body Hge Hs) as Hupd.
    cbv zeta in Hupd. rewrite Hs in Hupd.
    destruct (out_of_bounds (step head (next_direction g))
              || cell_in (step head (next_direction g)) (head :: body))
      eqn:Ehit.
    { eexists. split; [exact Hupd|].
      split; [|split; [|split; [|intros g2; apply Hgrow]]];
        cbn [snake game_over set_state set_direction set_last_move_time];
        rewrite Hs; [discriminate | tauto | tauto]. }
    apply orb_false_iff in Ehit. destruct Ehit as [Eout Ein].
    apply out_of_bounds_false in Eout. apply cell_in_not_In in Ein.
    destruct (match food_pos g with
              | Some f => Cell_eqb (step head (next_direction g)) f
              | None => false
              end).
    + eexists. split; [exact Hupd|].
      split; [|split; [|split; [|intros g2; apply Hgrow]]];
        cbn [snake set_snake set_state set_direction set_last_move_time].
      * discriminate.
      * intros Hb. constructor; assumption.
      * intros Hnd. constructor; assumption.
    + eexists. split; [exact Hupd|].
      split; [|split; [|split; [|intros g2; apply Hgrow]]];
        cbn [snake set_snake set_state set_direction set_last_move_time].
      * discriminate.
      * intros Hb. constructor; [assumption|].
        rewrite Forall_forall in *. intros c Hc. apply Hb.
        apply In_removelast. exact Hc.
      * intros Hnd. constructor.
        -- intros Hc. apply Ein. apply In_removelast. exact Hc.
        -- apply NoDup_removelast. exact Hnd.
Qed.

End Board.

(** ** The shell: the reversal guard and the pause *)

Lemma update_snake_heading (now : Z) (g : Game) :
  snake g <> [] ->
  exists g',
    update_snake now g = Ok g' /\
    direction g' =
      (if now - last_move_time g <? move_delay g then direction g
       else next_direction g).
Proof.
  intros Hne.
  destruct (now - last_move_time g <? move_delay g) eqn:Et.
  - exists g. split; [|reflexivity].
    apply update_snake_throttled. apply Z.ltb_lt. exact Et.
  - destruct (snake g) as [|head body] eqn:Hs; [congruence|].
    apply Z.ltb_ge in Et.
    rewrite (update_snake_moving now g head body Et Hs). cbv zeta.
    destruct (_ || _); [eexists; split; reflexivity|].
    destruct (match food_pos g with Some _ => _ | None => _ end);
      eexists; split; reflexivity.
Qed.

Lemma set_state_back (s : GameState) (g : Game) :
  set_state (state g) (set_state s g) = g.
Proof. destruct g. reflexivity. Qed.

Section ShellProperties.

Context {Mini : Type} `{SubGames Mini}.

Lemma handle_input_key (key : Key) (unicode : string) (rest : list Event)
    (s s' : Self) (t t' : Tape) :
  handle_keydown key unicode s t = Ok ((true, s'), t') ->
  handle_input (KEYDOWN key unicode :: rest) s t = handle_input rest s' t'.
Proof.
  intros Hkey. cbn [handle_input]. rewrite (bind_eq _ _ _ _ _ Hkey).
  reflexivity.
Qed.

Lemma opposite_rejected (g : Game) (m : Mini) (unicode : string) (t : Tape) :
  state g = PLAYING ->
  handle_keydown (arrow (opposite (direction g))) unicode (g, m) t =
  Ok ((true, (g, m)), t).
Proof.
  intros Es. unfold handle_keydown. rewrite Es.
  destruct (direction g); reflexivity.
Qed.

(** C9. In state PLAYING a movement intent that is the exact opposite of the
    current heading is not taken up: the key leaves the whole session as it
    was, so the frame runs as if the key had not been pressed, and when no
    other turn is pending the heading after the next tick, throttled or not,
    is the previous heading. (At heading RIGHT the intent is LEFT.) *)
Theorem reversal_guard (g : Game) (m : Mini) (unicode : string)
    (evs : list Event) (now : Z) (pr : Key -> bool) (t : Tape) :
  state g = PLAYING ->
  handle_keydown (arrow (opposite (direction g))) unicode (g, m) t =
    Ok ((true, (g, m)), t) /\
  run_frame
    (mkFrame (KEYDOWN (arrow (opposite (direction g))) unicode :: evs) now pr)
    (g, m) t =
    run_frame (mkFrame evs now pr) (g, m) t /\
  (next_direction g = direction g ->
   snake g <> [] ->
   exists g',
     run_frame
       (mkFrame [KEYDOWN (arrow (opposite (direction g))) unicode] now pr)
       (g, m) t = Ok ((true, (g', m)), t) /\
     direction g' = direction g).
Proof.
  intros Es.
  pose proof (opposite_rejected g m unicode t Es) as Hkey.
  assert (Hframe : forall evs',
    run_frame
      (mkFrame (KEYDOWN (arrow (opposite (direction g))) unicode :: evs') now pr)
      (g, m) t = run_frame (mkFrame evs' now pr) (g, m) t).
  { intros evs'. unfold run_frame. cbn [events ticks pressed].
    unfold bind at 1 3. rewrite (handle_input_key _ _ _ _ _ _ _ Hkey).
    reflexivity. }
  split; [exact Hkey|]. split; [apply Hframe|].
  intros Hpending Hne.
  destruct (update_snake_heading now g Hne) as (g' & Hupd & Hdir).
  exists g'. split.
  - rewrite Hframe. apply run_frame_tick; assumption.
  - rewrite Hdir, Hpending. destruct (_ <? _); reflexivity.
Qed.

Lemma handle_input_paused (evs : list Event) (g : Game) (m : Mini) (t : Tape) :
  state g = PAUSED ->
  forallb (fun e => match e with KEYDOWN K_p _ => false | _ => true end) evs
    = true ->
  exists running, handle_input evs (g, m) t = Ok ((running, (g, m)), t).
Proof.
  intros Es. induction evs as [|ev rest IH]; intros Hno.
  - exists true. reflexivity.
  - cbn [forallb] in Hno. apply andb_true_iff in Hno. destruct Hno as [Hev Hrest].
    destruct ev as [|key unicode|].
    + exists false. reflexivity.
    + destruct (IH Hrest) as (running & Hrun). exists running.
      rewrite <- Hrun. apply handle_input_key.
      unfold handle_keydown. rewrite Es.
      destruct key; try reflexivity. discriminate Hev.
    + destruct (IH Hrest) as (running & Hrun). exists running. exact Hrun.
Qed.

Lemma run_paused (frames : list Frame) (g : Game) (m : Mini) (t : Tape) :
  state g = PAUSED ->
  forallb no_resume frames = true ->
  run frames (g, m) t = Ok ((g, m), t).
Proof.
  intros Es. induction frames as [|f rest IH]; intros Hno; [reflexivity|].
  cbn [forallb] in Hno. apply andb_true_iff in Hno. destruct Hno as [Hf Hrest].
  destruct (handle_input_paused (events f) g m t Es Hf) as (running & Hin).
  cbn [run]. unfold run_frame.
  unfold bind at 1 2. rewrite Hin, Es. unfold ret at 1.
  destruct running; [apply IH; exact Hrest | reflexivity].
Qed.

(** C10. The pause intent in PLAYING and the resume intent in PAUSED change
    the mode and nothing else; while the mode is PAUSED no frame updates the
    snake or any other field; so after pause and resume the session is the
    one before the pause, field by field, the time of the last move
    included. *)
Theorem pause_resume (g : Game) (m : Mini) (unicode : string)
    (frames : list Frame) (t : Tape) :
  state g = PLAYING ->
  forallb no_resume frames = true ->
  handle_keydown K_p unicode (g, m) t =
    Ok ((true, (set_state PAUSED g, m)), t) /\
  run frames (set_state PAUSED g, m) t = Ok ((set_state PAUSED g, m), t) /\
  handle_keydown K_p unicode (set_state PAUSED g, m) t = Ok ((true, (g, m)), t) /\
  same_board g (set_state PAUSED g) /\
  language (set_state PAUSED g) = language g /\
  selected_category (set_state PAUSED g) = selected_category g /\
  current_education_game (set_state PAUSED g) = current_education_game g /\
  current_python_game (set_state PAUSED g) = current_python_game g.
Proof.
  intros Es Hno. split; [|split; [|split]].
  - unfold handle_keydown. rewrite Es. reflexivity.
  - apply run_paused; [reflexivity | exact Hno].
  - unfold handle_keydown. cbn [state set_state].
    rewrite <- Es at 1. rewrite set_state_back. reflexivity.
  - repeat split.
Qed.

End ShellProperties.

(** ** Computations that return *)

Lemma Returns_ret {A} (P : A -> Prop) (a : A) : P a -> Returns P (ret a).
Proof.
  intros Ha. split; unfold ret.
  - discriminate.
  - intros t a' r E. inversion E; subst. exact Ha.
  - intros t a' r ext E. inversion E; subst. reflexivity.
  - intros t. exists [], a, (t ++ []). reflexivity.
Qed.

Lemma Returns_bind {A B} (P : A -> Prop) (Q : B -> Prop) (m : M A)
    (k : A -> M B) :
  Returns P m -> (forall a, P a -> Returns Q (k a)) -> Returns Q (bind m k).
Proof.
  intros Hm Hk. split.
  - intros t e E. apply bind_Raise in E. destruct E as [E | (a & t' & Ea & E)].
    + exact (never_raises _ _ Hm _ _ E).
    + exact (never_raises _ _ (Hk a (result_ok _ _ Hm _ _ _ Ea)) _ _ E).
  - intros t b r E. apply bind_Ok in E. destruct E as (a & t' & Ea & E).
    exact (result_ok _ _ (Hk a (result_ok _ _ Hm _ _ _ Ea)) _ _ _ E).
  - intros t b r ext E. apply bind_Ok in E. destruct E as (a & t' & Ea & E).
    rewrite (bind_eq _ _ _ _ _ (longer_tape _ _ Hm _ _ _ ext Ea)).
    exact (longer_tape _ _ (Hk a (result_ok _ _ Hm _ _ _ Ea)) _ _ _ ext E).
  - intros t. destruct (can_return _ _ Hm t) as (e1 & a & r1 & Ea).
    pose proof (result_ok _ _ Hm _ _ _ Ea) as Pa.
    destruct (can_return _ _ (Hk a Pa) r1) as (e2 & b & r2 & Eb).
    exists (e1 ++ e2), b, r2.
    rewrite app_assoc.
    rewrite (bind_eq _ _ _ _ _ (longer_tape _ _ Hm _ _ _ e2 Ea)).
    exact Eb.
Qed.

Lemma Returns_weaken {A} (P Q : A -> Prop) (m : M A) :
  (forall a, P a -> Q a) -> Returns P m -> Returns Q m.
Proof.
  intros HPQ Hm. split.
  - exact (never_raises _ _ Hm).
  - intros t a r E. apply HPQ. exact (result_ok _ _ Hm _ _ _ E).
  - exact (longer_tape _ _ Hm).
  - exact (can_return _ _ Hm).
Qed.

Lemma Returns_lift {A} (P : A -> Prop) (a : A) : P a -> Returns P (lift (Ok a)).
Proof. apply Returns_ret. Qed.

Lemma Returns_lift_eq {A} (a : A) : Returns (fun x => x = a) (lift (Ok a)).
Proof. apply Returns_lift. reflexivity. Qed.

Lemma into_range_bounds (a b raw : Z) :
  a <= b -> a <= into_range a b raw <= b.
Proof.
  intros Hab. unfold into_range.
  pose proof (Z.mod_pos_bound raw (b - a + 1)). lia.
Qed.

Lemma into_range_hits (a b v : Z) :
  a <= v <= b -> into_range a b (v - a) = v.
Proof.
  intros Hv. unfold into_range. rewrite Z.mod_small by lia. lia.
Qed.

Lemma Returns_randint (a b : Z) :
  a <= b -> Returns (fun v => a <= v <= b) (randint a b).
Proof.
  intros Hab. split; unfold randint.
  - intros [|raw t] e; discriminate.
  - intros [|raw t] v r E; [discriminate|]. inversion E; subst.
    apply into_range_bounds. exact Hab.
  - intros [|raw t] v r ext E; [discriminate|]. inversion E; subst. reflexivity.
  - intros [|raw t].
    + exists [0], (into_range a b 0), []. reflexivity.
    + exists [], (into_range a b raw), (t ++ []). reflexivity.
Qed.

Lemma py_index_in_range {A} (seq : list A) (i : Z) :
  0 <= i < Z.of_nat (length seq) ->
  exists a, py_index seq i = Ok a /\ nth_error seq (Z.to_nat i) = Some a.
Proof.
  intros Hi. unfold py_index.
  assert (E0 : (i <? 0) = false) by (apply Z.ltb_ge; lia).
  rewrite !E0.
  replace (Z.of_nat (length seq) <=? i) with false
    by (symmetry; apply Z.leb_gt; lia).
  cbn [orb].
  destruct (nth_error seq (Z.to_nat i)) as [a|] eqn:En.
  - exists a. split; reflexivity.
  - apply nth_error_None in En. lia.
Qed.

Lemma Returns_choice {A} (seq : list A) :
  seq <> [] -> Returns (fun a => In a seq) (choice seq).
Proof.
  intros Hne. unfold choice, randbelow.
  assert (Hlen : 0 < Z.of_nat (length seq)).
  { destruct seq; [congruence | simpl length; lia]. }
  eapply Returns_bind.
  - apply Returns_randint. lia.
  - intros i Hi. cbv beta in Hi.
    destruct (py_index_in_range seq i) as (a & Ea & En); [lia|].
    rewrite Ea. apply Returns_lift. eapply nth_error_In. exact En.
Qed.

(** ** Food *)

Lemma GRID_WIDTH_val : GRID_WIDTH = 40.
Proof. reflexivity. Qed.

Lemma GRID_HEIGHT_val : GRID_HEIGHT = 30.
Proof. reflexivity. Qed.

Lemma center_val : center = (20, 15).
Proof. reflexivity. Qed.

(** Induction on a tape read two draws at a time. *)
Lemma tape_pairs_ind (P : list Z -> Prop) :
  P [] -> (forall x, P [x]) -> (forall x y t, P t -> P (x :: y :: t)) ->
  forall t, P t.
Proof.
  intros H0 H1 H2.
  assert (Hboth : forall t, P t /\ forall x, P (x :: t)).
  { induction t as [|y t [IHt IHx]]; split; auto. }
  intros t. apply Hboth.
Qed.

Lemma drawn_cell_in_bounds (rx ry : Z) :
  in_bounds (into_range 0 (GRID_WIDTH - 1) rx, into_range 0 (GRID_HEIGHT - 1) ry).
Proof.
  unfold in_bounds. cbn [fst snd].
  pose proof (into_range_bounds 0 (GRID_WIDTH - 1) rx).
  pose proof (into_range_bounds 0 (GRID_HEIGHT - 1) ry).
  rewrite GRID_WIDTH_val, GRID_HEIGHT_val in *. lia.
Qed.

Lemma generate_food_loop_Returns (cells : list Cell) :
  (exists c, in_bounds c /\ ~ In c cells) ->
  Returns (fun c => in_bounds c /\ ~ In c cells) (generate_food_loop cells).
Proof.
  intros (free & Hfree_in & Hfree).
  assert (Hstep : forall rx ry t,
    generate_food_loop cells (rx :: ry :: t) =
    if negb (cell_in (into_range 0 (GRID_WIDTH - 1) rx,
                      into_range 0 (GRID_HEIGHT - 1) ry) cells)
    then Ok ((into_range 0 (GRID_WIDTH - 1) rx,
              into_range 0 (GRID_HEIGHT - 1) ry), t)
    else generate_food_loop cells t) by reflexivity.
  split.
  - intros t. induction t as [| x | x y t IH] using tape_pairs_ind; intros e;
      try discriminate.
    rewrite Hstep. destruct (negb _); [discriminate | apply IH].
  - intros t. induction t as [| x | x y t IH] using tape_pairs_ind;
      intros c r E; try discriminate.
    rewrite Hstep in E. destruct (negb _) eqn:En.
    + inversion E; subst. split; [apply drawn_cell_in_bounds|].
      apply negb_true_iff, cell_in_not_In in En. exact En.
    + eapply IH. exact E.
  - intros t. induction t as [| x | x y t IH] using tape_pairs_ind;
      intros c r ext E; try discriminate.
    rewrite Hstep in E. cbn [app]. rewrite Hstep. destruct (negb _).
    + inversion E; subst. reflexivity.
    + apply IH. exact E.
  - assert (Hhit : generate_food_loop cells [fst free; snd free] = Ok (free, [])).
    { rewrite Hstep.
      destruct Hfree_in as [Hx Hy]. rewrite GRID_WIDTH_val in Hx.
      rewrite GRID_HEIGHT_val in Hy.
      pose proof (into_range_hits 0 (GRID_WIDTH - 1) (fst free)) as Ex.
      pose proof (into_range_hits 0 (GRID_HEIGHT - 1) (snd free)) as Ey.
      rewrite GRID_WIDTH_val in Ex. rewrite GRID_HEIGHT_val in Ey.
      rewrite Z.sub_0_r in Ex, Ey.
      rewrite GRID_WIDTH_val, GRID_HEIGHT_val.
      rewrite Ex, Ey by lia.
      replace (fst free, snd free) with free by (destruct free; reflexivity).
      apply cell_in_not_In in Hfree. rewrite Hfree. reflexivity. }
    intros t. induction t as [| x | x y t IH] using tape_pairs_ind.
    + exists [fst free; snd free], free, []. exact Hhit.
    + cbn [app].
      destruct (negb (cell_in (into_range 0 (GRID_WIDTH - 1) x,
                               into_range 0 (GRID_HEIGHT - 1) 0) cells)) eqn:En.
      * eexists [0; fst free; snd free], _, _. rewrite Hstep, En. reflexivity.
      * exists [0; fst free; snd free], free, []. rewrite Hstep, En. exact Hhit.
    + cbn [app]. destruct IH as (ext & c & r & E).
      destruct (negb (cell_in (into_range 0 (GRID_WIDTH - 1) x,
                               into_range 0 (GRID_HEIGHT - 1) y) cells)) eqn:En.
      * eexists [], _, _. rewrite app_nil_r, Hstep, En. reflexivity.
      * exists ext, c, r. rewrite Hstep, En. exact E.
Qed.

Lemma generate_food_Returns (g : Game) :
  (exists c, in_bounds c /\ ~ In c (snake g)) ->
  Returns (fun g' => exists c, g' = set_food_pos (Some c) g /\
                               in_bounds c /\ ~ In c (snake g))
          (generate_food g).
Proof.
  intros Hfree. unfold generate_food.
  eapply Returns_bind; [apply generate_food_loop_Returns; exact Hfree|].
  intros c Hc. apply Returns_ret. exists c. split; [reflexivity | exact Hc].
Qed.

Lemma origin_free_at_start : in_bounds (0, 0) /\ ~ In (0, 0) [center].
Proof.
  split.
  - unfold in_bounds. rewrite GRID_WIDTH_val, GRID_HEIGHT_val. cbn. lia.
  - rewrite center_val. intros [E | []]. discriminate E.
Qed.

(** ** Scoring *)

Lemma init_sample : init [3; 4] = Ok (sample_game, []).
Proof. reflexivity. Defined.

Lemma py_index_last {A} (l : list A) :
  l <> [] -> exists a, py_index l (-1) = Ok a /\ In a l.
Proof.
  intros Hne. unfold py_index.
  assert (Hlen : 0 < Z.of_nat (length l)).
  { destruct l; [congruence | simpl length; lia]. }
  change (-1 <? 0) with true. cbv iota.
  replace (-1 + Z.of_nat (length l) <? 0) with false
    by (symmetry; apply Z.ltb_ge; lia).
  replace (Z.of_nat (length l) <=? -1 + Z.of_nat (length l)) with false
    by (symmetry; apply Z.leb_gt; lia).
  cbn [orb].
  destruct (nth_error l (Z.to_nat (-1 + Z.of_nat (length l)))) as [a|] eqn:En.
  - exists a. split; [reflexivity | eapply nth_error_In; exact En].
  - apply nth_error_None in En. lia.
Qed.

Lemma grow_snake_Ok (g : Game) :
  snake g <> [] ->
  exists tail, In tail (snake g) /\
               grow_snake g = Ok (set_snake (snake g ++ [tail]) g).
Proof.
  intros Hne. destruct (py_index_last (snake g) Hne) as (tail & Et & Hin).
  exists tail. split; [exact Hin|]. unfold grow_snake. rewrite Et. reflexivity.
Qed.

(** Without a current question, or with an index at or past the number of
    options, [answer_question] returns at once. *)
Lemma answer_question_ignored (option_index : Z) (g : Game) (t : Tape) :
  (current_question g = None \/
   exists q, current_question g = Some q /\
             Z.of_nat (length (options q)) <= option_index) ->
  answer_question option_index g t = Ok (g, t).
Proof.
  unfold answer_question. intros [-> | (q & -> & Hlen)]; [reflexivity|].
  apply Z.leb_le in Hlen. rewrite Hlen. reflexivity.
Qed.

(** An option that is not the answer: the attempt is counted, the streak is
    lost, and the question is dropped with the rest of the bookkeeping. *)
Lemma answer_question_wrong (option_index : Z) (g : Game) (q : Question)
    (t : Tape) :
  current_question g = Some q ->
  picks_wrong q option_index = true ->
  answer_question option_index g t =
  Ok (set_current_question None
        (set_streak 0 (set_questions_total (questions_total g + 1) g)), t).
Proof.
  intros Hq Hpick. unfold picks_wrong in Hpick.
  apply andb_true_iff in Hpick. destruct Hpick as [Hlt Hsel].
  destruct (py_index (options q) option_index) as [selected| |] eqn:Ei;
    try discriminate.
  apply negb_true_iff in Hsel.
  unfold answer_question. rewrite Hq.
  replace (Z.of_nat (length (options q)) <=? option_index) with false
    by (symmetry; apply Z.leb_gt; apply Z.ltb_lt; exact Hlt).
  rewrite Ei. unfold bind, lift, ret. rewrite Hsel. reflexivity.
Qed.

(** The option that is the answer, on a board with a head and a free cell. *)
Lemma answer_question_right (option_index : Z) (g : Game) (q : Question) :
  current_question g = Some q ->
  picks_answer q option_index = true ->
  snake g <> [] ->
  (exists c, in_bounds c /\ ~ In c (snake g)) ->
  Returns (rewarded g) (answer_question option_index g).
Proof.
  intros Hq Hpick Hne (free & Hfree_in & Hfree). unfold picks_answer in Hpick.
  apply andb_true_iff in Hpick. destruct Hpick as [Hlt Hsel].
  destruct (py_index (options q) option_index) as [selected| |] eqn:Ei;
    try discriminate.
  unfold answer_question. rewrite Hq.
  replace (Z.of_nat (length (options q)) <=? option_index) with false
    by (symmetry; apply Z.leb_gt; apply Z.ltb_lt; exact Hlt).
  rewrite Ei.
  eapply Returns_bind; [apply Returns_lift_eq|].
  intros v ->. rewrite Hsel.
  cbn [questions_correct questions_total streak best_streak score snake
       set_questions_total set_questions_correct set_streak set_best_streak
       set_score].
  match goal with |- context [grow_snake ?g1] =>
    destruct (grow_snake_Ok g1) as (tail & Htail & Egrow); [exact Hne|];
    rewrite Egrow
  end.
  cbn [snake set_score set_best_streak set_streak set_questions_correct
       set_questions_total] in Htail, Egrow |- *.
  eapply Returns_bind.
  - eapply Returns_bind; [apply Returns_lift_eq|].
    intros g1 ->.
    eapply Returns_bind.
    + apply generate_food_Returns. exists free. split; [exact Hfree_in|].
      cbn [snake set_snake]. rewrite in_app_iff. intros [Hin | [<- | []]];
        contradiction.
    + intros g2 (c & -> & Hc_in & Hc). fields. fields_in Hc.
      destruct ((questions_correct g + 1) mod 5 =? 0) eqn:Elevel;
        apply (Returns_ret (fun g3 => rewarded g (set_current_question None g3)));
        unfold rewarded; fields; rewrite Elevel;
        repeat (split; [first [reflexivity | lia]|]);
        (split; [exists tail; split; [exact Htail | reflexivity]
                | exists c; split; [reflexivity | split; assumption]]).
  - intros g3 Hg3. apply Returns_ret. exact Hg3.
Qed.

Lemma answer_asked_right (g : Game) (q : Question) (option_index : Z) :
  picks_answer q option_index = true ->
  snake g <> [] ->
  (exists c, in_bounds c /\ ~ In c (snake g)) ->
  Returns (rewarded g) (answer_question option_index (asked q g)).
Proof.
  intros Hpick Hne Hfree.
  apply (answer_question_right option_index (asked q g) q);
    [reflexivity | exact Hpick | exact Hne | exact Hfree].
Qed.

Lemma rewarded_board (g g' : Game) :
  rewarded g g' ->
  snake g' <> [] /\ exists c, in_bounds c /\ ~ In c (snake g').
Proof.
  intros (_ & _ & _ & _ & _ & _ & _ & _ & _ & _ & (tail & _ & Hs) & (c & _ & Hc)).
  split.
  - rewrite Hs. intros E. apply app_eq_nil in E. destruct E as [_ E].
    discriminate E.
  - exists c. exact Hc.
Qed.

(** Five right answers in a row from streak 0, score 0 and a move delay of
    200 ms. *)
Lemma five_right_answers (g : Game) (asks : list (Question * Z)) :
  snake g <> [] ->
  (exists c, in_bounds c /\ ~ In c (snake g)) ->
  length asks = 5%nat ->
  forallb (fun a => picks_answer (fst a) (snd a)) asks = true ->
  streak g = 0 -> score g = 0 -> move_delay g = 200 ->
  Returns (fun g' => score g' = 80 /\ move_delay g' = 190 /\
                     level g' = level g + 1 /\ streak g' = 5)
          (answer_all asks g).
Proof.
  intros Hne Hfree Hlen Hall Hstreak Hscore Hdelay.
  destruct asks as [|[q1 i1] [|[q2 i2] [|[q3 i3] [|[q4 i4] [|[q5 i5] [|]]]]]];
    try discriminate Hlen.
  cbn [forallb fst snd] in Hall.
  repeat (apply andb_true_iff in Hall; destruct Hall as [? Hall]).
  cbn [answer_all].
  eapply Returns_bind; [apply answer_asked_right; eassumption|].
  intros g1 R1. destruct (rewarded_board _ _ R1) as [Hne1 Hfree1].
  eapply Returns_bind; [apply answer_asked_right; eassumption|].
  intros g2 R2. destruct (rewarded_board _ _ R2) as [Hne2 Hfree2].
  eapply Returns_bind; [apply answer_asked_right; eassumption|].
  intros g3 R3. destruct (rewarded_board _ _ R3) as [Hne3 Hfree3].
  eapply Returns_bind; [apply answer_asked_right; eassumption|].
  intros g4 R4. destruct (rewarded_board _ _ R4) as [Hne4 Hfree4].
  eapply Returns_bind; [apply answer_asked_right; eassumption|].
  intros g5 R5. apply Returns_ret.
  destruct R1 as (S1 & T1 & _ & C1 & _ & L1 & D1 & _).
  destruct R2 as (S2 & T2 & _ & C2 & _ & L2 & D2 & _).
  destruct R3 as (S3 & T3 & _ & C3 & _ & L3 & D3 & _).
  destruct R4 as (S4 & T4 & _ & C4 & _ & L4 & D4 & _).
  destruct R5 as (S5 & T5 & _ & C5 & _ & L5 & D5 & _).
  rewrite C4, C3, C2, C1 in L5, D5. rewrite C3, C2, C1 in L4, D4.
  rewrite C2, C1 in L3, D3. rewrite C1 in L2, D2.
  destruct (Z.eqb_spec ((questions_correct g + 1) mod 5) 0) as [E1 | E1];
  destruct (Z.eqb_spec ((questions_correct g + 1 + 1) mod 5) 0) as [E2 | E2];
  destruct (Z.eqb_spec ((questions_correct g + 1 + 1 + 1) mod 5) 0) as [E3 | E3];
  destruct (Z.eqb_spec ((questions_correct g + 1 + 1 + 1 + 1) mod 5) 0) as [E4 | E4];
  destruct (Z.eqb_spec ((questions_correct g + 1 + 1 + 1 + 1 + 1) mod 5) 0) as [E5 | E5];
  Z.div_mod_to_equations; lia.
Qed.

(** C1, as the code has it. The streak is raised before the bonus is taken
    from it: a right answer on a streak of [s] earlier right answers adds
    [10 + min ((s + 1) * 2) 20] to the score, whenever the snake has a head
    and the grid a free cell for the next food. Five right answers in a row
    from streak 0, score 0 and move delay 200 end with score 80, move delay
    190 and the level raised once. *)
Theorem correct_answer_scores (g : Game) (q : Question) (option_index : Z)
    (asks : list (Question * Z)) :
  snake g <> [] ->
  (exists c, in_bounds c /\ ~ In c (snake g)) ->
  (current_question g = Some q ->
   picks_answer q option_index = true ->
   Returns (fun g' => score g' = score g + 10 + Z.min ((streak g + 1) * 2) 20)
           (answer_question option_index g)) /\
  (length asks = 5%nat ->
   forallb (fun a => picks_answer (fst a) (snd a)) asks = true ->
   streak g = 0 -> score g = 0 -> move_delay g = 200 ->
   Returns (fun g' => score g' = 80 /\ move_delay g' = 190 /\
                      level g' = level g + 1)
           (answer_all asks g)).
Proof.
  intros Hne Hfree. split.
  - intros Hq Hpick.
    eapply Returns_weaken;
      [|apply (answer_question_right option_index g q); assumption].
    intros g' R. apply R.
  - intros Hlen Hall Hstreak Hscore Hdelay.
    eapply Returns_weaken; [|apply five_right_answers; eassumption].
    cbv beta. intros g' (Hs & Hd & Hl & _). auto.
Qed.

Lemma sample_board :
  snake sample_game <> [] /\
  exists c, in_bounds c /\ ~ In c (snake sample_game).
Proof.
  split; [discriminate|]. exists (0, 0). exact origin_free_at_start.
Defined.

Lemma correct_answer_scores_sample :
  Returns (fun g' => score g' = score (asked sample_question sample_game) + 10 +
                     Z.min ((streak (asked sample_question sample_game) + 1) * 2) 20)
          (answer_question 0 (asked sample_question sample_game)) /\
  Returns (fun g' => score g' = 80 /\ move_delay g' = 190 /\
                     level g' = level sample_game + 1)
          (answer_all five_asks sample_game).
Proof.
  split.
  - apply (correct_answer_scores (asked sample_question sample_game)
             sample_question 0 five_asks);
      [apply sample_board | apply sample_board | reflexivity | reflexivity].
  - apply (correct_answer_scores sample_game sample_question 0 five_asks);
      [apply sample_board | apply sample_board | reflexivity | reflexivity
      | reflexivity | reflexivity | reflexivity].
Defined.

(** The first right answer of a streak adds 12 where [10 + min (0 * 2) 20]
    is 10, and five right answers from nothing give 80 where the sum
    10+0+10+2+10+4+10+6+10+8 is 70. *)
Lemma first_right_answer_adds_12 :
  streak sample_game = 0 /\ score sample_game = 0 /\
  move_delay sample_game = 200 /\
  picks_answer sample_question 0 = true /\
  (exists g', answer_question 0 (asked sample_question sample_game) [5; 6]
                = Ok (g', []) /\
              score g' = score sample_game + 12 /\
              score g' <> score sample_game + 10 +
                          Z.min (streak sample_game * 2) 20) /\
  (exists g5, answer_all five_asks sample_game [5; 6; 5; 6; 5; 6; 5; 6; 5; 6]
                = Ok (g5, []) /\
              score g5 = 80 /\ score g5 <> 70 /\
              move_delay g5 = 190 /\ level g5 = level sample_game + 1).
Proof.
  repeat (split; [reflexivity|]). split.
  - eexists. split; [vm_compute; reflexivity|].
    split; [reflexivity | discriminate].
  - eexists. split; [vm_compute; reflexivity|].
    split; [reflexivity|]. split; [discriminate|]. split; reflexivity.
Qed.

(** C2 at a session on a streak of three: the second option of the sample
    question is wrong. The attempt is counted, the streak falls to 0 and the
    score stays, but the question is no longer current, and the right option
    pressed next is ignored: where the comment in the wrong-answer branch
    allows a retry, the assignment after the branch rules it out. *)
Theorem wrong_answer_drops_question :
  picks_wrong sample_question 1 = true /\
  current_question sample_asked = Some sample_question /\
  exists g',
    answer_question 1 sample_asked [] = Ok (g', []) /\
    streak sample_asked = 3 /\ streak g' = 0 /\
    score g' = score sample_asked /\
    questions_total g' = questions_total sample_asked + 1 /\
    current_question g' = None /\
    picks_answer sample_question 0 = true /\
    answer_question 0 g' [5; 6] = Ok (g', [5; 6]).
Proof.
  split; [reflexivity|]. split; [reflexivity|].
  eexists. split; [vm_compute; reflexivity|].
  repeat (split; [reflexivity|]). reflexivity.
Qed.

(** C8 at the sample question with its four options: index -5 raises
    [IndexError], and index -1 is taken for the last option, a wrong one, so
    the attempt is counted and the streak lost. The guard of
    [answer_question] turns away the indices at or past the number of
    options only. *)
Theorem negative_index_not_ignored :
  length (options sample_question) = 4%nat /\
  answer_question (-5) sample_asked [] = Raise IndexError /\
  exists g',
    answer_question (-1) sample_asked [] = Ok (g', []) /\
    questions_total g' = questions_total sample_asked + 1 /\
    streak sample_asked = 3 /\ streak g' = 0 /\
    current_question g' = None.
Proof.
  split; [reflexivity|]. split; [reflexivity|].
  eexists. split; [vm_compute; reflexivity|].
  repeat (split; [reflexivity|]). reflexivity.
Qed.

Section Intents.

Context {Mini : Type} `{SubGames Mini}.

(** A movement key on a menu screen changes nothing. *)
Lemma movement_ignored_in_menus (d : Direction) (unicode : string) (g : Game)
    (m : Mini) (t : Tape) :
  menu_state (state g) = true ->
  handle_keydown (arrow d) unicode (g, m) t = Ok ((true, (g, m)), t).
Proof.
  intros Hmenu. unfold handle_keydown.
  destruct (state g); try discriminate Hmenu; destruct d; reflexivity.
Qed.

End Intents.

(** ** Start and restart *)

Lemma start_game_Returns (g : Game) :
  Returns (fun g' => freshly_started g' /\ best_streak g' = best_streak g /\
                     move_delay g' = move_delay g /\
                     last_move_time g' = last_move_time g /\
                     language g' = language g /\
                     current_question g' = current_question g /\
                     question_answered g' = question_answered g)
          (start_game g).
Proof.
  unfold start_game.
  eapply Returns_weaken; [|apply generate_food_Returns].
  - cbv beta. intros g' (c & -> & Hc_in & Hc). fields_in Hc.
    unfold freshly_started. fields.
    split; [|repeat split].
    repeat (split; [reflexivity|]).
    exists c. split; [reflexivity|]. split; [exact Hc_in|].
    intros ->. apply Hc. left. reflexivity.
  - fields. exists (0, 0). exact origin_free_at_start.
Qed.

Section Reset.

Context {Mini : Type} `{SubGames Mini}.

(** C3, as the code has it. The start intent in MENU and the restart intent
    in GAME_OVER both run [start_game], which raises nothing, returns once a
    draw hits a free cell, and then leaves the mode PLAYING, the snake a
    single cell at the center of the grid, heading and pending heading
    RIGHT, score 0, level 1, streak 0, both counts 0, the selections cleared
    and fresh food on a cell of the grid that is not the center, whatever
    the session was before. The best streak is not among the fields it
    assigns: it keeps its value. *)
Theorem start_game_resets (g : Game) (m : Mini) (unicode : string) (t : Tape) :
  Returns (fun g' => freshly_started g' /\ best_streak g' = best_streak g)
          (start_game g) /\
  (state g = MENU ->
   handle_keydown K_SPACE unicode (g, m) t =
   (g' <- start_game g ;; ret (true, (g', m))) t) /\
  (state g = GAME_OVER ->
   handle_keydown K_r unicode (g, m) t =
   (g' <- start_game g ;; ret (true, (g', m))) t).
Proof.
  split; [|split].
  - eapply Returns_weaken; [|apply start_game_Returns].
    cbv beta. intros g' (Hfresh & Hbest & _). split; assumption.
  - intros Es. unfold handle_keydown. rewrite Es. reflexivity.
  - intros Es. unfold handle_keydown. rewrite Es. reflexivity.
Qed.

End Reset.

Lemma start_game_resets_sample :
  Returns (fun g' => freshly_started g' /\
                     best_streak g' = best_streak sample_game)
          (start_game sample_game) /\
  handle_keydown K_SPACE "" (sample_game, tt) [7; 8] =
    (g' <- start_game sample_game ;; ret (true, (g', tt))) [7; 8] /\
  handle_keydown K_r "" (game_over sample_game, tt) [7; 8] =
    (g' <- start_game (game_over sample_game) ;; ret (true, (g', tt))) [7; 8].
Proof.
  split; [|split].
  - apply (start_game_resets sample_game tt "" [7; 8]).
  - apply (start_game_resets sample_game tt "" [7; 8]). reflexivity.
  - apply (start_game_resets (game_over sample_game) tt "" [7; 8]). reflexivity.
Defined.

(** After five right answers the move delay is 190 and the best streak 5;
    the round ends, the player restarts, and both are still there, where
    the defaults of a new process are 200 and 0. *)
Lemma restart_keeps_speed_and_best_streak :
  exists g5 g',
    answer_all five_asks sample_game [5; 6; 5; 6; 5; 6; 5; 6; 5; 6]
      = Ok (g5, []) /\
    handle_keydown K_r "" (game_over g5, tt) [3; 4] = Ok ((true, (g', tt)), []) /\
    move_delay g' = 190 /\ move_delay defaults = 200 /\
    best_streak g' = 5 /\ best_streak defaults = 0 /\
    score g' = 0 /\ level g' = 1 /\
    move_delay g' <> move_delay defaults /\
    best_streak g' <> best_streak defaults.
Proof.
  eexists. eexists. split; [vm_compute; reflexivity|].
  split; [vm_compute; reflexivity|].
  repeat (split; [reflexivity|]). split; discriminate.
Qed.

(** ** The math question generator *)

Lemma int_in_In (n : Z) (l : list Z) : int_in n l = true <-> In n l.
Proof.
  unfold int_in. rewrite existsb_exists. split.
  - intros (x & Hx & E). apply Z.eqb_eq in E. subst. exact Hx.
  - intros Hn. exists n. split; [exact Hn | apply Z.eqb_refl].
Qed.

Lemma int_in_not_In (n : Z) (l : list Z) : int_in n l = false <-> ~ In n l.
Proof.
  rewrite <- int_in_In. destruct (int_in n l); split; congruence.
Qed.

(** Fewer than four options leave one of the four values above the answer
    unused. *)
Lemma fresh_wrong_option (answer : Z) (opts : list Z) :
  (length opts < 4)%nat ->
  exists k, 1 <= k <= 4 /\ int_in (answer + k) opts = false.
Proof.
  intros Hlen.
  destruct (int_in (answer + 1) opts) eqn:E1; [|exists 1; split; [lia | exact E1]].
  destruct (int_in (answer + 2) opts) eqn:E2; [|exists 2; split; [lia | exact E2]].
  destruct (int_in (answer + 3) opts) eqn:E3; [|exists 3; split; [lia | exact E3]].
  destruct (int_in (answer + 4) opts) eqn:E4; [|exists 4; split; [lia | exact E4]].
  apply int_in_In in E1, E2, E3, E4.
  assert (Hnd : NoDup [answer + 1; answer + 2; answer + 3; answer + 4]).
  { repeat constructor; cbn [In]; lia. }
  assert (Hincl : incl [answer + 1; answer + 2; answer + 3; answer + 4] opts).
  { intros x [<- | [<- | [<- | [<- | []]]]]; assumption. }
  pose proof (NoDup_incl_length Hnd Hincl) as Hle. cbn [length] in Hle. lia.
Qed.

Lemma wrong_options_done (answer : Z) (opts : list Z) (t : Tape) :
  (4 <= length opts)%nat -> wrong_options answer opts t = Ok (opts, t).
Proof.
  intros Hlen.
  assert (E : (Z.of_nat (length opts) <? 4) = false) by (apply Z.ltb_ge; lia).
  destruct t; cbn [wrong_options]; rewrite E; reflexivity.
Qed.

Lemma wrong_options_starved (answer : Z) (opts : list Z) :
  (length opts < 4)%nat -> wrong_options answer opts [] = Starved.
Proof.
  intros Hlen. cbn [wrong_options].
  replace (Z.of_nat (length opts) <? 4) with true
    by (symmetry; apply Z.ltb_lt; lia).
  reflexivity.
Qed.

Lemma wrong_options_draw (answer : Z) (opts : list Z) (raw : Z) (t : Tape) :
  (length opts < 4)%nat ->
  wrong_options answer opts (raw :: t) =
  (let wrong := answer + into_range (-10) 10 raw in
   if negb (wrong =? answer) && negb (int_in wrong opts) && (0 <=? wrong)
   then wrong_options answer (opts ++ [wrong]) t
   else wrong_options answer opts t).
Proof.
  intros Hlen. cbn [wrong_options].
  replace (Z.of_nat (length opts) <? 4) with true
    by (symmetry; apply Z.ltb_lt; lia).
  reflexivity.
Qed.

Lemma wrong_options_Returns (answer : Z) (opts : list Z) :
  0 <= answer -> In answer opts -> NoDup opts ->
  Forall (fun o => 0 <= o) opts -> (length opts <= 4)%nat ->
  Returns (fun o => length o = 4%nat /\ NoDup o /\
                    Forall (fun v => 0 <= v) o /\ In answer o)
          (wrong_options answer opts).
Proof.
  intros Hans Hin Hnd Hpos Hlen. split.
  - intros t. clear Hin Hnd Hpos Hlen. revert opts.
    induction t as [|raw t IH]; intros opts e.
    + destruct (Nat.lt_ge_cases (length opts) 4) as [Hlt | Hge].
      * rewrite wrong_options_starved by exact Hlt. discriminate.
      * rewrite wrong_options_done by exact Hge. discriminate.
    + destruct (Nat.lt_ge_cases (length opts) 4) as [Hlt | Hge].
      * rewrite wrong_options_draw by exact Hlt. cbv zeta.
        destruct (_ && _); apply IH.
      * rewrite wrong_options_done by exact Hge. discriminate.
  - intros t. revert opts Hin Hnd Hpos Hlen.
    induction t as [|raw t IH]; intros opts Hin Hnd Hpos Hlen o r E.
    + destruct (Nat.lt_ge_cases (length opts) 4) as [Hlt | Hge].
      * rewrite wrong_options_starved in E by exact Hlt. discriminate.
      * rewrite wrong_options_done in E by exact Hge. inversion E; subst.
        repeat split; try assumption. lia.
    + destruct (Nat.lt_ge_cases (length opts) 4) as [Hlt | Hge].
      * rewrite wrong_options_draw in E by exact Hlt. cbv zeta in E.
        destruct (_ && _) eqn:Econd.
        -- apply andb_true_iff in Econd. destruct Econd as [Econd Ege].
           apply andb_true_iff in Econd. destruct Econd as [_ Enew].
           apply negb_true_iff, int_in_not_In in Enew. apply Z.leb_le in Ege.
           eapply IH; [| | | |exact E].
           ++ apply in_or_app. left. exact Hin.
           ++ apply NoDup_app; [exact Hnd | repeat constructor; intros [] |].
              intros x Hx [<- | []]. contradiction.
           ++ apply Forall_app. split; [exact Hpos | repeat constructor; exact Ege].
           ++ rewrite length_app. cbn [length]. lia.
        -- eapply IH; [exact Hin | exact Hnd | exact Hpos | exact Hlen | exact E].
      * rewrite wrong_options_done in E by exact Hge. inversion E; subst.
        repeat split; try assumption. lia.
  - intros t. clear Hin Hnd Hpos Hlen. revert opts.
    induction t as [|raw t IH]; intros opts o r ext E.
    + destruct (Nat.lt_ge_cases (length opts) 4) as [Hlt | Hge].
      * rewrite wrong_options_starved in E by exact Hlt. discriminate.
      * rewrite wrong_options_done in E by exact Hge. inversion E; subst.
        apply wrong_options_done. exact Hge.
    + destruct (Nat.lt_ge_cases (length opts) 4) as [Hlt | Hge].
      * rewrite wrong_options_draw in E by exact Hlt. cbn [app].
        rewrite wrong_options_draw by exact Hlt. cbv zeta in E |- *.
        destruct (_ && _); apply IH; exact E.
      * rewrite wrong_options_done in E by exact Hge. inversion E; subst.
        apply wrong_options_done. exact Hge.
  - clear Hin Hnd Hpos Hlen.
    assert (Hall : forall n os, (4 - length os = n)%nat ->
              forall t, exists ext o r,
                wrong_options answer os (t ++ ext) = Ok (o, r)).
    { induction n as [|n IHn]; intros os Hn t.
      - exists [], os, (t ++ []). apply wrong_options_done. lia.
      - assert (Hlt : (length os < 4)%nat) by lia.
        induction t as [|raw t IHt].
        + destruct (fresh_wrong_option answer os Hlt) as (k & Hk & Hfresh).
          destruct (IHn (os ++ [answer + k])) with (t := @nil Z)
            as (ext & o & r & E).
          { rewrite length_app. cbn [length]. lia. }
          exists (k + 10 :: ext), o, r. cbn [app] in E |- *.
          rewrite wrong_options_draw by exact Hlt. cbv zeta.
          replace (into_range (-10) 10 (k + 10)) with k
            by (unfold into_range; rewrite Z.mod_small by lia; lia).
          rewrite Hfresh.
          replace (answer + k =? answer) with false
            by (symmetry; apply Z.eqb_neq; lia).
          replace (0 <=? answer + k) with true
            by (symmetry; apply Z.leb_le; lia).
          exact E.
        + cbn [app].
          destruct (negb (answer + into_range (-10) 10 raw =? answer)
                    && negb (int_in (answer + into_range (-10) 10 raw) os)
                    && (0 <=? answer + into_range (-10) 10 raw)) eqn:Econd.
          * destruct (IHn (os ++ [answer + into_range (-10) 10 raw]))
              with (t := t) as (ext & o & r & E).
            { rewrite length_app. cbn [length]. lia. }
            exists ext, o, r.
            rewrite wrong_options_draw by exact Hlt. cbv zeta.
            rewrite Econd. exact E.
          * destruct IHt as (ext & o & r & E).
            exists ext, o, r.
            rewrite wrong_options_draw by exact Hlt. cbv zeta.
            rewrite Econd. exact E. }
    intros t. apply (Hall (4 - length opts)%nat opts eq_refl t).
Qed.

Lemma length_list_set {A} (x : list A) (i : nat) (v : A) :
  length (list_set x i v) = length x.
Proof.
  revert i. induction x as [|a x IH]; intros [|i]; cbn; auto.
Qed.

Lemma list_set_Permutation {A} (x : list A) (j : nat) (xj a : A) :
  nth_error x j = Some xj -> Permutation (a :: x) (xj :: list_set x j a).
Proof.
  revert j. induction x as [|b x IH]; intros [|j] E; cbn in E |- *;
    try discriminate.
  - inversion E; subst. apply perm_swap.
  - eapply perm_trans; [apply perm_swap|].
    eapply perm_trans; [apply perm_skip; apply IH; exact E|].
    apply perm_swap.
Qed.

Lemma swap_Permutation {A} (x y : list A) (i j : nat) :
  swap x i j = Ok y -> Permutation x y.
Proof.
  unfold swap.
  destruct (nth_error x j) as [xj|] eqn:Ej; [|discriminate].
  destruct (nth_error x i) as [xi|] eqn:Ei; [|discriminate].
  intros E. inversion E; subst; clear E.
  revert i j Ei Ej. induction x as [|a x IH]; intros [|i] [|j] Ei Ej;
    cbn in Ei, Ej |- *; try discriminate.
  - inversion Ei; inversion Ej; subst. apply Permutation_refl.
  - inversion Ei; subst. apply list_set_Permutation. exact Ej.
  - inversion Ej; subst. apply list_set_Permutation. exact Ei.
  - apply perm_skip. apply IH; assumption.
Qed.

Lemma swap_in_range {A} (x : list A) (i j : nat) :
  (i < length x)%nat -> (j < length x)%nat -> exists y, swap x i j = Ok y.
Proof.
  intros Hi Hj. unfold swap.
  destruct (nth_error x j) as [xj|] eqn:Ej;
    [|apply nth_error_None in Ej; lia].
  destruct (nth_error x i) as [xi|] eqn:Ei;
    [|apply nth_error_None in Ei; lia].
  eexists. reflexivity.
Qed.

Lemma shuffle_from_Returns {A} (i : nat) (x : list A) :
  (i < length x)%nat \/ i = O ->
  Returns (Permutation x) (shuffle_from i x).
Proof.
  revert x. induction i as [|i IH]; intros x Hi.
  - apply Returns_ret. apply Permutation_refl.
  - destruct Hi as [Hi | Hi]; [|discriminate Hi].
    cbn [shuffle_from]. unfold randbelow.
    eapply Returns_bind; [apply Returns_randint; lia|].
    intros j Hj. cbv beta in Hj.
    destruct (swap_in_range x (S i) (Z.to_nat j)) as (y & Ey); [exact Hi | lia|].
    rewrite Ey.
    eapply Returns_bind; [apply Returns_lift_eq|].
    intros y' ->.
    pose proof (swap_Permutation _ _ _ _ Ey) as Hperm.
    eapply Returns_weaken; [|apply IH].
    + intros z Hz. eapply perm_trans; eassumption.
    + left. rewrite <- (Permutation_length Hperm). lia.
Qed.

Lemma shuffle_Returns {A} (x : list A) : Returns (Permutation x) (shuffle x).
Proof.
  unfold shuffle. apply shuffle_from_Returns.
  destruct x as [|a x]; [right; reflexivity | left; cbn [length]; lia].
Qed.

Lemma square_operation_Returns :
  Returns (fun p : string * Z => 0 <= snd p) square_operation.
Proof.
  unfold square_operation.
  eapply Returns_bind; [apply Returns_randint; lia|]. intros shown _.
  eapply Returns_bind; [apply Returns_randint; lia|]. intros n Hn.
  cbv beta in Hn. apply Returns_ret. cbn [snd]. apply Z.pow_nonneg. lia.
Qed.

Lemma root_operation_Returns :
  Returns (fun p : string * Z => 0 <= snd p) root_operation.
Proof.
  unfold root_operation.
  eapply Returns_bind; [apply Returns_choice; discriminate|]. intros shown _.
  eapply Returns_bind; [apply Returns_choice; discriminate|]. intros n _.
  apply Returns_ret. cbn [snd]. apply Z.sqrt_nonneg.
Qed.

(** Every tier settles on an answer that is not negative. *)
Lemma math_problem_Returns (difficulty : Z) :
  Returns (fun p : string * Z => 0 <= snd p) (math_problem difficulty).
Proof.
  unfold math_problem.
  destruct (difficulty <=? 3); [|destruct (difficulty <=? 6)].
  - eapply Returns_bind; [apply Returns_randint; lia|]. intros a Ha.
    eapply Returns_bind; [apply Returns_randint; lia|]. intros b Hb.
    eapply Returns_bind; [apply Returns_choice; discriminate|].
    intros operation _. cbv beta in Ha, Hb.
    destruct (String.eqb operation "+").
    + apply Returns_ret. cbn [snd]. lia.
    + destruct (a <? b) eqn:Elt; apply Returns_ret; cbn [snd].
      * apply Z.ltb_lt in Elt. lia.
      * apply Z.ltb_ge in Elt. lia.
  - eapply Returns_bind; [apply Returns_randint; lia|]. intros a Ha.
    eapply Returns_bind; [apply Returns_randint; lia|]. intros b Hb.
    eapply Returns_bind; [apply Returns_choice; discriminate|].
    intros operation _. cbv beta in Ha, Hb.
    destruct (String.eqb operation "×"); apply Returns_ret; cbn [snd]; nia.
  - eapply Returns_bind; [apply Returns_choice; discriminate|].
    intros operation [<- | [<- | []]];
      [apply square_operation_Returns | apply root_operation_Returns].
Qed.

Lemma generate_math_question_Returns (difficulty : Z) :
  Returns math_question_ok (generate_math_question difficulty).
Proof.
  unfold generate_math_question.
  eapply Returns_bind; [apply math_problem_Returns|].
  intros [text a] Ha. cbn [snd] in Ha.
  eapply Returns_bind.
  - apply wrong_options_Returns; [exact Ha | left; reflexivity | |
      repeat constructor; exact Ha | cbn [length]; lia].
    repeat constructor. intros [].
  - intros opts (Hlen & Hnd & Hpos & Hin).
    eapply Returns_bind; [apply shuffle_Returns|].
    intros shuffled Hperm. apply Returns_ret.
    exists a, shuffled. cbn [answer options].
    split; [reflexivity|]. split; [reflexivity|]. split; [exact Ha|].
    split; [rewrite <- (Permutation_length Hperm); exact Hlen|].
    split; [eapply Permutation_NoDup; eassumption|].
    split; [eapply Permutation_Forall; eassumption|].
    eapply Permutation_in; eassumption.
Qed.

(** C6. For every difficulty tier and every sequence of draws, math question
    generation raises nothing; a question it returns has a non-negative
    integer answer and exactly four options, pairwise distinct, none
    negative, one of them the answer; and whatever has been drawn so far,
    some further draws make it return, so the loop that looks for wrong
    options is never stuck. *)
Theorem generate_math_question_total (difficulty : Z) :
  (forall t e, generate_math_question difficulty t <> Raise e) /\
  (forall t q r,
     generate_math_question difficulty t = Ok (q, r) -> math_question_ok q) /\
  (forall t q r ext,
     generate_math_question difficulty t = Ok (q, r) ->
     generate_math_question difficulty (t ++ ext) = Ok (q, r ++ ext)) /\
  (forall t, exists ext q r,
     generate_math_question difficulty (t ++ ext) = Ok (q, r)).
Proof.
  pose proof (generate_math_question_Returns difficulty) as [H1 H2 H3 H4].
  repeat split; assumption.
Qed.

Lemma generate_math_question_2 :
  generate_math_question 2 [6; 4; 0; 13; 13; 10; 8; 5; 1; 0; 0; 99] =
    Ok (mkQuestion "7 + 5 = ?" (VInt 12) [VInt 7; VInt 10; VInt 12; VInt 15]
          2 "math", [99]) /\
  math_question_ok
    (mkQuestion "7 + 5 = ?" (VInt 12) [VInt 7; VInt 10; VInt 12; VInt 15]
       2 "math").
Proof.
  assert (E : generate_math_question 2 [6; 4; 0; 13; 13; 10; 8; 5; 1; 0; 0; 99] =
    Ok (mkQuestion "7 + 5 = ?" (VInt 12) [VInt 7; VInt 10; VInt 12; VInt 15]
          2 "math", [99])) by (vm_compute; reflexivity).
  split; [exact E|].
  exact (proj1 (proj2 (generate_math_question_total 2)) _ _ _ E).
Defined.

(** ** Reachable sessions *)

Lemma py_index_In {A} (l : list A) (i : Z) (a : A) :
  py_index l i = Ok a -> In a l.
Proof.
  unfold py_index. destruct (_ || _); [discriminate|].
  destruct (nth_error l _) as [b|] eqn:En; [|discriminate].
  intros E. inversion E; subst. eapply nth_error_In. exact En.
Qed.

Lemma center_in_bounds : in_bounds center.
Proof.
  unfold in_bounds. rewrite center_val, GRID_WIDTH_val, GRID_HEIGHT_val.
  cbn. lia.
Qed.

Lemma start_game_snake (g : Game) (t : Tape) (g' : Game) (r : Tape) :
  start_game g t = Ok (g', r) -> snake g' = [center].
Proof.
  intros E. apply (result_ok _ _ (start_game_Returns g)) in E.
  destruct E as ((_ & Hs & _) & _). exact Hs.
Qed.

(** An answer leaves the snake as it is or appends one of its own cells. *)
Lemma answer_question_snake (option_index : Z) (g : Game) (t : Tape)
    (g' : Game) (r : Tape) :
  answer_question option_index g t = Ok (g', r) ->
  snake g' = snake g \/
  exists tail, In tail (snake g) /\ snake g' = snake g ++ [tail].
Proof.
  unfold answer_question. intros E.
  destruct (current_question g) as [q|]; [|inv_run; left; reflexivity].
  destruct (_ <=? _); [inv_run; left; reflexivity|].
  apply bind_Ok in E. destruct E as (selected & t1 & _ & E).
  apply bind_Ok in E. destruct E as (g1 & t2 & E & Elast).
  unfold ret in Elast. inversion Elast; subst; clear Elast. fields.
  destruct (Value_eqb selected (answer q)).
  - apply bind_Ok in E. destruct E as (g2 & t3 & Egrow & E).
    apply bind_Ok in E. destruct E as (g3 & t4 & Efood & E).
    unfold lift in Egrow.
    destruct (grow_snake _) as [g2'| |] eqn:Eg; try discriminate.
    inversion Egrow; subst; clear Egrow.
    unfold grow_snake in Eg.
    destruct (py_index _ (-1)) as [tail| |] eqn:Etail; try discriminate.
    inversion Eg; subst; clear Eg. fields_in Etail.
    unfold generate_food in Efood.
    apply bind_Ok in Efood. destruct Efood as (c & t5 & _ & Efood).
    unfold ret in Efood. inversion Efood; subst; clear Efood.
    right. exists tail. split; [eapply py_index_In; exact Etail|].
    fields_in E. destruct (_ =? 0); inv_run; reflexivity.
  - inv_run. left. reflexivity.
Qed.

Section Reachable.

Context {Mini : Type} `{SubGames Mini}.

(** A key leaves the snake as it is or starts a new one at the center. *)
Lemma handle_keydown_snake (key : Key) (unicode : string) (g : Game) (m : Mini)
    (t : Tape) (go_on : bool) (g' : Game) (m' : Mini) (r : Tape) :
  handle_keydown key unicode (g, m) t = Ok ((go_on, (g', m')), r) ->
  snake g' = snake g \/ snake g' = [center].
Proof.
  intros E.
  destruct (away_from_board (state g)) eqn:Eaway.
  - apply handle_keydown_away in E; [|exact Eaway].
    destruct E as (_ & (Hs & _) & _). left. exact Hs.
  - unfold handle_keydown in E.
    destruct (state g); try discriminate Eaway; destruct key; inv_run;
      try (left; reflexivity);
      try (destruct (negb _); inv_run; left; reflexivity);
      right; eapply start_game_snake; eassumption.
Qed.

Lemma handle_input_snake (evs : list Event) (g : Game) (m : Mini) (t : Tape)
    (running : bool) (g' : Game) (m' : Mini) (r : Tape) :
  handle_input evs (g, m) t = Ok ((running, (g', m')), r) ->
  snake g' = snake g \/ snake g' = [center].
Proof.
  revert g m t. induction evs as [|ev rest IH]; intros g m t E.
  - cbn in E. inv_run. left. reflexivity.
  - destruct ev as [|key unicode|]; cbn [handle_input] in E.
    + inv_run. left. reflexivity.
    + apply bind_Ok in E. destruct E as ([go_on [g1 m1]] & t1 & Ekey & E).
      apply handle_keydown_snake in Ekey.
      destruct go_on.
      * apply IH in E. destruct E as [-> | ->]; [exact Ekey | right; reflexivity].
      * inv_run. exact Ekey.
    + eapply IH. exact E.
Qed.

End Reachable.

(** In every reachable session the snake has a head and lies within the
    grid. *)
Lemma reachable_board (g : Game) :
  reachable g -> snake g <> [] /\ Forall in_bounds (snake g).
Proof.
  assert (Hcenter : [center] <> [] /\ Forall in_bounds [center]).
  { split; [discriminate|]. constructor; [exact center_in_bounds | constructor]. }
  induction 1 as [t g r E | Mini games f g m t running g' m' r _ IH E
                  | q i g t g' r _ IH E].
  - unfold init, generate_food in E.
    apply bind_Ok in E. destruct E as (c & t1 & _ & E).
    unfold ret in E. inversion E; subst. exact Hcenter.
  - unfold run_frame in E.
    apply bind_Ok in E. destruct E as ([go [g1 m1]] & t1 & Ein & E).
    assert (H1 : snake g1 <> [] /\ Forall in_bounds (snake g1)).
    { apply handle_input_snake in Ein. destruct Ein as [-> | ->]; assumption. }
    destruct (state g1).
    2: { apply bind_Ok in E. destruct E as (g2 & t2 & Eupd & E).
         unfold ret in E. inversion E; subst; clear E.
         unfold lift in Eupd.
         destruct (update_snake_invariants (ticks f) g1 (proj1 H1))
           as (g3 & Eg3 & Hne & Hb & _).
         rewrite Eg3 in Eupd. inversion Eupd; subst.
         split; [exact Hne | apply Hb; apply H1]. }
    all: try (inv_run; exact H1).
    destruct (name_in _ updated_python_games); inv_run; exact H1.
  - apply answer_question_snake in E. fields_in E.
    destruct IH as [Hne Hb].
    destruct E as [-> | (tail & Htail & ->)]; [split; assumption|].
    split.
    + intros E. apply app_eq_nil in E. destruct E as [E _]. contradiction.
    + apply Forall_app. split; [exact Hb|].
      constructor; [|constructor].
      rewrite Forall_forall in Hb. apply Hb. exact Htail.
Qed.

(** C7, as the code has it. Every tick, whether throttled, moving, eating or
    colliding, returns for a snake with a head, and keeps the cells of the
    snake within the grid: in every reachable session, states reached after
    growth included, the snake lies within the grid after the tick. The tick
    keeps the cells pairwise distinct when they were so before it. Growth
    repeats the tail cell, so right after growth two cells are equal, and
    the tick is not bound to part them. *)
Theorem tick_keeps_snake (now : Z) (g : Game) :
  (snake g <> [] ->
   exists g',
     update_snake now g = Ok g' /\
     snake g' <> [] /\
     (Forall in_bounds (snake g) -> Forall in_bounds (snake g')) /\
     (NoDup (snake g) -> NoDup (snake g'))) /\
  (reachable g ->
   exists g',
     update_snake now g = Ok g' /\ snake g' <> [] /\
     Forall in_bounds (snake g')).
Proof.
  split.
  - intros Hne.
    destruct (update_snake_invariants now g Hne) as (g' & E & Hne' & Hb & Hnd & _).
    exists g'. repeat split; assumption.
  - intros Hreach. destruct (reachable_board g Hreach) as [Hne Hb].
    destruct (update_snake_invariants now g Hne) as (g' & E & Hne' & Hb' & _).
    exists g'. split; [exact E|]. split; [exact Hne' | apply Hb'; exact Hb].
Qed.

(** ** Scenarios *)

(** Scenario B: the next head is (-1,10), a wall collision. *)
Lemma scenario_B_game_over :
  exists g',
    update_snake 250 scenario_B = Ok g' /\
    run_frame (mkFrame [] 250 no_key) (scenario_B, tt) [] =
      Ok ((true, (g', tt)), []) /\
    state g' = GAME_OVER /\
    snake g' = snake scenario_B /\ food_pos g' = food_pos scenario_B /\
    score g' = score scenario_B /\ level g' = level scenario_B /\
    streak g' = streak scenario_B /\
    g' = set_state GAME_OVER
           (set_direction (next_direction scenario_B)
              (set_last_move_time 250 scenario_B)).
Proof.
  apply (collision_ends_round 250 scenario_B (0, 10) [(1, 10)] tt no_key []).
  - reflexivity.
  - cbn. lia.
  - reflexivity.
  - left. unfold in_bounds. cbn. lia.
Defined.

Lemma scenario_A_free :
  in_bounds (step (10, 10) RIGHT) /\ ~ In (step (10, 10) RIGHT) [(10, 10)].
Proof.
  split.
  - unfold in_bounds. cbn. lia.
  - cbn. intros [E | []]. discriminate E.
Defined.

(** Scenario A: after 250 ms the head is (11,10) and the length still 1;
    with the food at (11,10) the snake has two cells and the player is sent
    to the category screen. *)
Lemma scenario_A_moves :
  (exists g',
     update_snake 250 scenario_A = Ok g' /\
     snake g' = [(11, 10)] /\ state g' = PLAYING /\
     food_pos g' = food_pos scenario_A) /\
  (exists g',
     update_snake 250 scenario_A_food = Ok g' /\
     snake g' = [(11, 10); (10, 10)] /\ state g' = CATEGORY_SELECT /\
     food_pos g' = food_pos scenario_A_food).
Proof.
  split.
  - destruct (move_without_collision 250 scenario_A (10, 10) [] tt no_key [])
      as (g' & Hupd & _ & Hfood & _ & Hmove).
    + reflexivity.
    + cbn. lia.
    + reflexivity.
    + apply scenario_A_free.
    + apply scenario_A_free.
    + exists g'. destruct Hmove as (Hsnake & _ & Hstate); [discriminate|].
      split; [exact Hupd|]. split; [exact Hsnake|]. split; [exact Hstate|].
      exact Hfood.
  - destruct (move_without_collision 250 scenario_A_food (10, 10) [] tt no_key [])
      as (g' & Hupd & _ & Hfood & Heat & _).
    + reflexivity.
    + cbn. lia.
    + reflexivity.
    + apply scenario_A_free.
    + apply scenario_A_free.
    + exists g'. destruct Heat as (Hsnake & _ & Hstate & _); [reflexivity|].
      split; [exact Hupd|]. split; [exact Hsnake|]. split; [exact Hstate|].
      exact Hfood.
Defined.

Lemma sample_game_reachable : reachable sample_game.
Proof. exact (reach_init [3; 4] sample_game [] init_sample). Defined.

Lemma scenario_A_keeps_snake :
  (exists g',
     update_snake 250 scenario_A = Ok g' /\
     snake g' <> [] /\
     (Forall in_bounds (snake scenario_A) -> Forall in_bounds (snake g')) /\
     (NoDup (snake scenario_A) -> NoDup (snake g'))) /\
  (exists g',
     update_snake 250 sample_game = Ok g' /\ snake g' <> [] /\
     Forall in_bounds (snake g')).
Proof.
  split.
  - apply (tick_keeps_snake 250 scenario_A). discriminate.
  - apply (tick_keeps_snake 250 sample_game). exact sample_game_reachable.
Defined.

(** Right after growth the tail cell is there twice, and a tick does not
    always clear it: a throttled tick leaves the snake as it is, and a tick
    that eats keeps the whole tail. *)
Lemma grown_tail_survives_tick :
  (exists g1 g2,
     answer_question 0 (asked sample_question sample_game) [5; 6] = Ok (g1, []) /\
     state g1 = PLAYING /\
     update_snake 100 g1 = Ok g2 /\
     snake g2 = [(20, 15); (20, 15)] /\ ~ NoDup (snake g2)) /\
  (exists g1 g2,
     answer_question 0 (asked sample_question sample_game) [21; 15] = Ok (g1, []) /\
     state g1 = PLAYING /\
     update_snake 250 g1 = Ok g2 /\
     snake g2 = [(21, 15); (20, 15); (20, 15)] /\ ~ NoDup (snake g2)).
Proof.
  split.
  - eexists. eexists. split; [vm_compute; reflexivity|].
    split; [reflexivity|]. split; [vm_compute; reflexivity|].
    split; [reflexivity|].
    cbn [snake]. intros Hnd. inversion Hnd as [|c l Hin _]; subst.
    apply Hin. left. reflexivity.
  - eexists. eexists. split; [vm_compute; reflexivity|].
    split; [reflexivity|]. split; [vm_compute; reflexivity|].
    split; [reflexivity|].
    cbn [snake]. intros Hnd. inversion Hnd as [|c l _ Hnd']; subst.
    inversion Hnd' as [|c l Hin _]; subst.
    apply Hin. left. reflexivity.
Qed.

(** Heading RIGHT, intent LEFT: the heading after the next tick is RIGHT. *)
Lemma reversal_guard_right_left :
  handle_keydown K_LEFT "" (scenario_A, tt) [] = Ok ((true, (scenario_A, tt)), []) /\
  exists g',
    run_frame (mkFrame [KEYDOWN K_LEFT ""] 250 no_key) (scenario_A, tt) [] =
      Ok ((true, (g', tt)), []) /\
    direction g' = RIGHT.
Proof.
  destruct (reversal_guard scenario_A tt "" [] 250 no_key [] eq_refl)
    as (Hkey & _ & Htick).
  split; [exact Hkey|].
  apply Htick; [reflexivity | discriminate].
Defined.

Lemma pause_resume_scenario_A :
  handle_keydown K_p "" (scenario_A, tt) [] =
    Ok ((true, (set_state PAUSED scenario_A, tt)), []) /\
  run [mkFrame [KEYDOWN K_UP ""; OTHER_EVENT] 300 no_key; mkFrame [] 900 no_key]
      (set_state PAUSED scenario_A, tt) [] =
    Ok ((set_state PAUSED scenario_A, tt), []) /\
  handle_keydown K_p "" (set_state PAUSED scenario_A, tt) [] =
    Ok ((true, (scenario_A, tt)), []).
Proof.
  destruct (pause_resume scenario_A tt ""
              [mkFrame [KEYDOWN K_UP ""; OTHER_EVENT] 300 no_key;
               mkFrame [] 900 no_key] [] eq_refl eq_refl)
    as (Hpause & Hidle & Hresume & _).
  split; [exact Hpause|]. split; [exact Hidle | exact Hresume].
Defined.

(** ** Further properties of the design document *)

Section Further.

Context {Mini : Type} `{SubGames Mini}.

(** A tick before the move delay has elapsed changes nothing. *)
Theorem throttled_tick_is_noop (now : Z) (pr : Key -> bool) (g : Game)
    (m : Mini) (t : Tape) :
  state g = PLAYING ->
  now - last_move_time g < move_delay g ->
  update_snake now g = Ok g /\
  run_frame (mkFrame [] now pr) (g, m) t = Ok ((true, (g, m)), t).
Proof.
  intros Es Hlt.
  pose proof (update_snake_throttled now g Hlt) as Hupd.
  split; [exact Hupd | apply run_frame_tick; assumption].
Qed.

(** From the category screen, the selection screens and the sub-games no
    run of frames leads back to the board: the mode stays among them, and
    snake, food and score stay as they were when the food was eaten. *)
Theorem no_way_back_to_board (frames : list Frame) (g : Game) (m : Mini)
    (t : Tape) (g' : Game) (m' : Mini) (t' : Tape) :
  away_from_board (state g) = true ->
  run frames (g, m) t = Ok ((g', m'), t') ->
  away_from_board (state g') = true /\
  snake g' = snake g /\ food_pos g' = food_pos g /\ score g' = score g.
Proof.
  intros Haway Hrun. apply run_away in Hrun; [|exact Haway].
  destruct Hrun as (Haway' & Hsame). split; [exact Haway'|].
  unfold same_board in Hsame. tauto.
Qed.

(** The transitions between the category screen, the selection screens and
    the sub-games. *)
Theorem selection_transitions (g : Game) (m : Mini) (unicode : string)
    (t : Tape) :
  (state g = CATEGORY_SELECT ->
   handle_keydown K_1 unicode (g, m) t =
     Ok ((true, (set_state EDUCATION_GAME_SELECT
                   (set_selected_category (Some "education"%string) g), m)), t) /\
   handle_keydown K_2 unicode (g, m) t =
     Ok ((true, (set_state PYTHON_GAME_SELECT
                   (set_selected_category (Some "python"%string) g), m)), t)) /\
  (state g = EDUCATION_GAME_SELECT \/ state g = PYTHON_GAME_SELECT ->
   handle_keydown K_b unicode (g, m) t =
     Ok ((true, (set_state CATEGORY_SELECT g, m)), t)) /\
  (state g = EDUCATION_GAME_PLAYING ->
   forall go_on g' m' t',
     handle_keydown K_ESCAPE unicode (g, m) t = Ok ((go_on, (g', m')), t') ->
     g' = set_state EDUCATION_GAME_SELECT g) /\
  (state g = PYTHON_GAME_PLAYING ->
   forall go_on g' m' t',
     handle_keydown K_ESCAPE unicode (g, m) t = Ok ((go_on, (g', m')), t') ->
     g' = set_state PYTHON_GAME_SELECT g).
Proof.
  split; [|split; [|split]].
  - intros Es. unfold handle_keydown. rewrite Es. split; reflexivity.
  - intros [Es | Es]; unfold handle_keydown; rewrite Es; reflexivity.
  - intros Es go_on g' m' t' E. unfold handle_keydown in E. rewrite Es in E.
    unfold handle_education_game_input in E. inv_run. reflexivity.
  - intros Es go_on g' m' t' E. unfold handle_keydown in E. rewrite Es in E.
    unfold handle_python_game_input in E. inv_run. reflexivity.
Qed.

End Further.


Lemma throttled_tick_scenario_A :
  update_snake 150 scenario_A = Ok scenario_A /\
  run_frame (mkFrame [] 150 no_key) (scenario_A, tt) [] =
    Ok ((true, (scenario_A, tt)), []).
Proof.
  apply (throttled_tick_is_noop 150 no_key scenario_A tt []).
  - reflexivity.
  - cbn. lia.
Defined.

Lemma no_way_back_sample :
  run [mkFrame [KEYDOWN K_1 "1"; KEYDOWN K_1 "1"] 0 no_key;
       mkFrame [KEYDOWN K_ESCAPE ""; KEYDOWN K_b "b"; KEYDOWN K_p "p"] 100 no_key]
      (set_state CATEGORY_SELECT scenario_A_food, tt) [] =
    Ok ((set_current_education_game (Some "math_wizard"%string)
           (set_selected_category (Some "education"%string)
              (set_state CATEGORY_SELECT scenario_A_food)), tt), []) /\
  snake (set_current_education_game (Some "math_wizard"%string)
           (set_selected_category (Some "education"%string)
              (set_state CATEGORY_SELECT scenario_A_food))) =
  snake (set_state CATEGORY_SELECT scenario_A_food).
Proof.
  assert (E : run [mkFrame [KEYDOWN K_1 "1"; KEYDOWN K_1 "1"] 0 no_key;
       mkFrame [KEYDOWN K_ESCAPE ""; KEYDOWN K_b "b"; KEYDOWN K_p "p"] 100 no_key]
      (set_state CATEGORY_SELECT scenario_A_food, tt) [] =
    Ok ((set_current_education_game (Some "math_wizard"%string)
           (set_selected_category (Some "education"%string)
              (set_state CATEGORY_SELECT scenario_A_food)), tt), []))
    by (vm_compute; reflexivity).
  split; [exact E|].
  exact (proj1 (proj2 (no_way_back_to_board
                         _ (set_state CATEGORY_SELECT scenario_A_food)
                         _ _ _ _ _ eq_refl E))).
Defined.

Lemma selection_transitions_sample :
  handle_keydown K_1 "1" (set_state CATEGORY_SELECT scenario_A_food, tt) [] =
    Ok ((true, (set_state EDUCATION_GAME_SELECT
                  (set_selected_category (Some "education"%string)
                     (set_state CATEGORY_SELECT scenario_A_food)), tt)), []) /\
  handle_keydown K_b "b" (set_state PYTHON_GAME_SELECT scenario_A_food, tt) [] =
    Ok ((true, (set_state CATEGORY_SELECT
                  (set_state PYTHON_GAME_SELECT scenario_A_food), tt)), []).
Proof.
  split.
  - apply (selection_transitions (set_state CATEGORY_SELECT scenario_A_food)
             tt "1" []). reflexivity.
  - apply (selection_transitions (set_state PYTHON_GAME_SELECT scenario_A_food)
             tt "b" []). right. reflexivity.
Defined.


Lemma answer_question_ignored_sample :
  answer_question 7 sample_asked [5; 6] = Ok (sample_asked, [5; 6]) /\
  answer_question 4 sample_asked [5; 6] = Ok (sample_asked, [5; 6]) /\
  answer_question (-5) sample_game [5; 6] = Ok (sample_game, [5; 6]).
Proof.
  split; [|split].
  - apply (answer_question_ignored 7 sample_asked [5; 6]).
    right. exists sample_question. split; [reflexivity | cbn; lia].
  - apply (answer_question_ignored 4 sample_asked [5; 6]).
    right. exists sample_question. split; [reflexivity | cbn; lia].
  - apply (answer_question_ignored (-5) sample_game [5; 6]).
    left. reflexivity.
Defined.

Lemma movement_ignored_sample :
  handle_keydown K_UP "" (sample_game, tt) [] = Ok ((true, (sample_game, tt)), []) /\
  handle_keydown K_LEFT "" (set_state PAUSED scenario_A, tt) [] =
    Ok ((true, (set_state PAUSED scenario_A, tt)), []).
Proof.
  split.
  - apply (movement_ignored_in_menus UP "" sample_game tt []). reflexivity.
  - apply (movement_ignored_in_menus LEFT "" (set_state PAUSED scenario_A) tt []).
    reflexivity.
Defined.

Lemma answer_question_wrong_sample :
  answer_question 1 sample_asked [] =
  Ok (set_current_question None
        (set_streak 0
           (set_questions_total (questions_total sample_asked + 1) sample_asked)),
      []).
Proof.
  apply (answer_question_wrong 1 sample_asked sample_question []); reflexivity.
Defined.

(** ** The effects of keys, ticks and answers *)

Lemma Direction_eqb_eq (a b : Direction) : Direction_eqb a b = true <-> a = b.
Proof. destruct a, b; cbn; split; congruence. Qed.

Lemma same_board_shell (g g' : Game) :
  same_board g g' -> language g' = language g -> state g' = state g ->
  key_effect g g'.
Proof.
  intros Hb Hl Hs. apply ke_shell; [exact Hb | exact Hl | | left; exact Hs].
  rewrite Hs. reflexivity.
Qed.

Section Effects.

Context {Mini : Type} `{SubGames Mini}.

Ltac shell_effect Es :=
  apply ke_shell;
  [ unfold same_board; fields; repeat split
  | reflexivity
  | fields; rewrite ?Es; reflexivity
  | fields; rewrite ?Es;
    first [ left; reflexivity | right; repeat split; discriminate ] ].

Ltac turn_effect Es d :=
  match goal with
  | E : context [Direction_eqb (direction ?g) ?o] |- _ =>
      destruct (Direction_eqb (direction g) o) eqn:Eo; cbn [negb] in E; inv_run;
      [ shell_effect Es
      | apply (ke_turn g d); [exact Es |];
        intros Ed; apply Direction_eqb_eq in Ed; cbn [opposite] in Ed;
        congruence ]
  end.

(** Every key does one of the four things [key_effect] lists. *)
Lemma handle_keydown_effect (key : Key) (unicode : string) (g : Game) (m : Mini)
    (t : Tape) (go_on : bool) (g' : Game) (m' : Mini) (r : Tape) :
  handle_keydown key unicode (g, m) t = Ok ((go_on, (g', m')), r) ->
  key_effect g g'.
Proof.
  intros E. unfold handle_keydown in E.
  destruct (state g) eqn:Es.
  - (* MENU *)
    destruct key; inv_run; try shell_effect Es.
    + eapply ke_start; [left; exact Es | eassumption].
    + apply ke_language. exact Es.
  - (* PLAYING *)
    destruct key; try (inv_run; shell_effect Es).
    + turn_effect Es UP.
    + turn_effect Es DOWN.
    + turn_effect Es LEFT.
    + turn_effect Es RIGHT.
  - destruct key; inv_run; shell_effect Es.
  - destruct key; inv_run;
      try match goal with
          | E : start_education_game _ _ = Ok _ |- _ =>
              apply start_education_game_session in E; cbn [fst] in E; subst
          end;
      shell_effect Es.
  - unfold handle_education_game_input in E. inv_run.
    destruct key; inv_run; shell_effect Es.
  - destruct key; inv_run;
      try match goal with
          | E : start_python_game _ _ = Ok _ |- _ =>
              apply start_python_game_session in E; cbn [fst] in E; subst
          end;
      shell_effect Es.
  - unfold handle_python_game_input in E. inv_run.
    destruct key; inv_run; shell_effect Es.
  - (* GAME_OVER *)
    destruct key; inv_run; try shell_effect Es.
    eapply ke_start; [right; exact Es | unfold restart_game in *; eassumption].
  - destruct key; inv_run; shell_effect Es.
Qed.

End Effects.

Lemma update_snake_effect (now : Z) (g g' : Game) :
  update_snake now g = Ok g' -> tick_effect now g g'.
Proof.
  intros E.
  destruct (Z.lt_ge_cases (now - last_move_time g) (move_delay g)) as [Hlt | Hge].
  - rewrite update_snake_throttled in E by exact Hlt.
    inversion E; subst. apply te_throttled. exact Hlt.
  - destruct (snake g) as [|head body] eqn:Hs.
    + unfold update_snake in E. apply Z.ltb_ge in Hge. rewrite Hge in E.
      fields_in E. rewrite Hs in E. discriminate E.
    + rewrite (update_snake_moving now g head body Hge Hs) in E. cbv zeta in E.
      destruct (out_of_bounds (step head (next_direction g))) eqn:Eout.
      { inversion E; subst. eapply te_collision; [exact Hge | exact Hs |].
        left. apply out_of_bounds_true. exact Eout. }
      destruct (cell_in (step head (next_direction g)) (snake g)) eqn:Ein.
      { inversion E; subst. eapply te_collision; [exact Hge | exact Hs |].
        right. apply cell_in_In. exact Ein. }
      cbn [orb] in E.
      apply out_of_bounds_false in Eout. apply cell_in_not_In in Ein.
      destruct (food_pos g) as [f|] eqn:Ef.
      * destruct (Cell_eqb (step head (next_direction g)) f) eqn:Eeq.
        -- apply Cell_eqb_eq in Eeq. subst f. inversion E; subst.
           eapply te_eat; eassumption.
        -- inversion E; subst.
           eapply te_move; try eassumption.
           intros Ef'. rewrite Ef' in Ef. inversion Ef; subst.
           assert (Hrefl : Cell_eqb (step head (next_direction g))
                             (step head (next_direction g)) = true)
             by (apply Cell_eqb_eq; reflexivity).
           congruence.
      * inversion E; subst.
        eapply te_move; try eassumption. rewrite Ef. discriminate.
Qed.

Lemma generate_food_loop_Ok (cells : list Cell) (t : Tape) (c : Cell)
    (r : Tape) :
  generate_food_loop cells t = Ok (c, r) -> in_bounds c /\ ~ In c cells.
Proof.
  revert c r. induction t as [| x | x y t IH] using tape_pairs_ind;
    intros c r E; try discriminate.
  cbn [generate_food_loop] in E. destruct (negb _) eqn:En.
  - inversion E; subst. split; [apply drawn_cell_in_bounds|].
    apply negb_true_iff, cell_in_not_In in En. exact En.
  - eapply IH. exact E.
Qed.

Lemma py_index_last_eq {A} (l : list A) (a : A) :
  py_index l (-1) = Ok a -> exists front, l = front ++ [a].
Proof.
  unfold py_index. change (-1 <? 0) with true. cbv iota.
  destruct (_ || _) eqn:Eguard; [discriminate|].
  apply orb_false_iff in Eguard. destruct Eguard as [Elo _].
  apply Z.ltb_ge in Elo.
  destruct (nth_error l _) as [b|] eqn:En; [|discriminate].
  intros E. inversion E; subst; clear E.
  destruct (exists_last (l := l)) as (front & z & ->).
  { intros ->. cbn in Elo. lia. }
  exists front. rewrite length_app in En. cbn [length] in En.
  replace (Z.to_nat (-1 + Z.of_nat (length front + 1))) with (length front)
    in En by lia.
  rewrite nth_error_app2 in En by lia.
  rewrite Nat.sub_diag in En. cbn in En. congruence.
Qed.

(** An answer is ignored, or wrong, or right. *)
Lemma answer_question_effect (option_index : Z) (g : Game) (t : Tape)
    (g' : Game) (r : Tape) :
  answer_question option_index g t = Ok (g', r) ->
  g' = g \/ g' = answered_wrong g \/
  exists front tail c,
    snake g = front ++ [tail] /\ in_bounds c /\ ~ In c (snake g) /\
    g' = answered_right g tail c.
Proof.
  unfold answer_question. intros E.
  destruct (current_question g) as [q|]; [|inv_run; left; reflexivity].
  destruct (_ <=? _); [inv_run; left; reflexivity|].
  apply bind_Ok in E. destruct E as (selected & t1 & _ & E).
  apply bind_Ok in E. destruct E as (g1 & t2 & E & Elast).
  unfold ret in Elast. inversion Elast; subst; clear Elast.
  destruct (Value_eqb selected (answer q)).
  - right. right.
    apply bind_Ok in E. destruct E as (g2 & t3 & Egrow & E).
    apply bind_Ok in E. destruct E as (g3 & t4 & Efood & E).
    unfold lift in Egrow.
    destruct (grow_snake _) as [g2'| |] eqn:Eg; try discriminate.
    inversion Egrow; subst; clear Egrow.
    unfold grow_snake in Eg.
    destruct (py_index _ (-1)) as [tail| |] eqn:Etail; try discriminate.
    inversion Eg; subst; clear Eg. fields_in Etail.
    apply py_index_last_eq in Etail. destruct Etail as (front & Etail).
    unfold generate_food in Efood.
    apply bind_Ok in Efood. destruct Efood as (c & t5 & Eloop & Efood).
    unfold ret in Efood. inversion Efood; subst; clear Efood.
    fields_in Eloop.
    destruct (generate_food_loop_Ok _ _ _ _ Eloop) as [Hc_in Hc].
    exists front, tail, c. split; [exact Etail|]. split; [exact Hc_in|].
    split; [intros Hin; apply Hc; apply in_or_app; left; exact Hin|].
    unfold answered_right. fields. fields_in E.
    destruct (_ =? 0); inv_run; reflexivity.
  - right. left. inv_run. reflexivity.
Qed.

Section Frames.

Context {Mini : Type} `{SubGames Mini}.

(** The keys of a frame, one after the other. *)
Lemma handle_input_effect (P : Game -> Prop) (evs : list Event) (g : Game)
    (m : Mini) (t : Tape) (running : bool) (g' : Game) (m' : Mini) (r : Tape) :
  (forall g1 g2, P g1 -> key_effect g1 g2 -> P g2) ->
  P g ->
  handle_input evs (g, m) t = Ok ((running, (g', m')), r) ->
  P g'.
Proof.
  intros Hkey. revert g m t. induction evs as [|ev rest IH]; intros g m t Pg E.
  - cbn in E. inv_run. exact Pg.
  - destruct ev as [|key unicode|]; cbn [handle_input] in E.
    + inv_run. exact Pg.
    + apply bind_Ok in E. destruct E as ([go_on [g1 m1]] & t1 & Ekey & E).
      apply handle_keydown_effect in Ekey.
      pose proof (Hkey _ _ Pg Ekey) as Pg1.
      destruct go_on; [eapply IH; eassumption | inv_run; exact Pg1].
    + eapply IH; eassumption.
Qed.

(** A frame: its keys, then a tick when the mode is PLAYING. *)
Lemma run_frame_effect (P : Game -> Prop) (f : Frame) (g : Game) (m : Mini)
    (t : Tape) (running : bool) (g' : Game) (m' : Mini) (r : Tape) :
  (forall g1 g2, P g1 -> key_effect g1 g2 -> P g2) ->
  (forall now g1 g2, P g1 -> state g1 = PLAYING -> tick_effect now g1 g2 -> P g2) ->
  P g ->
  run_frame f (g, m) t = Ok ((running, (g', m')), r) ->
  P g'.
Proof.
  intros Hkey Htick Pg E. unfold run_frame in E.
  apply bind_Ok in E. destruct E as ([go [g1 m1]] & t1 & Ein & E).
  pose proof (handle_input_effect P _ _ _ _ _ _ _ _ Hkey Pg Ein) as Pg1.
  destruct (state g1) eqn:Es; try (inv_run; exact Pg1).
  - apply bind_Ok in E. destruct E as (g2 & t2 & Eupd & E).
    unfold ret in E. inversion E; subst; clear E.
    unfold lift in Eupd.
    destruct (update_snake (ticks f) g1) as [g3| |] eqn:Eg3; try discriminate.
    inversion Eupd; subst.
    eapply Htick; [exact Pg1 | exact Es | apply update_snake_effect; exact Eg3].
  - destruct (name_in _ updated_python_games); inv_run; exact Pg1.
Qed.

End Frames.

Lemma init_effect (t : Tape) (g : Game) (r : Tape) :
  init t = Ok (g, r) ->
  exists c, in_bounds c /\ c <> center /\ g = set_food_pos (Some c) defaults.
Proof.
  intros E.
  destruct (result_ok _ _ (generate_food_Returns defaults
             (ex_intro _ (0, 0) origin_free_at_start)) _ _ _ E)
    as (c & -> & Hc_in & Hc).
  exists c. split; [exact Hc_in|]. split; [|reflexivity].
  intros ->. apply Hc. left. reflexivity.
Qed.

(** To show that a property holds in every reachable session: it holds
    after [__init__], and keys, ticks and answers keep it. *)
Lemma reachable_invariant (P : Game -> Prop) :
  (forall c, in_bounds c -> c <> center -> P (set_food_pos (Some c) defaults)) ->
  (forall g1 g2, P g1 -> key_effect g1 g2 -> P g2) ->
  (forall now g1 g2, P g1 -> state g1 = PLAYING -> tick_effect now g1 g2 -> P g2) ->
  (forall q g1, P g1 -> P (asked q g1)) ->
  (forall g1, P g1 -> P (answered_wrong g1)) ->
  (forall g1 front tail c, P g1 -> snake g1 = front ++ [tail] -> in_bounds c ->
                           ~ In c (snake g1) -> P (answered_right g1 tail c)) ->
  forall g, reachable g -> P g.
Proof.
  intros Hinit Hkey Htick Hask Hwrong Hright.
  induction 1 as [t g r E | Mini games f g m t running g' m' r _ IH E
                  | q i g t g' r _ IH E].
  - destruct (init_effect _ _ _ E) as (c & Hc_in & Hc & ->). auto.
  - eapply run_frame_effect; eassumption.
  - apply answer_question_effect in E.
    destruct E as [-> | [-> | (front & tail & c & Htail & Hc_in & Hc & ->)]].
    + apply Hask. exact IH.
    + apply Hwrong. apply Hask. exact IH.
    + eapply Hright; try eassumption. apply Hask. exact IH.
Qed.


(** ** Invariants of the session *)

Lemma start_game_effect (g : Game) (t : Tape) (g' : Game) (r : Tape) :
  start_game g t = Ok (g', r) ->
  freshly_started g' /\ best_streak g' = best_streak g /\
  move_delay g' = move_delay g /\ last_move_time g' = last_move_time g /\
  language g' = language g /\ current_question g' = current_question g /\
  question_answered g' = question_answered g.
Proof. intros E. exact (result_ok _ _ (start_game_Returns g) _ _ _ E). Qed.

Ltac read_same_board H :=
  let Hsn := fresh "Hsn" in let Hfo := fresh "Hfo" in
  let Hdi := fresh "Hdi" in let Hnd := fresh "Hnd" in
  let Hcq := fresh "Hcq" in let Hqa := fresh "Hqa" in
  let Hsc := fresh "Hsc" in let Hle := fresh "Hle" in
  let Hqc := fresh "Hqc" in let Hqt := fresh "Hqt" in
  let Hst := fresh "Hst" in let Hbs := fresh "Hbs" in
  let Hlm := fresh "Hlm" in let Hmd := fresh "Hmd" in
  destruct H as (Hsn & Hfo & Hdi & Hnd & Hcq & Hqa & Hsc & Hle & Hqc & Hqt
                 & Hst & Hbs & Hlm & Hmd).

Ltac read_fresh H :=
  let Fst := fresh "Fst" in let Fsn := fresh "Fsn" in
  let Fdi := fresh "Fdi" in let Fnd := fresh "Fnd" in
  let Fsc := fresh "Fsc" in let Fle := fresh "Fle" in
  let Fqc := fresh "Fqc" in let Fqt := fresh "Fqt" in
  let Fsk := fresh "Fsk" in let Ffo := fresh "Ffo" in
  destruct H as (Fst & Fsn & Fdi & Fnd & Fsc & Fle & Fqc & Fqt & Fsk & _ & _
                 & _ & Ffo).

Lemma reachable_pending_turn (g : Game) :
  reachable g -> next_direction g <> opposite (direction g).
Proof.
  revert g.
  apply (reachable_invariant
           (fun g => next_direction g <> opposite (direction g))).
  - intros c _ _. fields. discriminate.
  - intros g1 g2 P1 K. inversion K; subst.
    + read_same_board H. rewrite Hdi, Hnd. exact P1.
    + fields. exact P1.
    + fields. destruct d, (direction g1); cbn in *; congruence.
    + apply start_game_effect in H0. destruct H0 as (Hf & _). read_fresh Hf.
      rewrite Fdi, Fnd. discriminate.
  - intros now g1 g2 P1 _ T. destruct T; fields; try exact P1;
      destruct (next_direction g1); discriminate.
  - intros q g1 P1. fields. exact P1.
  - intros g1 P1. unfold answered_wrong. fields. exact P1.
  - intros g1 front tail c P1 _ _ _. unfold answered_right. fields.
    destruct (_ =? 0); fields; exact P1.
Qed.

(** In every reachable session the pending turn is not the reverse of the
    heading, so no tick turns the snake round: the heading after a tick is
    never the opposite of the heading before it. *)
Theorem heading_never_reverses (now : Z) (g g' : Game) :
  reachable g ->
  update_snake now g = Ok g' ->
  next_direction g <> opposite (direction g) /\
  direction g' <> opposite (direction g) /\
  next_direction g' <> opposite (direction g').
Proof.
  intros Hreach E. pose proof (reachable_pending_turn g Hreach) as Hp.
  split; [exact Hp|].
  apply update_snake_effect in E.
  destruct E; fields.
  - split; [destruct (direction g); discriminate | exact Hp].
  - split; [exact Hp | destruct (next_direction g); discriminate].
  - split; [exact Hp | destruct (next_direction g); discriminate].
  - split; [exact Hp | destruct (next_direction g); discriminate].
Qed.

Lemma defaults_scoring_ok (c : Cell) : scoring_ok (set_food_pos (Some c) defaults).
Proof. unfold scoring_ok. fields. cbn. lia. Qed.

(** In every reachable session: the move delay is between 100 and 200 ms,
    the level is one more than the number of right answers of the round
    divided by five, the right answers are at most the attempts, the streak
    is at most the best streak and at most the right answers, and every
    right answer is worth between 12 and 30 points. *)
Theorem scoring_invariants (g : Game) : reachable g -> scoring_ok g.
Proof.
  revert g. apply (reachable_invariant scoring_ok).
  - intros c _ _. apply defaults_scoring_ok.
  - intros g1 g2 P1 K. unfold scoring_ok in *. inversion K; subst.
    + read_same_board H. rewrite Hmd, Hle, Hqc, Hqt, Hst, Hbs, Hsc. exact P1.
    + fields. exact P1.
    + fields. exact P1.
    + apply start_game_effect in H0.
      destruct H0 as (Hf & Hbs & Hmd & _). read_fresh Hf.
      rewrite Hmd, Hbs, Fle, Fqc, Fqt, Fsk, Fsc. cbn. lia.
  - intros now g1 g2 P1 _ T. unfold scoring_ok in *.
    destruct T; fields; exact P1.
  - intros q g1 P1. unfold scoring_ok in *. fields. exact P1.
  - intros g1 P1. unfold scoring_ok, answered_wrong in *. fields. lia.
  - intros g1 front tail c P1 _ _ _. unfold scoring_ok, answered_right in *.
    fields.
    destruct (Z.eqb_spec ((questions_correct g1 + 1) mod 5) 0) as [E5 | E5];
      fields; repeat split; try lia;
      Z.div_mod_to_equations; lia.
Qed.

Lemma near_step (head : Cell) (d : Direction) : near (step head d) head.
Proof. unfold near, step. destruct d; cbn [value fst snd]; lia. Qed.

Lemma near_refl (a : Cell) : near a a.
Proof. unfold near. lia. Qed.

Lemma linked_removelast (l : list Cell) : linked l -> linked (removelast l).
Proof.
  induction l as [|a l IH]; [trivial|].
  destruct l as [|b l]; [trivial|].
  intros [Hab Hl]. specialize (IH Hl).
  destruct l as [|c l]; [exact I|].
  split; [exact Hab | exact IH].
Qed.

Lemma linked_repeat_last (front : list Cell) (a : Cell) :
  linked (front ++ [a]) -> linked ((front ++ [a]) ++ [a]).
Proof.
  induction front as [|b front IH]; intros Hl.
  - split; [apply near_refl | exact I].
  - destruct front as [|c front].
    + cbn in Hl |- *. destruct Hl as [Hba _].
      split; [exact Hba|]. split; [apply near_refl | exact I].
    + destruct Hl as [Hbc Hl]. split; [exact Hbc | apply IH; exact Hl].
Qed.

(** In every reachable session each cell of the snake is a grid neighbour
    of the next one, or the same cell when growth repeated the tail. *)
Theorem snake_is_linked (g : Game) : reachable g -> linked (snake g).
Proof.
  revert g. apply (reachable_invariant (fun g => linked (snake g))).
  - intros c _ _. exact I.
  - intros g1 g2 P1 K. inversion K; subst.
    + read_same_board H. rewrite Hsn. exact P1.
    + fields. exact P1.
    + fields. exact P1.
    + apply start_game_effect in H0. destruct H0 as (Hf & _). read_fresh Hf.
      rewrite Fsn. exact I.
  - intros now g1 g2 P1 _ T. destruct T; fields; try exact P1.
    + rewrite H0 in *. split; [apply near_step | exact P1].
    + rewrite H0 in *. destruct body as [|b body].
      * exact I.
      * change (removelast (head :: b :: body))
          with (head :: removelast (b :: body)).
        split; [apply near_step|].
        apply (linked_removelast (head :: b :: body)). exact P1.
  - intros q g1 P1. fields. exact P1.
  - intros g1 P1. unfold answered_wrong. fields. exact P1.
  - intros g1 front tail c P1 Hs _ _. unfold answered_right. fields.
    assert (Hl : linked (snake g1 ++ [tail])).
    { rewrite Hs in *. apply linked_repeat_last. exact P1. }
    destruct (_ =? 0); fields; exact Hl.
Qed.

(** In every reachable session the food is on a cell of the grid; while the
    snake is on the board (MENU, PLAYING, PAUSED, GAME_OVER) no cell of the
    snake is the food cell, and from the food hit on the food cell is the
    head of the snake. *)
Theorem food_invariant (g : Game) : reachable g -> food_ok g.
Proof.
  revert g. apply (reachable_invariant food_ok).
  - intros c Hc_in Hc. exists c. fields. split; [reflexivity|].
    split; [exact Hc_in|]. cbn. intros [E | []]. apply Hc. symmetry. exact E.
  - intros g1 g2 (c & Hf & Hc_in & Hc) K. inversion K; subst.
    + read_same_board H. exists c. rewrite Hfo, Hsn, H1.
      split; [exact Hf|]. split; [exact Hc_in | exact Hc].
    + exists c. fields. rewrite H in *. auto.
    + exists c. fields. rewrite H in *. auto.
    + apply start_game_effect in H0. destruct H0 as (Hfr & _). read_fresh Hfr.
      destruct Ffo as (c' & Hf' & Hc'_in & Hc').
      exists c'. rewrite Fst, Fsn. cbn [away_from_board].
      split; [exact Hf'|]. split; [exact Hc'_in|].
      intros [E | []]. apply Hc'. symmetry. exact E.
  - intros now g1 g2 (c & Hf & Hc_in & Hc) Es T. rewrite Es in Hc.
    cbn [away_from_board] in Hc.
    destruct T; exists c; fields; rewrite ?Es; cbn [away_from_board].
    + auto.
    + auto.
    + split; [exact Hf|]. split; [exact Hc_in|].
      rewrite Hf in H3. inversion H3; subst. eexists. reflexivity.
    + split; [exact Hf|]. split; [exact Hc_in|].
      intros [E | Hin].
      * apply H3. rewrite Hf, E. reflexivity.
      * apply Hc. apply In_removelast. exact Hin.
  - intros q g1 P1. exact P1.
  - intros g1 P1. exact P1.
  - intros g1 front tail c _ Hs Hc_in Hc. exists c. unfold answered_right.
    fields.
    assert (Hc' : ~ In c (snake g1 ++ [tail])).
    { intros Hin. apply in_app_or in Hin. destruct Hin as [Hin | [<- | []]].
      - contradiction.
      - apply Hc. rewrite Hs. apply in_or_app. right. left. reflexivity. }
    destruct (_ =? 0); fields; cbn [away_from_board]; auto.
Qed.

(** ** What [run] alone can reach *)



Section Quit.

Context {Mini : Type} `{SubGames Mini}.

Lemma handle_keydown_stop (key : Key) (unicode : string) (g : Game) (m : Mini)
    (t : Tape) (g' : Game) (m' : Mini) (r : Tape) :
  handle_keydown key unicode (g, m) t = Ok ((false, (g', m')), r) ->
  key = K_q /\ state g = GAME_OVER /\ g' = g /\ m' = m /\ r = t.
Proof.
  intros E.
  destruct (away_from_board (state g)) eqn:Eaway.
  - apply handle_keydown_away in E; [|exact Eaway].
    destruct E as (_ & _ & E). discriminate E.
  - unfold handle_keydown in E.
    destruct (state g) eqn:Es; try discriminate Eaway; destruct key;
      try (destruct (negb _)); inv_run; auto.
Qed.

(** [handle_input] returns [False] only for the QUIT event of the window or
    for the Q key on the game-over screen; in the second case the session is
    the one the earlier events of the frame left. The Q key in any other
    mode does not end the loop. *)
Theorem quit_only_on_request (evs : list Event) (g : Game) (m : Mini)
    (t : Tape) (g' : Game) (m' : Mini) (r : Tape) :
  handle_input evs (g, m) t = Ok ((false, (g', m')), r) ->
  In QUIT evs \/
  (state g' = GAME_OVER /\ exists unicode, In (KEYDOWN K_q unicode) evs).
Proof.
  revert g m t. induction evs as [|ev rest IH]; intros g m t E.
  - cbn in E. inv_run.
  - destruct ev as [|key unicode|]; cbn [handle_input] in E.
    + left. left. reflexivity.
    + apply bind_Ok in E. destruct E as ([go_on [g1 m1]] & t1 & Ekey & E).
      destruct go_on.
      * apply IH in E. destruct E as [Hq | (Hs & u & Hu)].
        -- left. right. exact Hq.
        -- right. split; [exact Hs|]. exists u. right. exact Hu.
      * inv_run. apply handle_keydown_stop in Ekey.
        destruct Ekey as (-> & Hs & -> & _ & _).
        right. split; [exact Hs|]. exists unicode. left. reflexivity.
    + apply IH in E. destruct E as [Hq | (Hs & u & Hu)].
      * left. right. exact Hq.
      * right. split; [exact Hs|]. exists u. right. exact Hu.
Qed.

End Quit.

(** ** The question bank *)

Lemma question_from_Returns (P : Question -> Prop) (questions : list Entry)
    (tier : Z) (tag : string) :
  questions <> [] ->
  (forall text right opts,
     In (text, right, opts) questions ->
     P (mkQuestion text (VStr right) (map VStr opts) tier tag)) ->
  Returns P (question_from questions tier tag).
Proof.
  intros Hne Hall. unfold question_from.
  eapply Returns_bind; [apply Returns_choice; exact Hne|].
  intros [[text right] opts] Hin. apply Returns_ret. apply Hall. exact Hin.
Qed.

Ltac distinct_values :=
  repeat (constructor; [cbn [In]; intuition congruence|]); constructor.

Ltac first_option :=
  unfold first_option_right; cbn [options map length];
  split; [reflexivity|]; split; [distinct_values|];
  repeat split; reflexivity.

Ltac each_entry H :=
  cbv [In science_questions geography_questions history_questions
       language_questions] in H;
  repeat match type of H with
         | _ \/ _ => destruct H as [H | H]
         | False => destruct H
         | _ = _ => inversion H; subst; clear H
         end.

Lemma first_option_in (q : Question) :
  first_option_right q -> In (answer q) (options q).
Proof.
  intros (Hlen & _ & Hpick & _). unfold picks_answer in Hpick.
  apply andb_true_iff in Hpick. destruct Hpick as [_ Hpick].
  destruct (py_index (options q) 0) as [selected| |] eqn:Ei; try discriminate.
  apply py_index_In in Ei.
  destruct selected as [x|x], (answer q) as [y|y]; cbn in Hpick;
    try discriminate.
  - apply Z.eqb_eq in Hpick. subst. exact Ei.
  - apply String.eqb_eq in Hpick. subst. exact Ei.
Qed.

Lemma table_question_Returns (questions : list Entry) (tier : Z) (tag : string) :
  questions <> [] ->
  (forall text right opts,
     In (text, right, opts) questions ->
     first_option_right (mkQuestion text (VStr right) (map VStr opts) tier tag)) ->
  Returns (fun q => difficulty q = tier /\ subject q = tag /\
                    first_option_right q)
          (question_from questions tier tag).
Proof.
  intros Hne Hall. apply question_from_Returns; [exact Hne|].
  intros text right opts Hin. cbn [difficulty subject].
  split; [reflexivity|]. split; [reflexivity|]. apply Hall. exact Hin.
Qed.

Lemma science_Returns (tier : Z) :
  Returns (fun q => difficulty q = tier /\ subject q = "science"%string /\
                    first_option_right q)
          (generate_science_question tier).
Proof.
  apply table_question_Returns; [discriminate|].
  intros text right opts Hin. each_entry Hin; first_option.
Qed.

Lemma geography_Returns (tier : Z) :
  Returns (fun q => difficulty q = tier /\ subject q = "geography"%string /\
                    first_option_right q)
          (generate_geography_question tier).
Proof.
  apply table_question_Returns; [discriminate|].
  intros text right opts Hin. each_entry Hin; first_option.
Qed.

Lemma history_Returns (tier : Z) :
  Returns (fun q => difficulty q = tier /\ subject q = "history"%string /\
                    first_option_right q)
          (generate_history_question tier).
Proof.
  apply table_question_Returns; [discriminate|].
  intros text right opts Hin. each_entry Hin; first_option.
Qed.

Lemma language_Returns (tier : Z) :
  Returns (fun q => difficulty q = tier /\ subject q = "language"%string /\
                    first_option_right q)
          (generate_language_question tier).
Proof.
  apply table_question_Returns; [discriminate|].
  intros text right opts Hin. each_entry Hin; first_option.
Qed.



Lemma NoDup_map_VInt (l : list Z) : NoDup l -> NoDup (map VInt l).
Proof.
  induction 1 as [|a l Hin _ IH]; cbn [map]; constructor; [|exact IH].
  intros Hm. apply in_map_iff in Hm. destruct Hm as (b & Eb & Hb).
  inversion Eb; subst. contradiction.
Qed.

Lemma generate_math_question_tagged (tier : Z) :
  Returns (fun q => math_question_ok q /\ difficulty q = tier /\
                    subject q = "math"%string)
          (generate_math_question tier).
Proof.
  unfold generate_math_question.
  eapply Returns_bind; [apply math_problem_Returns|].
  intros [text a] Ha. cbn [snd] in Ha.
  eapply Returns_bind.
  - apply wrong_options_Returns; [exact Ha | left; reflexivity | |
      repeat constructor; exact Ha | cbn [length]; lia].
    repeat constructor. intros [].
  - intros opts (Hlen & Hnd & Hpos & Hin).
    eapply Returns_bind; [apply shuffle_Returns|].
    intros shuffled Hperm. apply Returns_ret.
    split; [|split; reflexivity].
    exists a, shuffled. cbn [answer options].
    split; [reflexivity|]. split; [reflexivity|]. split; [exact Ha|].
    split; [rewrite <- (Permutation_length Hperm); exact Hlen|].
    split; [eapply Permutation_NoDup; eassumption|].
    split; [eapply Permutation_Forall; eassumption|].
    eapply Permutation_in; eassumption.
Qed.

(** [generate_education_question] draws one of the five subjects and hands
    over to its generator: whatever the tier and the draws it raises
    nothing, and a question it returns carries the tier, one of the five
    subject tags, and four pairwise distinct options with the answer among
    them. *)
Theorem education_question_well_formed (tier : Z) :
  Returns (question_ok tier) (generate_education_question tier).
Proof.
  unfold generate_education_question.
  eapply Returns_bind; [apply Returns_choice; discriminate|].
  intros tag _.
  assert (Htable : forall q name,
            In name subjects ->
            difficulty q = tier /\ subject q = name /\ first_option_right q ->
            question_ok tier q).
  { intros q name Hname (Hd & Hs & Hf). unfold question_ok.
    split; [exact Hd|]. split; [rewrite Hs; exact Hname|].
    destruct Hf as (Hlen & Hnd & Hrest).
    split; [exact Hlen|]. split; [exact Hnd|].
    apply first_option_in. unfold first_option_right. tauto. }
  destruct (String.eqb tag "math").
  { eapply Returns_weaken; [|apply generate_math_question_tagged].
    cbv beta. intros q ((a & opts & Ea & Eo & Ha & Hlen & Hnd & _ & Hin) & Hd & Hs).
    unfold question_ok. split; [exact Hd|].
    split; [rewrite Hs; left; reflexivity|].
    rewrite Eo, Ea. split; [rewrite length_map; exact Hlen|].
    split; [apply NoDup_map_VInt; exact Hnd | apply in_map; exact Hin]. }
  destruct (String.eqb tag "science").
  { eapply Returns_weaken; [|apply science_Returns].
    intros q Hq. apply (Htable q "science"%string); [cbn; tauto | exact Hq]. }
  destruct (String.eqb tag "geography").
  { eapply Returns_weaken; [|apply geography_Returns].
    intros q Hq. apply (Htable q "geography"%string); [cbn; tauto | exact Hq]. }
  destruct (String.eqb tag "history").
  { eapply Returns_weaken; [|apply history_Returns].
    intros q Hq. apply (Htable q "history"%string); [cbn; tauto | exact Hq]. }
  eapply Returns_weaken; [|apply language_Returns].
  intros q Hq. apply (Htable q "language"%string); [cbn; tauto | exact Hq].
Qed.

Lemma py_index_four {A} (a b c d : A) :
  py_index [a; b; c; d] 0 = Ok a /\ py_index [a; b; c; d] 1 = Ok b /\
  py_index [a; b; c; d] 2 = Ok c /\ py_index [a; b; c; d] 3 = Ok d.
Proof. repeat split; reflexivity. Qed.

Lemma Value_eqb_VInt (x y : Z) : Value_eqb (VInt x) (VInt y) = (x =? y).
Proof. reflexivity. Qed.

(** Among four pairwise distinct integer options holding the answer, one
    index picks the answer and the other three pick a wrong option. *)
Lemma one_right_among_four (q : Question) (a o0 o1 o2 o3 : Z) :
  answer q = VInt a -> options q = map VInt [o0; o1; o2; o3] ->
  NoDup [o0; o1; o2; o3] -> In a [o0; o1; o2; o3] ->
  exists i, 0 <= i < 4 /\ picks_answer q i = true /\
            forall j, 0 <= j < 4 -> j <> i -> picks_wrong q j = true.
Proof.
  intros Ea Eo Hnd Hin.
  assert (Hd : o0 <> o1 /\ o0 <> o2 /\ o0 <> o3 /\ o1 <> o2 /\ o1 <> o3 /\
               o2 <> o3).
  { inversion Hnd as [|? ? H0 Hnd1]; subst.
    inversion Hnd1 as [|? ? H1 Hnd2]; subst.
    inversion Hnd2 as [|? ? H2 _]; subst.
    cbn [In] in H0, H1, H2. repeat split; intros ->; tauto. }
  destruct Hd as (H01 & H02 & H03 & H12 & H13 & H23).
  destruct (py_index_four (VInt o0) (VInt o1) (VInt o2) (VInt o3))
    as (I0 & I1 & I2 & I3).
  assert (Hcases : forall j, 0 <= j < 4 -> j = 0 \/ j = 1 \/ j = 2 \/ j = 3)
    by (intros; lia).
  unfold picks_answer, picks_wrong. rewrite Eo, Ea. cbn [map length].
  change (Z.of_nat 4) with 4.
  destruct Hin as [<- | [<- | [<- | [<- | []]]]];
    [exists 0 | exists 1 | exists 2 | exists 3];
    (split; [lia|]; split;
     [ rewrite ?I0, ?I1, ?I2, ?I3, Value_eqb_VInt, Z.eqb_refl; reflexivity
     | intros j Hj Hne;
       destruct (Hcases j Hj) as [-> | [-> | [-> | ->]]];
       try congruence;
       rewrite ?I0, ?I1, ?I2, ?I3, Value_eqb_VInt;
       cbn [Z.ltb Z.compare Pos.compare Pos.compare_cont andb];
       apply negb_true_iff, Z.eqb_neq; congruence ]).
Qed.

(** A math question has exactly one right option: one index among 0..3
    picks the answer and the other three pick a wrong option. *)
Theorem math_question_one_right_option (tier : Z) (t : Tape) (q : Question)
    (r : Tape) :
  generate_math_question tier t = Ok (q, r) ->
  exists i, 0 <= i < 4 /\ picks_answer q i = true /\
            forall j, 0 <= j < 4 -> j <> i -> picks_wrong q j = true.
Proof.
  intros E.
  apply (result_ok _ _ (generate_math_question_Returns tier)) in E.
  destruct E as (a & opts & Ea & Eo & _ & Hlen & Hnd & _ & Hin).
  destruct opts as [|o0 [|o1 [|o2 [|o3 [|]]]]]; try discriminate Hlen.
  eapply one_right_among_four; eassumption.
Qed.


(** ** Sample sessions of the invariants *)

Lemma first_frame :
  run_frame (mkFrame [KEYDOWN K_SPACE " "] 100 no_key) (sample_game, tt) [7; 8] =
    Ok ((true, (started, tt)), []).
Proof. vm_compute. reflexivity. Defined.

Lemma started_reachable : reachable started.
Proof.
  exact (reach_frame unit no_sub_games _ _ _ _ _ _ _ _
           sample_game_reachable first_frame).
Defined.


Lemma started_tick : update_snake 250 started = Ok started_moved.
Proof. vm_compute. reflexivity. Defined.

Lemma right_answer_reachable (g1 : Game) :
  answer_question 0 (asked sample_question sample_game) [5; 6] = Ok (g1, []) ->
  reachable g1.
Proof.
  intros E.
  exact (reach_answer sample_question 0 sample_game [5; 6] g1 []
           sample_game_reachable E).
Defined.

Lemma heading_never_reverses_sample :
  reachable started /\ update_snake 250 started = Ok started_moved /\
  next_direction started <> opposite (direction started) /\
  direction started_moved <> opposite (direction started) /\
  next_direction started_moved <> opposite (direction started_moved).
Proof.
  split; [exact started_reachable|]. split; [exact started_tick|].
  exact (heading_never_reverses 250 started started_moved
           started_reachable started_tick).
Defined.

Lemma scoring_invariants_sample :
  exists g1,
    answer_question 0 (asked sample_question sample_game) [5; 6] = Ok (g1, []) /\
    score g1 = 12 /\ scoring_ok g1.
Proof.
  eexists. split; [vm_compute; reflexivity|]. split; [reflexivity|].
  apply scoring_invariants. apply right_answer_reachable.
  vm_compute. reflexivity.
Defined.

Lemma snake_is_linked_sample :
  exists g1,
    answer_question 0 (asked sample_question sample_game) [5; 6] = Ok (g1, []) /\
    snake g1 = [(20, 15); (20, 15)] /\ linked (snake g1).
Proof.
  eexists. split; [vm_compute; reflexivity|]. split; [reflexivity|].
  apply snake_is_linked. apply right_answer_reachable.
  vm_compute. reflexivity.
Defined.

Lemma food_invariant_sample : reachable started /\ food_ok started.
Proof.
  split; [exact started_reachable|].
  exact (food_invariant started started_reachable).
Defined.


Lemma quit_only_on_request_sample :
  handle_input [KEYDOWN K_UP " "; KEYDOWN K_q "q"; KEYDOWN K_r "r"]
      (game_over started, tt) [] =
    Ok ((false, (game_over started, tt)), []) /\
  (In QUIT [KEYDOWN K_UP " "; KEYDOWN K_q "q"; KEYDOWN K_r "r"] \/
   (state (game_over started) = GAME_OVER /\
    exists unicode,
      In (KEYDOWN K_q unicode)
         [KEYDOWN K_UP " "; KEYDOWN K_q "q"; KEYDOWN K_r "r"])).
Proof.
  assert (E : handle_input [KEYDOWN K_UP " "; KEYDOWN K_q "q"; KEYDOWN K_r "r"]
                (game_over started, tt) [] =
              Ok ((false, (game_over started, tt)), []))
    by (vm_compute; reflexivity).
  split; [exact E|].
  exact (quit_only_on_request _ _ _ _ _ _ _ E).
Defined.

Lemma math_question_one_right_option_sample :
  generate_math_question 2 [6; 4; 0; 13; 13; 10; 8; 5; 1; 0; 0; 99] =
    Ok (mkQuestion "7 + 5 = ?" (VInt 12) [VInt 7; VInt 10; VInt 12; VInt 15]
          2 "math", [99]) /\
  exists i, 0 <= i < 4 /\
    picks_answer
      (mkQuestion "7 + 5 = ?" (VInt 12) [VInt 7; VInt 10; VInt 12; VInt 15]
         2 "math") i = true /\
    forall j, 0 <= j < 4 -> j <> i ->
      picks_wrong
        (mkQuestion "7 + 5 = ?" (VInt 12) [VInt 7; VInt 10; VInt 12; VInt 15]
           2 "math") j = true.
Proof.
  assert (E : generate_math_question 2 [6; 4; 0; 13; 13; 10; 8; 5; 1; 0; 0; 99] =
    Ok (mkQuestion "7 + 5 = ?" (VInt 12) [VInt 7; VInt 10; VInt 12; VInt 15]
          2 "math", [99]))
    by (vm_compute; reflexivity).
  split; [exact E|].
  exact (math_question_one_right_option _ _ _ _ E).
Defined.

(** ** Tic-Tac-Toe *)

Lemma set_nth_length {A} (n : nat) (a : A) (l : list A) :
  length (set_nth n a l) = length l.
Proof.
  revert n. induction l as [|b l IH]; intros [|n]; cbn; try reflexivity.
  rewrite IH. reflexivity.
Qed.

Lemma nth_error_set_nth_same {A} (n : nat) (a : A) (l : list A) :
  (n < length l)%nat -> nth_error (set_nth n a l) n = Some a.
Proof.
  revert n. induction l as [|b l IH]; intros [|n] Hn; cbn in *; try lia.
  - reflexivity.
  - apply IH. lia.
Qed.

Lemma nth_error_set_nth_other {A} (n m : nat) (a : A) (l : list A) :
  n <> m -> nth_error (set_nth n a l) m = nth_error l m.
Proof.
  revert n m. induction l as [|b l IH]; intros [|n] [|m] Hne; cbn;
    try reflexivity; try congruence.
  apply IH. congruence.
Qed.

Lemma py_index_nonneg {A} (l : list A) (i : Z) :
  0 <= i ->
  py_index l i = match nth_error l (Z.to_nat i) with
                 | Some a => Ok a
                 | None => Raise IndexError
                 end.
Proof.
  intros Hi. unfold py_index.
  assert (E0 : (i <? 0) = false) by (apply Z.ltb_ge; lia).
  rewrite !E0. cbn [orb].
  destruct (Z.leb_spec (Z.of_nat (length l)) i) as [Hge | Hlt]; [|reflexivity].
  replace (nth_error l (Z.to_nat i)) with (@None A); [reflexivity|].
  symmetry. apply nth_error_None. lia.
Qed.

Lemma py_index_set_same {A} (l : list A) (pos : Z) (a : A) :
  0 <= pos < Z.of_nat (length l) ->
  py_index (set_nth (Z.to_nat pos) a l) pos = Ok a.
Proof.
  intros Hp. rewrite py_index_nonneg by lia.
  rewrite nth_error_set_nth_same by lia. reflexivity.
Qed.

Lemma py_index_set_other {A} (l : list A) (pos i : Z) (a : A) :
  0 <= pos -> 0 <= i -> i <> pos ->
  py_index (set_nth (Z.to_nat pos) a l) i = py_index l i.
Proof.
  intros Hp Hi Hne. rewrite !py_index_nonneg by lia.
  rewrite nth_error_set_nth_other by lia. reflexivity.
Qed.

Lemma py_setitem_in_range {A} (l : list A) (pos : Z) (a : A) :
  0 <= pos < Z.of_nat (length l) ->
  py_setitem l pos a = Ok (set_nth (Z.to_nat pos) a l).
Proof.
  intros Hp. unfold py_setitem.
  assert (E0 : (pos <? 0) = false) by (apply Z.ltb_ge; lia).
  rewrite !E0.
  replace (Z.of_nat (length l) <=? pos) with false
    by (symmetry; apply Z.leb_gt; lia).
  reflexivity.
Qed.

Lemma Forall_set_nth {A} (P : A -> Prop) (n : nat) (a : A) (l : list A) :
  P a -> Forall P l -> Forall P (set_nth n a l).
Proof.
  intros Ha Hl. revert n. induction Hl as [|b l Hb Hl IH]; intros [|n]; cbn;
    constructor; auto.
Qed.

Lemma marks_set_nth (l : list string) (n : nat) (old a x : string) :
  nth_error l n = Some old ->
  marks x (set_nth n a l) + (if String.eqb old x then 1 else 0) =
  marks x l + (if String.eqb a x then 1 else 0).
Proof.
  unfold marks. revert n. induction l as [|b l IH]; intros [|n] E; cbn in E;
    try discriminate.
  - inversion E; subst. cbn [set_nth count_occ].
    destruct (String.eqb_spec old x), (String.eqb_spec a x);
      destruct (string_dec old x), (string_dec a x); try congruence; lia.
  - specialize (IH n E). cbn [set_nth count_occ].
    destruct (string_dec b x); lia.
Qed.

Lemma marks_total (l : list string) :
  Forall mark l ->
  marks "X" l + marks "O" l + marks " " l = Z.of_nat (length l).
Proof.
  unfold marks. induction 1 as [|c l Hc _ IH]; [reflexivity|].
  cbn [count_occ length].
  destruct Hc as [-> | [-> | ->]];
    repeat match goal with
           | |- context [string_dec ?a ?b] =>
               destruct (string_dec a b); try discriminate; try congruence
           end; lia.
Qed.

Lemma marks_blank (l : list string) :
  marks " " l = 0 <-> ~ In " "%string l.
Proof.
  unfold marks. split.
  - intros E Hin. apply (count_occ_In string_dec) in Hin. lia.
  - intros Hn. apply (count_occ_not_In string_dec) in Hn. lia.
Qed.

Lemma str_in_In (x : string) (l : list string) :
  str_in x l = true <-> In x l.
Proof.
  unfold str_in. rewrite existsb_exists. split.
  - intros (y & Hy & E). apply String.eqb_eq in E. subst. exact Hy.
  - intros Hin. exists x. split; [exact Hin | apply String.eqb_refl].
Qed.

Lemma lines_in_range (i j k : Z) :
  In (i, j, k) lines -> 0 <= i < 9 /\ 0 <= j < 9 /\ 0 <= k < 9.
Proof.
  unfold lines. cbn [In]. intros H.
  repeat (destruct H as [H | H]; [inversion H; subst; lia|]).
  destruct H.
Qed.

Lemma holds_cells (board : list string) (i j k : Z) (a b c x : string) :
  py_index board i = Ok a -> py_index board j = Ok b ->
  py_index board k = Ok c ->
  holds board x (i, j, k) <-> a = x /\ b = x /\ c = x.
Proof.
  intros Ea Eb Ec. unfold holds. rewrite Ea, Eb, Ec.
  split; intros (H1 & H2 & H3); repeat split; congruence.
Qed.

(** [check_lines] on a board of nine cells: it raises nothing, and answers
    [True] exactly when some line of [ls] holds three equal marks. *)
Lemma check_lines_spec (board : list string) (ls : list (Z * Z * Z)) :
  length board = 9%nat -> incl ls lines ->
  exists won,
    check_lines board ls = Ok won /\
    (won = true <->
     exists c, c <> " "%string /\ Exists (holds board c) ls).
Proof.
  intros Hlen. induction ls as [|[[i j] k] rest IH]; intros Hls.
  - exists false. split; [reflexivity|]. split; [discriminate|].
    intros (c & _ & Hex). inversion Hex.
  - destruct IH as (won & Ewon & Hwon).
    { intros l Hin. apply Hls. right. exact Hin. }
    destruct (lines_in_range i j k (Hls _ (or_introl eq_refl)))
      as (Hi & Hj & Hk).
    destruct (py_index_in_range board i) as (a & Ea & _); [lia|].
    destruct (py_index_in_range board j) as (b & Eb & _); [lia|].
    destruct (py_index_in_range board k) as (c & Ec & _); [lia|].
    pose proof (fun x => holds_cells board i j k a b c x Ea Eb Ec) as Hhere.
    assert (Hskip : ~ (a = b /\ b = c /\ c <> " "%string) ->
              won = true <->
              exists x, x <> " "%string /\
                        Exists (holds board x) ((i, j, k) :: rest)).
    { intros Hno. rewrite Hwon. split; intros (x & Hx & Hex).
      - exists x. split; [exact Hx | right; exact Hex].
      - exists x. split; [exact Hx|].
        apply Exists_cons in Hex. destruct Hex as [Hh | Hex]; [|exact Hex].
        apply Hhere in Hh. exfalso. apply Hno.
        destruct Hh as (-> & -> & ->). auto. }
    cbn [check_lines]. rewrite Ea, Eb. cbn [and_then].
    destruct (String.eqb_spec a b) as [Eab | Nab].
    + rewrite Ec. cbn [and_then].
      destruct (String.eqb_spec b c) as [Ebc | Nbc];
        [destruct (String.eqb_spec c " ") as [Ecb | Ncb]|]; cbn [andb negb].
      * exists won. split; [exact Ewon | refine (Hskip _); intros (? & ? & ?); congruence].
      * exists true. split; [reflexivity|]. split; [|reflexivity].
        intros _. exists c. split; [exact Ncb|]. left. apply Hhere. repeat split; congruence.
      * exists won. split; [exact Ewon | refine (Hskip _); intros (? & ? & ?); congruence].
    + exists won. split; [exact Ewon | refine (Hskip _); intros (? & ? & ?); congruence].
Qed.

Lemma check_ttt_winner_spec (s : TicTacToe) :
  length (ttt_board s) = 9%nat ->
  exists won,
    check_ttt_winner s = Ok won /\
    (won = true <->
     exists c, c <> " "%string /\ full_line (ttt_board s) c).
Proof.
  intros Hlen. apply check_lines_spec; [exact Hlen | apply incl_refl].
Qed.

(** A mark put on [pos] completes no line away from [pos], and the lines
    through [pos] it completes hold the mark. *)
Lemma full_line_after_mark (board : list string) (pos : Z) (p c : string) :
  0 <= pos < Z.of_nat (length board) ->
  full_line (set_nth (Z.to_nat pos) p board) c ->
  c = p \/ full_line board c.
Proof.
  intros Hp Hex. unfold full_line in *.
  apply Exists_exists in Hex. destruct Hex as ([[i j] k] & Hin & Hi & Hj & Hk).
  destruct (lines_in_range i j k Hin) as (Ri & Rj & Rk).
  destruct (Z.eq_dec i pos) as [-> | Ni].
  { rewrite py_index_set_same in Hi by exact Hp. left. congruence. }
  destruct (Z.eq_dec j pos) as [-> | Nj].
  { rewrite py_index_set_same in Hj by exact Hp. left. congruence. }
  destruct (Z.eq_dec k pos) as [-> | Nk].
  { rewrite py_index_set_same in Hk by exact Hp. left. congruence. }
  right. apply Exists_exists. exists (i, j, k). split; [exact Hin|].
  rewrite py_index_set_other in Hi, Hj, Hk by lia.
  repeat split; assumption.
Qed.

Ltac ttt_fields :=
  cbn [ttt_board ttt_current_player ttt_game_over ttt_winner
       set_ttt_board set_ttt_current_player set_ttt_game_over
       set_ttt_winner] in *.

Lemma full_line_In (board : list string) (c : string) :
  full_line board c -> In c board.
Proof.
  intros Hex. apply Exists_exists in Hex.
  destruct Hex as ([[i j] k] & _ & Hi & _). eapply py_index_In. exact Hi.
Qed.

Lemma init_tic_tac_toe_ok :
  board_ok init_tic_tac_toe /\ outcome_ok init_tic_tac_toe.
Proof.
  split.
  - split; [reflexivity|]. split; [repeat constructor|].
    split; [left; reflexivity | reflexivity].
  - split; [reflexivity|]. split; [left; reflexivity|].
    intros c Hc. apply full_line_In in Hc.
    apply repeat_spec in Hc. exact Hc.
Qed.

(** The marks after the current player has marked a blank cell. *)
Lemma marks_after_mark (board : list string) (pos : Z) (p : string) :
  0 <= pos -> nth_error board (Z.to_nat pos) = Some " "%string ->
  p = "X"%string \/ p = "O"%string ->
  marks "X" (set_nth (Z.to_nat pos) p board) =
    marks "X" board + (if String.eqb p "X" then 1 else 0) /\
  marks "O" (set_nth (Z.to_nat pos) p board) =
    marks "O" board + (if String.eqb p "X" then 0 else 1).
Proof.
  intros Hp En Hpl.
  pose proof (marks_set_nth board (Z.to_nat pos) " " p "X" En) as HX.
  pose proof (marks_set_nth board (Z.to_nat pos) " " p "O" En) as HO.
  destruct Hpl as [-> | ->]; cbn in HX, HO |- *; lia.
Qed.

(** One key press keeps the board and the result of a game in order, and
    raises nothing. *)
Lemma handle_ttt_input_keeps (key : Z) (s : TicTacToe) :
  board_ok s -> outcome_ok s ->
  exists s', handle_ttt_input key s = Ok s' /\ board_ok s' /\ outcome_ok s'.
Proof.
  intros Hb Hr.
  assert (Hsame : exists s', Ok s = Ok s' /\ board_ok s' /\ outcome_ok s')
    by (exists s; auto).
  unfold handle_ttt_input.
  destruct ((pygame.K_1 <=? key) && (key <=? pygame.K_9)) eqn:Edigit.
  - apply andb_true_iff in Edigit. destruct Edigit as [Hlo Hhi].
    apply Z.leb_le in Hlo, Hhi. unfold pygame.K_1, pygame.K_9 in *.
    destruct Hb as (Hlen & Hall & Hpl & Hcount).
    destruct (py_index_in_range (ttt_board s) (key - 49))
      as (cell & Ecell & En); [lia|].
    rewrite Ecell. cbn [and_then].
    destruct (String.eqb_spec cell " ") as [-> | Ncell]; cbn [andb];
      [|exact Hsame].
    destruct (ttt_game_over s) eqn:Eover; cbn [negb];
      [exact Hsame|].
    unfold outcome_ok in Hr. rewrite Eover in Hr.
    destruct (ttt_winner s) as [w|] eqn:Ew; [destruct Hr as [Hr _]; discriminate Hr|].
    destruct Hr as (_ & Hblank & Hnone).
    rewrite py_setitem_in_range by lia. cbn [and_then].
    set (board := set_nth (Z.to_nat (key - 49)) (ttt_current_player s)
                    (ttt_board s)).
    assert (Hlen' : length board = 9%nat)
      by (unfold board; rewrite set_nth_length; exact Hlen).
    assert (Hall' : Forall mark board).
    { apply Forall_set_nth; [|exact Hall]. unfold mark. tauto. }
    destruct (marks_after_mark (ttt_board s) (key - 49)
                (ttt_current_player s)) as (HX & HO); [lia | exact En | exact Hpl|].
    fold board in HX, HO.
    assert (Hlines : forall c, full_line board c ->
                       c = ttt_current_player s \/ c = " "%string).
    { intros c Hc. apply full_line_after_mark in Hc; [|lia].
      destruct Hc as [Hc | Hc]; [left; exact Hc | right; apply Hnone; exact Hc]. }
    destruct (check_ttt_winner_spec (set_ttt_board board s))
      as (won & Ewon & Hwon); [exact Hlen'|].
    rewrite Ewon. cbn [and_then]. ttt_fields.
    destruct won.
    + destruct (proj1 Hwon eq_refl) as (c & Hc & Hline).
      assert (c = ttt_current_player s)
        by (destruct (Hlines c Hline); [assumption | contradiction]).
      subst c.
      eexists. split; [reflexivity|]. split.
      * unfold board_ok. ttt_fields.
        split; [exact Hlen'|]. split; [exact Hall'|]. split; [exact Hpl|].
        rewrite HX, HO, Hcount.
        destruct (String.eqb (ttt_current_player s) "X"); cbn; lia.
      * unfold outcome_ok. ttt_fields. split; [reflexivity|]. left.
        split; [reflexivity|]. split; [exact Hline | exact Hlines].
    + assert (Hnone' : no_winner board).
      { intros c Hc. destruct (String.eqb_spec c " ") as [E | N]; [exact E|].
        assert (false = true) by (apply Hwon; exists c; auto). discriminate. }
      destruct (str_in " " board) eqn:Ein; cbn [negb].
      * apply str_in_In in Ein.
        eexists. split; [reflexivity|]. split.
        -- unfold board_ok. ttt_fields.
           split; [exact Hlen'|]. split; [exact Hall'|].
           split; [destruct Hpl as [-> | ->]; cbn; auto|].
           rewrite HX, HO, Hcount, Eover.
           destruct Hpl as [-> | ->]; cbn; lia.
        -- unfold outcome_ok. ttt_fields. rewrite Ew.
           split; [exact Eover|]. split; [exact Ein | exact Hnone'].
      * assert (Hfull : ~ In " "%string board).
        { intros Hin. apply str_in_In in Hin. congruence. }
        pose proof (marks_total board Hall') as Htot.
        rewrite (proj2 (marks_blank board) Hfull), Hlen' in Htot.
        eexists. split; [reflexivity|]. split.
        -- unfold board_ok. ttt_fields.
           split; [exact Hlen'|]. split; [exact Hall'|]. split; [exact Hpl|].
           rewrite HX, HO, Hcount in *.
           destruct (String.eqb (ttt_current_player s) "X"); cbn in *; lia.
        -- unfold outcome_ok. ttt_fields. split; [reflexivity|]. right.
           split; [reflexivity|]. split; [exact Hfull|].
           split; [exact Hnone'|].
           rewrite HX, HO, Hcount in *.
           destruct (String.eqb (ttt_current_player s) "X"); cbn in *; lia.
  - destruct ((key =? pygame.K_r) && ttt_game_over s).
    + exists init_tic_tac_toe. split; [reflexivity | exact init_tic_tac_toe_ok].
    + exact Hsame.
Qed.

Lemma ttt_play_keeps (keys : list Z) (s : TicTacToe) :
  board_ok s -> outcome_ok s ->
  exists s', ttt_play keys s = Ok s' /\ board_ok s' /\ outcome_ok s'.
Proof.
  revert s. induction keys as [|key rest IH]; intros s Hb Hr.
  - exists s. auto.
  - destruct (handle_ttt_input_keeps key s Hb Hr) as (s1 & E1 & Hb1 & Hr1).
    cbn [ttt_play]. rewrite E1. cbn [and_then]. apply IH; assumption.
Qed.

(** The two players never get out of step: whatever keys are pressed from
    the start of a game, [handle_ttt_input] raises nothing, the board keeps
    its nine cells, each a blank, an X or an O, X has as many marks as O or
    one more, and while the game is on it is X's turn exactly when the marks
    are even. *)
Theorem ttt_board_shape (keys : list Z) :
  exists s,
    ttt_play keys init_tic_tac_toe = Ok s /\
    length (ttt_board s) = 9%nat /\ Forall mark (ttt_board s) /\
    (ttt_current_player s = "X"%string \/ ttt_current_player s = "O"%string) /\
    (marks "X" (ttt_board s) = marks "O" (ttt_board s) \/
     marks "X" (ttt_board s) = marks "O" (ttt_board s) + 1) /\
    (ttt_game_over s = false ->
     (ttt_current_player s = "X"%string <->
      marks "X" (ttt_board s) = marks "O" (ttt_board s))).
Proof.
  destruct init_tic_tac_toe_ok as [Hb0 Hr0].
  destruct (ttt_play_keeps keys init_tic_tac_toe Hb0 Hr0)
    as (s & E & (Hlen & Hall & Hpl & Hcount) & _).
  exists s. split; [exact E|]. split; [exact Hlen|]. split; [exact Hall|].
  split; [exact Hpl|]. split.
  - destruct (Bool.eqb _ _) in Hcount; lia.
  - intros Eover. rewrite Eover in Hcount.
    destruct Hpl as [Ep | Ep]; rewrite Ep in *; cbn in Hcount;
      split; intros H; try reflexivity; try discriminate; lia.
Qed.

(** The result of a game is the one on the board: whatever keys are pressed
    from the start of a game, as long as no winner is recorded the game is
    on, a blank cell is left and nobody has three in a line; a recorded
    winner X or O is the player of the last mark, has three in a line, and
    the other player has not; a recorded tie is a full board of five X and
    four O where nobody has three in a line. *)
Theorem ttt_result_sound (keys : list Z) :
  exists s,
    ttt_play keys init_tic_tac_toe = Ok s /\
    (ttt_current_player s = "X"%string \/ ttt_current_player s = "O"%string) /\
    outcome_ok s.
Proof.
  destruct init_tic_tac_toe_ok as [Hb0 Hr0].
  destruct (ttt_play_keeps keys init_tic_tac_toe Hb0 Hr0)
    as (s & E & (_ & _ & Hpl & _) & Hr).
  exists s. split; [exact E|]. split; [exact Hpl | exact Hr].
Qed.

(** A game X wins on the top row, and the keys after the end that are
    ignored. *)
Lemma ttt_sample_game :
  ttt_play [49; 52; 50; 49; 53; 51; 55; 114 - 1] init_tic_tac_toe =
    Ok {| ttt_board := ["X"; "X"; "X"; "O"; "O"; " "; " "; " "; " "]%string;
          ttt_current_player := "X";
          ttt_game_over := true;
          ttt_winner := Some "X"%string |} /\
  ttt_play [49; 50; 51; 53; 52; 54; 56; 55; 57] init_tic_tac_toe =
    Ok {| ttt_board := ["X"; "O"; "X"; "X"; "O"; "O"; "O"; "X"; "X"]%string;
          ttt_current_player := "X";
          ttt_game_over := true;
          ttt_winner := Some "Tie"%string |} /\
  ttt_play [49; 50; 51; 53; 52; 54; 56; 55; 57; 114] init_tic_tac_toe =
    Ok init_tic_tac_toe.
Proof. repeat split; vm_compute; reflexivity. Qed.

(** ** Translations *)

Lemma dict_get_None {A} (d : list (string * A)) (key : string) :
  ~ In key (map fst d) -> dict_get d key = None.
Proof.
  induction d as [|[k v] d IH]; intros Hn; [reflexivity|].
  cbn [dict_get]. destruct (String.eqb_spec k key) as [-> | Nk].
  - exfalso. apply Hn. left. reflexivity.
  - apply IH. intros Hin. apply Hn. right. exact Hin.
Qed.

Lemma reachable_language (g : Game) :
  reachable g ->
  language g = "english"%string \/ language g = "tamil"%string.
Proof.
  revert g.
  apply (reachable_invariant
           (fun g => language g = "english"%string \/
                     language g = "tamil"%string)).
  - intros c _ _. left. reflexivity.
  - intros g1 g2 P1 K. inversion K; subst.
    + rewrite H0. exact P1.
    + fields. destruct (String.eqb (language g1) "english"); auto.
    + fields. exact P1.
    + apply start_game_effect in H0.
      destruct H0 as (_ & _ & _ & _ & Hl & _). rewrite Hl. exact P1.
  - intros now g1 g2 P1 _ T. destruct T; fields; exact P1.
  - intros q g1 P1. fields. exact P1.
  - intros g1 P1. unfold answered_wrong. fields. exact P1.
  - intros g1 front tail c P1 _ _ _. unfold answered_right. fields.
    destruct (_ =? 0); fields; exact P1.
Qed.

(** In every reachable session the language is english or tamil, so
    [get_text] finds the table of the language and raises no KeyError,
    whatever the key; a key of neither table is returned as it is, and the
    two tables have the same keys, so no text is translated in one language
    only. *)
Theorem get_text_never_fails (g : Game) (key : string) :
  reachable g ->
  (language g = "english"%string \/ language g = "tamil"%string) /\
  (exists text,
     get_text key g = Some text /\
     (~ In key (map fst english) -> text = key)) /\
  map fst english = map fst tamil.
Proof.
  intros Hreach. pose proof (reachable_language g Hreach) as Hl.
  split; [exact Hl|]. split; [|reflexivity].
  unfold get_text.
  destruct Hl as [-> | ->]; cbn [translations dict_get String.eqb Ascii.eqb
                                  Bool.eqb].
  - eexists. split; [reflexivity|]. intros Hn.
    rewrite (dict_get_None english key Hn). reflexivity.
  - eexists. split; [reflexivity|]. intros Hn.
    rewrite (dict_get_None tamil key); [reflexivity|].
    change (map fst tamil) with (map fst english). exact Hn.
Qed.

Lemma language_frame :
  run_frame (mkFrame [KEYDOWN K_l "l"] 0 no_key) (sample_game, tt) [] =
    Ok ((true, (set_language "tamil" sample_game, tt)), []).
Proof. vm_compute. reflexivity. Defined.

Lemma tamil_reachable : reachable (set_language "tamil" sample_game).
Proof.
  exact (reach_frame unit no_sub_games _ _ _ _ _ _ _ _
           sample_game_reachable language_frame).
Defined.

Lemma get_text_sample :
  reachable (set_language "tamil" sample_game) /\
  get_text "score" (set_language "tamil" sample_game) = Some "மதிப்பெண்"%string /\
  get_text "lives" (set_language "tamil" sample_game) = Some "lives"%string /\
  (language (set_language "tamil" sample_game) = "english"%string \/
   language (set_language "tamil" sample_game) = "tamil"%string) /\
  (exists text,
     get_text "score" (set_language "tamil" sample_game) = Some text /\
     (~ In "score"%string (map fst english) -> text = "score"%string)) /\
  map fst english = map fst tamil.
Proof.
  split; [exact tamil_reachable|].
  split; [vm_compute; reflexivity|]. split; [vm_compute; reflexivity|].
  exact (get_text_never_fails (set_language "tamil" sample_game) "score"
           tamil_reachable).
Defined.
